(** * moveit_servo: the servoing calculation core ([servo_calcs.cpp])

    A shallow embedding of [moveit_servo::ServoCalcs] and the properties of
    its control cycle.

    Numbers.  A C++ [double] is modelled by [double] below: an exact
    rational, or one of the three special values of IEEE-754 arithmetic
    (plus infinity, minus infinity, not-a-number).  Finite arithmetic is
    exact (no rounding) and there is a single zero, which behaves as the
    positive zero; the special values follow IEEE-754, so that the places
    where the source depends on them (a [std::isnan] test, a division by a
    zero increment, a comparison with a not-a-number) take the branch the
    program takes. *)

From Stdlib Require Import QArith Qabs Lqa ZArith Lia Bool.
From Stdlib Require Floats.
From stdpp Require Import base option list strings gmap.

Local Open Scope Q_scope.

(** ** IEEE-style doubles with exact finite arithmetic *)

Module Double.

Inductive double : Set :=
| Fin (q : Q)
| PInf
| NInf
| NaN.

Definition zero : double := Fin 0.
Definition one : double := Fin 1.

Definition isnan (x : double) : bool :=
  match x with NaN => true | _ => false end.

Definition finite (x : double) : Prop :=
  match x with Fin _ => True | _ => False end.

Definition is_finite (x : double) : bool :=
  match x with Fin _ => true | _ => false end.

(** unary minus *)
Definition neg (x : double) : double :=
  match x with
  | Fin q => Fin (- q)
  | PInf => NInf
  | NInf => PInf
  | NaN => NaN
  end.

(** [fabs] *)
Definition fabs (x : double) : double :=
  match x with
  | Fin q => Fin (Qabs q)
  | PInf | NInf => PInf
  | NaN => NaN
  end.

(** an infinity of the sign of [q], not-a-number when [q] is zero:
    the value of [q * inf] and of [q / 0] *)
Definition signed_inf (q : Q) : double :=
  match q ?= 0 with
  | Gt => PInf
  | Lt => NInf
  | Eq => NaN
  end.

Definition add (x y : double) : double :=
  match x, y with
  | NaN, _ | _, NaN => NaN
  | Fin a, Fin b => Fin (a + b)
  | PInf, NInf | NInf, PInf => NaN
  | PInf, _ | _, PInf => PInf
  | NInf, _ | _, NInf => NInf
  end.

Definition sub (x y : double) : double := add x (neg y).

Definition mul (x y : double) : double :=
  match x, y with
  | NaN, _ | _, NaN => NaN
  | Fin a, Fin b => Fin (a * b)
  | Fin a, PInf | PInf, Fin a => signed_inf a
  | Fin a, NInf | NInf, Fin a => signed_inf (- a)
  | PInf, PInf | NInf, NInf => PInf
  | PInf, NInf | NInf, PInf => NInf
  end.

Definition div (x y : double) : double :=
  match x, y with
  | NaN, _ | _, NaN => NaN
  | Fin a, Fin b =>
      match b ?= 0 with
      | Eq => signed_inf a
      | _ => Fin (a / b)
      end
  | Fin _, (PInf | NInf) => Fin 0
  | PInf, Fin b => match b ?= 0 with Lt => NInf | _ => PInf end
  | NInf, Fin b => match b ?= 0 with Lt => PInf | _ => NInf end
  | (PInf | NInf), (PInf | NInf) => NaN
  end.

(** the comparison of two doubles; [None] when one of them is
    not-a-number (every ordered comparison is then false) *)
Definition cmp (x y : double) : option comparison :=
  match x, y with
  | NaN, _ | _, NaN => None
  | Fin a, Fin b => Some (a ?= b)
  | PInf, PInf | NInf, NInf => Some Eq
  | PInf, _ | _, NInf => Some Gt
  | NInf, _ | _, PInf => Some Lt
  end.

(** [x < y], [x <= y], [x > y], [x >= y], [x == y], [x != y] *)
Definition ltb (x y : double) : bool :=
  match cmp x y with Some Lt => true | _ => false end.
Definition leb (x y : double) : bool :=
  match cmp x y with Some (Lt | Eq) => true | _ => false end.
Definition gtb (x y : double) : bool := ltb y x.
Definition geb (x y : double) : bool := leb y x.
Definition eqb (x y : double) : bool :=
  match cmp x y with Some Eq => true | _ => false end.
Definition neqb (x y : double) : bool := negb (eqb x y).

(** [std::max(a, b)] is [(a < b) ? b : a]; [std::min(a, b)] is
    [(b < a) ? b : a] *)
Definition max (a b : double) : double := if ltb a b then b else a.
Definition min (a b : double) : double := if ltb b a then b else a.

(** Two doubles denote the same value. *)
Definition same (x y : double) : Prop :=
  match x, y with
  | Fin a, Fin b => a == b
  | PInf, PInf | NInf, NInf | NaN, NaN => True
  | _, _ => False
  end.

(** [is_zero x]: [x] is the number zero. *)
Definition is_zero (x : double) : Prop := same x zero.

End Double.

Export Double.

Declare Scope double_scope.
Delimit Scope double_scope with D.
Bind Scope double_scope with double.
Infix "+" := add : double_scope.
Infix "-" := sub : double_scope.
Infix "*" := mul : double_scope.
Infix "/" := div : double_scope.
Notation "- x" := (neg x) : double_scope.
Infix "<?" := ltb : double_scope.
Infix "<=?" := leb : double_scope.
Infix ">?" := gtb : double_scope.
Infix ">=?" := geb : double_scope.
Infix "==?" := eqb (at level 70) : double_scope.
Infix "!=?" := neqb (at level 70) : double_scope.
Infix "≃" := same (at level 70) : double_scope.

(** Eigen vectors and arrays of doubles, and dense matrices by rows. *)
Abbreviation Vector := (list double).
Abbreviation Matrix := (list (list double)).

#[global] Instance double_inhabited : Inhabited double := populate zero.

Local Open Scope D.

(** Eigen's coefficient-wise and linear-algebra operations, as far as the
    servo calculations use them.  Eigen asserts that the sizes of the
    operands agree; here the shorter operand decides. *)
Module Eigen.

(** [a.dot(b)] *)
Definition dot (a b : Vector) : double :=
  foldl add zero (zip_with mul a b).

(** [M * v] *)
Definition mat_vec_mul (M : Matrix) (v : Vector) : Vector :=
  map (fun row => dot row v) M.

(** [M.col(j)] *)
Definition col (M : Matrix) (j : nat) : Vector :=
  map (fun row => row !!! j) M.

(** [M.transpose()] for a matrix of [n] columns *)
Definition transpose (n : nat) (M : Matrix) : Matrix :=
  map (col M) (seq 0 n).

(** [A * B], where [B] has [n] columns *)
Definition mat_mul (n : nat) (A B : Matrix) : Matrix :=
  map (fun row => map (fun j => dot row (col B j)) (seq 0 n)) A.

(** [v.asDiagonal()] as a dense matrix *)
Definition asDiagonal (v : Vector) : Matrix :=
  imap (fun i x => <[i := x]> (replicate (length v) zero)) v.

(** [c * v] and [v / c] for a scalar [c] *)
Definition scale (c : double) (v : Vector) : Vector := map (mul c) v.
Definition div_scalar (v : Vector) (c : double) : Vector :=
  map (fun x => x / c) v.

(** [a + b] and [a - b], coefficient-wise *)
Definition vadd (a b : Vector) : Vector := zip_with add a b.
Definition vsub (a b : Vector) : Vector := zip_with sub a b.

(** [(a.array() == b.array()).all()] for two vectors of one size *)
Fixpoint veqb (a b : Vector) : bool :=
  match a, b with
  | [], [] => true
  | x :: a', y :: b' => (x ==? y) && veqb a' b'
  | _, _ => false
  end.

(** [v.setZero()]: every coefficient becomes zero, the size is kept *)
Definition setZero (v : Vector) : Vector := replicate (length v) zero.

(** [Eigen::ArrayXd::Zero(n)] *)
Definition Zero (n : nat) : Vector := replicate n zero.

(** The result of [Eigen::JacobiSVD]: the singular values in decreasing
    order and the two (thin) unitary factors. *)
Record SVD := {
  singularValues : Vector;
  matrixU : Matrix;
  matrixV : Matrix
}.

(** A rigid transform, [Eigen::Isometry3d]: rotation and translation. *)
Record Isometry3d := {
  linear : Matrix;
  translation : Vector
}.

(** [t.inverse()] of an isometry: the transposed rotation [R'] and
    [- R' * t] *)
Definition iso_inverse (t : Isometry3d) : Isometry3d :=
  let r' := transpose 3 (linear t) in
  {| linear := r'; translation := map neg (mat_vec_mul r' (translation t)) |}.

(** [a * b] of two isometries *)
Definition iso_mul (a b : Isometry3d) : Isometry3d :=
  {| linear := mat_mul 3 (linear a) (linear b);
     translation := vadd (mat_vec_mul (linear a) (translation b)) (translation a) |}.

End Eigen.

Export Eigen.

(** ** Messages *)

(** [ros::Time] and [ros::Duration], in seconds. *)
Definition Time : Set := Q.

Record Header := {
  stamp : Time;
  frame_id : string
}.

Record Vector3 := { x : double; y : double; z : double }.

Record Twist := { twist_linear : Vector3; twist_angular : Vector3 }.

(** [geometry_msgs::TwistStamped] *)
Record TwistStamped := {
  twist_header : Header;
  twist : Twist
}.

(** [control_msgs::JointJog] *)
Record JointJog := {
  jog_header : Header;
  joint_names : list string;
  velocities : Vector
}.

(** [sensor_msgs::JointState] *)
Record JointState := {
  name : list string;
  position : Vector;
  velocity : Vector
}.

(** [trajectory_msgs::JointTrajectoryPoint] *)
Record JointTrajectoryPoint := {
  positions : Vector;
  point_velocities : Vector;
  accelerations : Vector;
  time_from_start : double
}.

(** [trajectory_msgs::JointTrajectory] *)
Record JointTrajectory := {
  traj_stamp : Time;
  traj_joint_names : list string;
  points : list JointTrajectoryPoint
}.

(** What a cycle sends on the outgoing command topic. *)
Inductive OutgoingCmd :=
| TrajectoryMsg (t : JointTrajectory)
| Float64MultiArrayMsg (data : Vector).

(** Modelled from the spec: the enumeration [moveit_servo::StatusCode] is
    declared in [status_codes.h], which is not among the sources; these
    are the status codes the specification lists. *)
Inductive StatusCode :=
| NO_WARNING
| DECELERATE_FOR_SINGULARITY
| HALT_FOR_SINGULARITY
| HALT_FOR_COLLISION
| JOINT_BOUND.

#[global] Instance StatusCode_eq_dec : EqDecision StatusCode.
Proof. solve_decision. Defined.

(** ** The kinematics provider *)

(** Modelled from the spec: [moveit::core::VariableBounds] is declared in
    [moveit_core], which is not among the sources (the per-joint bounds of
    the JointSetModel). *)
Record VariableBounds := {
  min_position_ : double;
  max_position_ : double;
  position_bounded_ : bool;
  min_velocity_ : double;
  max_velocity_ : double;
  velocity_bounded_ : bool;
  min_acceleration_ : double;
  max_acceleration_ : double;
  acceleration_bounded_ : bool
}.

(** [moveit_msgs::JointLimits], the fields read by the position check *)
Record JointLimits := {
  min_position : double;
  max_position : double
}.

(** Modelled from the spec: [moveit::core::JointModel] is declared in
    [moveit_core].  The servo calculations read one variable per active
    joint (index [0], named as the joint), so a joint carries its name and
    the bounds of that variable. *)
Record JointModel := {
  getName : string;
  getVariableBounds : VariableBounds
}.

(** [joint->getVariableBoundsMsg()]: one entry per variable of the joint *)
Definition getVariableBoundsMsg (joint : JointModel) : list JointLimits :=
  [ {| min_position := min_position_ (getVariableBounds joint);
       max_position := max_position_ (getVariableBounds joint) |} ].

(** [joint_model_group_->getActiveJointModels()] *)
Abbreviation JointModelGroup := (list JointModel).

(** Modelled from the spec: [moveit::core::RobotState] is declared in
    [moveit_core].  The state keeps a position and a velocity for every
    variable, by name. *)
Record RobotState := {
  variable_positions : gmap string double;
  variable_velocities : gmap string double
}.

Module RobotStateOps.

(** writes [values] to the variables [names], pairwise *)
Definition assign (names : list string) (values : Vector)
    (m : gmap string double) : gmap string double :=
  foldl (fun acc nv => <[nv.1 := nv.2]> acc) m (zip names values).

(** Modelled from the spec: [RobotState::setVariableValues(msg)] copies
    the positions of the message, and its velocities when it has some. *)
Definition setVariableValues (msg : JointState) (st : RobotState) : RobotState :=
  {| variable_positions := assign (name msg) (position msg) (variable_positions st);
     variable_velocities :=
       match velocity msg with
       | [] => variable_velocities st
       | _ => assign (name msg) (velocity msg) (variable_velocities st)
       end |}.

(** Modelled from the spec: [copyJointGroupPositions(group, out)] reads
    the positions of the group's active joints, in the group's order. *)
Definition copyJointGroupPositions (group : JointModelGroup) (st : RobotState) : Vector :=
  map (fun j => default zero (variable_positions st !! getName j)) group.

(** Modelled from the spec: [setJointGroupPositions(group, values)] writes
    the positions of the group's active joints. *)
Definition setJointGroupPositions (group : JointModelGroup) (values : Vector)
    (st : RobotState) : RobotState :=
  {| variable_positions := assign (map getName group) values (variable_positions st);
     variable_velocities := variable_velocities st |}.

(** Modelled from the spec: [getJointVelocities(joint)[0]] *)
Definition getJointVelocities0 (joint : JointModel) (st : RobotState) : double :=
  default zero (variable_velocities st !! getName joint).

End RobotStateOps.

Export RobotStateOps.

(** ** Configuration *)

(** [moveit_servo::ServoParameters], the members the calculations read *)
Record ServoParameters := {
  publish_period : double;
  command_in_type : string;
  command_out_type : string;
  linear_scale : double;
  rotational_scale : double;
  joint_scale : double;
  low_pass_filter_coeff : double;
  lower_singularity_threshold : double;
  hard_stop_singularity_threshold : double;
  joint_limit_margin : double;
  incoming_command_timeout : Time;
  num_outgoing_halt_msgs_to_publish : Z;
  use_gazebo : bool;
  publish_joint_positions : bool;
  publish_joint_velocities : bool;
  publish_joint_accelerations : bool;
  planning_frame : string;
  robot_link_command_frame : string
}.

(** ** External collaborators

    The parts of the system the servo calculations call but do not
    define: the kinematics provider's Jacobian, position-bound test and
    frame transforms, the TF listener, Eigen's decomposition and dense
    inverse, and the low-pass filter of [low_pass_filter.h]. *)
Class Collaborators := {
  (** [moveit_servo::LowPassFilter], its constructor from the filter
      coefficient, [filter(x)] and [reset(x)] *)
  LowPassFilter : Type;
  LowPassFilter_new : double -> LowPassFilter;
  filter : LowPassFilter -> double -> double * LowPassFilter;
  reset : LowPassFilter -> double -> LowPassFilter;
  (** [kinematic_state_->getJacobian(joint_model_group_)] *)
  getJacobian : RobotState -> JointModelGroup -> Matrix;
  (** [kinematic_state_->satisfiesPositionBounds(joint, margin)] *)
  satisfiesPositionBounds : RobotState -> JointModel -> double -> bool;
  (** [knowsFrameTransform], [getFrameTransform] and the root link name *)
  knowsFrameTransform : RobotState -> string -> bool;
  getFrameTransform : RobotState -> string -> Isometry3d;
  getRootLinkName : string;
  (** [listener_.lookupTransform(target, source, ros::Time(0), out)];
      [None] when it throws [tf::TransformException] *)
  lookupTransform : string -> string -> option Isometry3d;
  (** [Eigen::JacobiSVD<Eigen::MatrixXd>(m, ...)] *)
  JacobiSVD : Matrix -> SVD;
  (** [m.inverse()] of a dense square matrix *)
  inverse : Matrix -> Matrix;
  (** the contents of an object that was default-constructed and never
      assigned: [Eigen::Isometry3d()] and [Eigen::VectorXd result(6)] *)
  indeterminate_isometry : Isometry3d;
  indeterminate_vector : nat -> Vector
}.

(** ** The state of [ServoCalcs] *)

(** The members guarded by [latest_state_mutex_]: they are written by the
    subscriber callbacks and copied by the control cycle. *)
Record LatestState := {
  latest_twist_stamped_ : option TwistStamped;
  latest_joint_cmd_ : option JointJog;
  latest_twist_command_stamp_ : Time;
  latest_joint_command_stamp_ : Time;
  latest_nonzero_twist_stamped_ : bool;
  latest_nonzero_joint_cmd_ : bool;
  latest_planning_frame_ : string;
  latest_robot_link_command_frame_ : string
}.

Section State.
Context {C : Collaborators}.

(** The data members of the class.  The first five are fixed by the
    constructor. *)
#[projections(primitive)]
Record ServoCalcs := {
  parameters_ : ServoParameters;
  joint_model_group_ : JointModelGroup;
  num_joints_ : nat;
  joint_state_name_map_ : gmap string nat;
  gazebo_redundant_message_count_ : nat;
  kinematic_state_ : RobotState;
  internal_joint_state_ : JointState;
  original_joint_state_ : JointState;
  position_filters_ : list LowPassFilter;
  updated_filters_ : bool;
  last_sent_command_ : JointTrajectory;
  status_ : StatusCode;
  delta_theta_ : Vector;
  prev_joint_velocity_ : Vector;
  collision_velocity_scale_ : double;
  control_dimensions_ : list bool;
  drift_dimensions_ : list bool;
  paused_ : bool;
  wait_for_servo_commands_ : bool;
  zero_velocity_count_ : Z;
  ok_to_publish_ : bool;
  stop_requested_ : bool;
  twist_stamped_cmd_ : TwistStamped;
  joint_servo_cmd_ : JointJog;
  twist_command_is_stale_ : bool;
  joint_command_is_stale_ : bool;
  have_nonzero_twist_stamped_ : bool;
  have_nonzero_joint_command_ : bool;
  have_nonzero_command_ : bool;
  planning_frame_ : string;
  robot_link_command_frame_ : string;
  tf_moveit_to_robot_cmd_frame_ : Isometry3d;
  latest_ : LatestState
}.

(** Assignment to one member. *)
Definition set_kinematic_state_ (v : RobotState) (s : ServoCalcs) : ServoCalcs :=
  Build_ServoCalcs (parameters_ s) (joint_model_group_ s) (num_joints_ s)
    (joint_state_name_map_ s) (gazebo_redundant_message_count_ s) v
    (internal_joint_state_ s) (original_joint_state_ s) (position_filters_ s)
    (updated_filters_ s) (last_sent_command_ s) (status_ s) (delta_theta_ s)
    (prev_joint_velocity_ s) (collision_velocity_scale_ s)
    (control_dimensions_ s) (drift_dimensions_ s) (paused_ s)
    (wait_for_servo_commands_ s) (zero_velocity_count_ s) (ok_to_publish_ s)
    (stop_requested_ s) (twist_stamped_cmd_ s) (joint_servo_cmd_ s)
    (twist_command_is_stale_ s) (joint_command_is_stale_ s)
    (have_nonzero_twist_stamped_ s) (have_nonzero_joint_command_ s)
    (have_nonzero_command_ s) (planning_frame_ s)
    (robot_link_command_frame_ s) (tf_moveit_to_robot_cmd_frame_ s)
    (latest_ s).

Definition set_internal_joint_state_ (v : JointState) (s : ServoCalcs) : ServoCalcs :=
  Build_ServoCalcs (parameters_ s) (joint_model_group_ s) (num_joints_ s)
    (joint_state_name_map_ s) (gazebo_redundant_message_count_ s)
    (kinematic_state_ s) v (original_joint_state_ s) (position_filters_ s)
    (updated_filters_ s) (last_sent_command_ s) (status_ s) (delta_theta_ s)
    (prev_joint_velocity_ s) (collision_velocity_scale_ s)
    (control_dimensions_ s) (drift_dimensions_ s) (paused_ s)
    (wait_for_servo_commands_ s) (zero_velocity_count_ s) (ok_to_publish_ s)
    (stop_requested_ s) (twist_stamped_cmd_ s) (joint_servo_cmd_ s)
    (twist_command_is_stale_ s) (joint_command_is_stale_ s)
    (have_nonzero_twist_stamped_ s) (have_nonzero_joint_command_ s)
    (have_nonzero_command_ s) (planning_frame_ s)
    (robot_link_command_frame_ s) (tf_moveit_to_robot_cmd_frame_ s)
    (latest_ s).

Definition set_original_joint_state_ (v : JointState) (s : ServoCalcs) : ServoCalcs :=
  Build_ServoCalcs (parameters_ s) (joint_model_group_ s) (num_joints_ s)
    (joint_state_name_map_ s) (gazebo_redundant_message_count_ s)
    (kinematic_state_ s) (internal_joint_state_ s) v (position_filters_ s)
    (updated_filters_ s) (last_sent_command_ s) (status_ s) (delta_theta_ s)
    (prev_joint_velocity_ s) (collision_velocity_scale_ s)
    (control_dimensions_ s) (drift_dimensions_ s) (paused_ s)
    (wait_for_servo_commands_ s) (zero_velocity_count_ s) (ok_to_publish_ s)
    (stop_requested_ s) (twist_stamped_cmd_ s) (joint_servo_cmd_ s)
    (twist_command_is_stale_ s) (joint_command_is_stale_ s)
    (have_nonzero_twist_stamped_ s) (have_nonzero_joint_command_ s)
    (have_nonzero_command_ s) (planning_frame_ s)
    (robot_link_command_frame_ s) (tf_moveit_to_robot_cmd_frame_ s)
    (latest_ s).

Definition set_position_filters_ (v : list LowPassFilter) (s : ServoCalcs) : ServoCalcs :=
  Build_ServoCalcs (parameters_ s) (joint_model_group_ s) (num_joints_ s)
    (joint_state_name_map_ s) (gazebo_redundant_message_count_ s)
    (kinematic_state_ s) (internal_joint_state_ s) (original_joint_state_ s)
    v (updated_filters_ s) (last_sent_command_ s) (status_ s)
    (delta_theta_ s) (prev_joint_velocity_ s) (collision_velocity_scale_ s)
    (control_dimensions_ s) (drift_dimensions_ s) (paused_ s)
    (wait_for_servo_commands_ s) (zero_velocity_count_ s) (ok_to_publish_ s)
    (stop_requested_ s) (twist_stamped_cmd_ s) (joint_servo_cmd_ s)
    (twist_command_is_stale_ s) (joint_command_is_stale_ s)
    (have_nonzero_twist_stamped_ s) (have_nonzero_joint_command_ s)
    (have_nonzero_command_ s) (planning_frame_ s)
    (robot_link_command_frame_ s) (tf_moveit_to_robot_cmd_frame_ s)
    (latest_ s).

Definition set_updated_filters_ (v : bool) (s : ServoCalcs) : ServoCalcs :=
  Build_ServoCalcs (parameters_ s) (joint_model_group_ s) (num_joints_ s)
    (joint_state_name_map_ s) (gazebo_redundant_message_count_ s)
    (kinematic_state_ s) (internal_joint_state_ s) (original_joint_state_ s)
    (position_filters_ s) v (last_sent_command_ s) (status_ s)
    (delta_theta_ s) (prev_joint_velocity_ s) (collision_velocity_scale_ s)
    (control_dimensions_ s) (drift_dimensions_ s) (paused_ s)
    (wait_for_servo_commands_ s) (zero_velocity_count_ s) (ok_to_publish_ s)
    (stop_requested_ s) (twist_stamped_cmd_ s) (joint_servo_cmd_ s)
    (twist_command_is_stale_ s) (joint_command_is_stale_ s)
    (have_nonzero_twist_stamped_ s) (have_nonzero_joint_command_ s)
    (have_nonzero_command_ s) (planning_frame_ s)
    (robot_link_command_frame_ s) (tf_moveit_to_robot_cmd_frame_ s)
    (latest_ s).

Definition set_last_sent_command_ (v : JointTrajectory) (s : ServoCalcs) : ServoCalcs :=
  Build_ServoCalcs (parameters_ s) (joint_model_group_ s) (num_joints_ s)
    (joint_state_name_map_ s) (gazebo_redundant_message_count_ s)
    (kinematic_state_ s) (internal_joint_state_ s) (original_joint_state_ s)
    (position_filters_ s) (updated_filters_ s) v (status_ s) (delta_theta_ s)
    (prev_joint_velocity_ s) (collision_velocity_scale_ s)
    (control_dimensions_ s) (drift_dimensions_ s) (paused_ s)
    (wait_for_servo_commands_ s) (zero_velocity_count_ s) (ok_to_publish_ s)
    (stop_requested_ s) (twist_stamped_cmd_ s) (joint_servo_cmd_ s)
    (twist_command_is_stale_ s) (joint_command_is_stale_ s)
    (have_nonzero_twist_stamped_ s) (have_nonzero_joint_command_ s)
    (have_nonzero_command_ s) (planning_frame_ s)
    (robot_link_command_frame_ s) (tf_moveit_to_robot_cmd_frame_ s)
    (latest_ s).

Definition set_status_ (v : StatusCode) (s : ServoCalcs) : ServoCalcs :=
  Build_ServoCalcs (parameters_ s) (joint_model_group_ s) (num_joints_ s)
    (joint_state_name_map_ s) (gazebo_redundant_message_count_ s)
    (kinematic_state_ s) (internal_joint_state_ s) (original_joint_state_ s)
    (position_filters_ s) (updated_filters_ s) (last_sent_command_ s) v
    (delta_theta_ s) (prev_joint_velocity_ s) (collision_velocity_scale_ s)
    (control_dimensions_ s) (drift_dimensions_ s) (paused_ s)
    (wait_for_servo_commands_ s) (zero_velocity_count_ s) (ok_to_publish_ s)
    (stop_requested_ s) (twist_stamped_cmd_ s) (joint_servo_cmd_ s)
    (twist_command_is_stale_ s) (joint_command_is_stale_ s)
    (have_nonzero_twist_stamped_ s) (have_nonzero_joint_command_ s)
    (have_nonzero_command_ s) (planning_frame_ s)
    (robot_link_command_frame_ s) (tf_moveit_to_robot_cmd_frame_ s)
    (latest_ s).

Definition set_delta_theta_ (v : Vector) (s : ServoCalcs) : ServoCalcs :=
  Build_ServoCalcs (parameters_ s) (joint_model_group_ s) (num_joints_ s)
    (joint_state_name_map_ s) (gazebo_redundant_message_count_ s)
    (kinematic_state_ s) (internal_joint_state_ s) (original_joint_state_ s)
    (position_filters_ s) (updated_filters_ s) (last_sent_command_ s)
    (status_ s) v (prev_joint_velocity_ s) (collision_velocity_scale_ s)
    (control_dimensions_ s) (drift_dimensions_ s) (paused_ s)
    (wait_for_servo_commands_ s) (zero_velocity_count_ s) (ok_to_publish_ s)
    (stop_requested_ s) (twist_stamped_cmd_ s) (joint_servo_cmd_ s)
    (twist_command_is_stale_ s) (joint_command_is_stale_ s)
    (have_nonzero_twist_stamped_ s) (have_nonzero_joint_command_ s)
    (have_nonzero_command_ s) (planning_frame_ s)
    (robot_link_command_frame_ s) (tf_moveit_to_robot_cmd_frame_ s)
    (latest_ s).

Definition set_prev_joint_velocity_ (v : Vector) (s : ServoCalcs) : ServoCalcs :=
  Build_ServoCalcs (parameters_ s) (joint_model_group_ s) (num_joints_ s)
    (joint_state_name_map_ s) (gazebo_redundant_message_count_ s)
    (kinematic_state_ s) (internal_joint_state_ s) (original_joint_state_ s)
    (position_filters_ s) (updated_filters_ s) (last_sent_command_ s)
    (status_ s) (delta_theta_ s) v (collision_velocity_scale_ s)
    (control_dimensions_ s) (drift_dimensions_ s) (paused_ s)
    (wait_for_servo_commands_ s) (zero_velocity_count_ s) (ok_to_publish_ s)
    (stop_requested_ s) (twist_stamped_cmd_ s) (joint_servo_cmd_ s)
    (twist_command_is_stale_ s) (joint_command_is_stale_ s)
    (have_nonzero_twist_stamped_ s) (have_nonzero_joint_command_ s)
    (have_nonzero_command_ s) (planning_frame_ s)
    (robot_link_command_frame_ s) (tf_moveit_to_robot_cmd_frame_ s)
    (latest_ s).

Definition set_collision_velocity_scale_ (v : double) (s : ServoCalcs) : ServoCalcs :=
  Build_ServoCalcs (parameters_ s) (joint_model_group_ s) (num_joints_ s)
    (joint_state_name_map_ s) (gazebo_redundant_message_count_ s)
    (kinematic_state_ s) (internal_joint_state_ s) (original_joint_state_ s)
    (position_filters_ s) (updated_filters_ s) (last_sent_command_ s)
    (status_ s) (delta_theta_ s) (prev_joint_velocity_ s) v
    (control_dimensions_ s) (drift_dimensions_ s) (paused_ s)
    (wait_for_servo_commands_ s) (zero_velocity_count_ s) (ok_to_publish_ s)
    (stop_requested_ s) (twist_stamped_cmd_ s) (joint_servo_cmd_ s)
    (twist_command_is_stale_ s) (joint_command_is_stale_ s)
    (have_nonzero_twist_stamped_ s) (have_nonzero_joint_command_ s)
    (have_nonzero_command_ s) (planning_frame_ s)
    (robot_link_command_frame_ s) (tf_moveit_to_robot_cmd_frame_ s)
    (latest_ s).

Definition set_control_dimensions_ (v : list bool) (s : ServoCalcs) : ServoCalcs :=
  Build_ServoCalcs (parameters_ s) (joint_model_group_ s) (num_joints_ s)
    (joint_state_name_map_ s) (gazebo_redundant_message_count_ s)
    (kinematic_state_ s) (internal_joint_state_ s) (original_joint_state_ s)
    (position_filters_ s) (updated_filters_ s) (last_sent_command_ s)
    (status_ s) (delta_theta_ s) (prev_joint_velocity_ s)
    (collision_velocity_scale_ s) v (drift_dimensions_ s) (paused_ s)
    (wait_for_servo_commands_ s) (zero_velocity_count_ s) (ok_to_publish_ s)
    (stop_requested_ s) (twist_stamped_cmd_ s) (joint_servo_cmd_ s)
    (twist_command_is_stale_ s) (joint_command_is_stale_ s)
    (have_nonzero_twist_stamped_ s) (have_nonzero_joint_command_ s)
    (have_nonzero_command_ s) (planning_frame_ s)
    (robot_link_command_frame_ s) (tf_moveit_to_robot_cmd_frame_ s)
    (latest_ s).

Definition set_drift_dimensions_ (v : list bool) (s : ServoCalcs) : ServoCalcs :=
  Build_ServoCalcs (parameters_ s) (joint_model_group_ s) (num_joints_ s)
    (joint_state_name_map_ s) (gazebo_redundant_message_count_ s)
    (kinematic_state_ s) (internal_joint_state_ s) (original_joint_state_ s)
    (position_filters_ s) (updated_filters_ s) (last_sent_command_ s)
    (status_ s) (delta_theta_ s) (prev_joint_velocity_ s)
    (collision_velocity_scale_ s) (control_dimensions_ s) v (paused_ s)
    (wait_for_servo_commands_ s) (zero_velocity_count_ s) (ok_to_publish_ s)
    (stop_requested_ s) (twist_stamped_cmd_ s) (joint_servo_cmd_ s)
    (twist_command_is_stale_ s) (joint_command_is_stale_ s)
    (have_nonzero_twist_stamped_ s) (have_nonzero_joint_command_ s)
    (have_nonzero_command_ s) (planning_frame_ s)
    (robot_link_command_frame_ s) (tf_moveit_to_robot_cmd_frame_ s)
    (latest_ s).

Definition set_paused_ (v : bool) (s : ServoCalcs) : ServoCalcs :=
  Build_ServoCalcs (parameters_ s) (joint_model_group_ s) (num_joints_ s)
    (joint_state_name_map_ s) (gazebo_redundant_message_count_ s)
    (kinematic_state_ s) (internal_joint_state_ s) (original_joint_state_ s)
    (position_filters_ s) (updated_filters_ s) (last_sent_command_ s)
    (status_ s) (delta_theta_ s) (prev_joint_velocity_ s)
    (collision_velocity_scale_ s) (control_dimensions_ s)
    (drift_dimensions_ s) v (wait_for_servo_commands_ s)
    (zero_velocity_count_ s) (ok_to_publish_ s) (stop_requested_ s)
    (twist_stamped_cmd_ s) (joint_servo_cmd_ s) (twist_command_is_stale_ s)
    (joint_command_is_stale_ s) (have_nonzero_twist_stamped_ s)
    (have_nonzero_joint_command_ s) (have_nonzero_command_ s)
    (planning_frame_ s) (robot_link_command_frame_ s)
    (tf_moveit_to_robot_cmd_frame_ s) (latest_ s).

Definition set_wait_for_servo_commands_ (v : bool) (s : ServoCalcs) : ServoCalcs :=
  Build_ServoCalcs (parameters_ s) (joint_model_group_ s) (num_joints_ s)
    (joint_state_name_map_ s) (gazebo_redundant_message_count_ s)
    (kinematic_state_ s) (internal_joint_state_ s) (original_joint_state_ s)
    (position_filters_ s) (updated_filters_ s) (last_sent_command_ s)
    (status_ s) (delta_theta_ s) (prev_joint_velocity_ s)
    (collision_velocity_scale_ s) (control_dimensions_ s)
    (drift_dimensions_ s) (paused_ s) v (zero_velocity_count_ s)
    (ok_to_publish_ s) (stop_requested_ s) (twist_stamped_cmd_ s)
    (joint_servo_cmd_ s) (twist_command_is_stale_ s)
    (joint_command_is_stale_ s) (have_nonzero_twist_stamped_ s)
    (have_nonzero_joint_command_ s) (have_nonzero_command_ s)
    (planning_frame_ s) (robot_link_command_frame_ s)
    (tf_moveit_to_robot_cmd_frame_ s) (latest_ s).

Definition set_zero_velocity_count_ (v : Z) (s : ServoCalcs) : ServoCalcs :=
  Build_ServoCalcs (parameters_ s) (joint_model_group_ s) (num_joints_ s)
    (joint_state_name_map_ s) (gazebo_redundant_message_count_ s)
    (kinematic_state_ s) (internal_joint_state_ s) (original_joint_state_ s)
    (position_filters_ s) (updated_filters_ s) (last_sent_command_ s)
    (status_ s) (delta_theta_ s) (prev_joint_velocity_ s)
    (collision_velocity_scale_ s) (control_dimensions_ s)
    (drift_dimensions_ s) (paused_ s) (wait_for_servo_commands_ s) v
    (ok_to_publish_ s) (stop_requested_ s) (twist_stamped_cmd_ s)
    (joint_servo_cmd_ s) (twist_command_is_stale_ s)
    (joint_command_is_stale_ s) (have_nonzero_twist_stamped_ s)
    (have_nonzero_joint_command_ s) (have_nonzero_command_ s)
    (planning_frame_ s) (robot_link_command_frame_ s)
    (tf_moveit_to_robot_cmd_frame_ s) (latest_ s).

Definition set_ok_to_publish_ (v : bool) (s : ServoCalcs) : ServoCalcs :=
  Build_ServoCalcs (parameters_ s) (joint_model_group_ s) (num_joints_ s)
    (joint_state_name_map_ s) (gazebo_redundant_message_count_ s)
    (kinematic_state_ s) (internal_joint_state_ s) (original_joint_state_ s)
    (position_filters_ s) (updated_filters_ s) (last_sent_command_ s)
    (status_ s) (delta_theta_ s) (prev_joint_velocity_ s)
    (collision_velocity_scale_ s) (control_dimensions_ s)
    (drift_dimensions_ s) (paused_ s) (wait_for_servo_commands_ s)
    (zero_velocity_count_ s) v (stop_requested_ s) (twist_stamped_cmd_ s)
    (joint_servo_cmd_ s) (twist_command_is_stale_ s)
    (joint_command_is_stale_ s) (have_nonzero_twist_stamped_ s)
    (have_nonzero_joint_command_ s) (have_nonzero_command_ s)
    (planning_frame_ s) (robot_link_command_frame_ s)
    (tf_moveit_to_robot_cmd_frame_ s) (latest_ s).

Definition set_stop_requested_ (v : bool) (s : ServoCalcs) : ServoCalcs :=
  Build_ServoCalcs (parameters_ s) (joint_model_group_ s) (num_joints_ s)
    (joint_state_name_map_ s) (gazebo_redundant_message_count_ s)
    (kinematic_state_ s) (internal_joint_state_ s) (original_joint_state_ s)
    (position_filters_ s) (updated_filters_ s) (last_sent_command_ s)
    (status_ s) (delta_theta_ s) (prev_joint_velocity_ s)
    (collision_velocity_scale_ s) (control_dimensions_ s)
    (drift_dimensions_ s) (paused_ s) (wait_for_servo_commands_ s)
    (zero_velocity_count_ s) (ok_to_publish_ s) v (twist_stamped_cmd_ s)
    (joint_servo_cmd_ s) (twist_command_is_stale_ s)
    (joint_command_is_stale_ s) (have_nonzero_twist_stamped_ s)
    (have_nonzero_joint_command_ s) (have_nonzero_command_ s)
    (planning_frame_ s) (robot_link_command_frame_ s)
    (tf_moveit_to_robot_cmd_frame_ s) (latest_ s).

Definition set_twist_stamped_cmd_ (v : TwistStamped) (s : ServoCalcs) : ServoCalcs :=
  Build_ServoCalcs (parameters_ s) (joint_model_group_ s) (num_joints_ s)
    (joint_state_name_map_ s) (gazebo_redundant_message_count_ s)
    (kinematic_state_ s) (internal_joint_state_ s) (original_joint_state_ s)
    (position_filters_ s) (updated_filters_ s) (last_sent_command_ s)
    (status_ s) (delta_theta_ s) (prev_joint_velocity_ s)
    (collision_velocity_scale_ s) (control_dimensions_ s)
    (drift_dimensions_ s) (paused_ s) (wait_for_servo_commands_ s)
    (zero_velocity_count_ s) (ok_to_publish_ s) (stop_requested_ s) v
    (joint_servo_cmd_ s) (twist_command_is_stale_ s)
    (joint_command_is_stale_ s) (have_nonzero_twist_stamped_ s)
    (have_nonzero_joint_command_ s) (have_nonzero_command_ s)
    (planning_frame_ s) (robot_link_command_frame_ s)
    (tf_moveit_to_robot_cmd_frame_ s) (latest_ s).

Definition set_joint_servo_cmd_ (v : JointJog) (s : ServoCalcs) : ServoCalcs :=
  Build_ServoCalcs (parameters_ s) (joint_model_group_ s) (num_joints_ s)
    (joint_state_name_map_ s) (gazebo_redundant_message_count_ s)
    (kinematic_state_ s) (internal_joint_state_ s) (original_joint_state_ s)
    (position_filters_ s) (updated_filters_ s) (last_sent_command_ s)
    (status_ s) (delta_theta_ s) (prev_joint_velocity_ s)
    (collision_velocity_scale_ s) (control_dimensions_ s)
    (drift_dimensions_ s) (paused_ s) (wait_for_servo_commands_ s)
    (zero_velocity_count_ s) (ok_to_publish_ s) (stop_requested_ s)
    (twist_stamped_cmd_ s) v (twist_command_is_stale_ s)
    (joint_command_is_stale_ s) (have_nonzero_twist_stamped_ s)
    (have_nonzero_joint_command_ s) (have_nonzero_command_ s)
    (planning_frame_ s) (robot_link_command_frame_ s)
    (tf_moveit_to_robot_cmd_frame_ s) (latest_ s).

Definition set_twist_command_is_stale_ (v : bool) (s : ServoCalcs) : ServoCalcs :=
  Build_ServoCalcs (parameters_ s) (joint_model_group_ s) (num_joints_ s)
    (joint_state_name_map_ s) (gazebo_redundant_message_count_ s)
    (kinematic_state_ s) (internal_joint_state_ s) (original_joint_state_ s)
    (position_filters_ s) (updated_filters_ s) (last_sent_command_ s)
    (status_ s) (delta_theta_ s) (prev_joint_velocity_ s)
    (collision_velocity_scale_ s) (control_dimensions_ s)
    (drift_dimensions_ s) (paused_ s) (wait_for_servo_commands_ s)
    (zero_velocity_count_ s) (ok_to_publish_ s) (stop_requested_ s)
    (twist_stamped_cmd_ s) (joint_servo_cmd_ s) v (joint_command_is_stale_ s)
    (have_nonzero_twist_stamped_ s) (have_nonzero_joint_command_ s)
    (have_nonzero_command_ s) (planning_frame_ s)
    (robot_link_command_frame_ s) (tf_moveit_to_robot_cmd_frame_ s)
    (latest_ s).

Definition set_joint_command_is_stale_ (v : bool) (s : ServoCalcs) : ServoCalcs :=
  Build_ServoCalcs (parameters_ s) (joint_model_group_ s) (num_joints_ s)
    (joint_state_name_map_ s) (gazebo_redundant_message_count_ s)
    (kinematic_state_ s) (internal_joint_state_ s) (original_joint_state_ s)
    (position_filters_ s) (updated_filters_ s) (last_sent_command_ s)
    (status_ s) (delta_theta_ s) (prev_joint_velocity_ s)
    (collision_velocity_scale_ s) (control_dimensions_ s)
    (drift_dimensions_ s) (paused_ s) (wait_for_servo_commands_ s)
    (zero_velocity_count_ s) (ok_to_publish_ s) (stop_requested_ s)
    (twist_stamped_cmd_ s) (joint_servo_cmd_ s) (twist_command_is_stale_ s) v
    (have_nonzero_twist_stamped_ s) (have_nonzero_joint_command_ s)
    (have_nonzero_command_ s) (planning_frame_ s)
    (robot_link_command_frame_ s) (tf_moveit_to_robot_cmd_frame_ s)
    (latest_ s).

Definition set_have_nonzero_twist_stamped_ (v : bool) (s : ServoCalcs) : ServoCalcs :=
  Build_ServoCalcs (parameters_ s) (joint_model_group_ s) (num_joints_ s)
    (joint_state_name_map_ s) (gazebo_redundant_message_count_ s)
    (kinematic_state_ s) (internal_joint_state_ s) (original_joint_state_ s)
    (position_filters_ s) (updated_filters_ s) (last_sent_command_ s)
    (status_ s) (delta_theta_ s) (prev_joint_velocity_ s)
    (collision_velocity_scale_ s) (control_dimensions_ s)
    (drift_dimensions_ s) (paused_ s) (wait_for_servo_commands_ s)
    (zero_velocity_count_ s) (ok_to_publish_ s) (stop_requested_ s)
    (twist_stamped_cmd_ s) (joint_servo_cmd_ s) (twist_command_is_stale_ s)
    (joint_command_is_stale_ s) v (have_nonzero_joint_command_ s)
    (have_nonzero_command_ s) (planning_frame_ s)
    (robot_link_command_frame_ s) (tf_moveit_to_robot_cmd_frame_ s)
    (latest_ s).

Definition set_have_nonzero_joint_command_ (v : bool) (s : ServoCalcs) : ServoCalcs :=
  Build_ServoCalcs (parameters_ s) (joint_model_group_ s) (num_joints_ s)
    (joint_state_name_map_ s) (gazebo_redundant_message_count_ s)
    (kinematic_state_ s) (internal_joint_state_ s) (original_joint_state_ s)
    (position_filters_ s) (updated_filters_ s) (last_sent_command_ s)
    (status_ s) (delta_theta_ s) (prev_joint_velocity_ s)
    (collision_velocity_scale_ s) (control_dimensions_ s)
    (drift_dimensions_ s) (paused_ s) (wait_for_servo_commands_ s)
    (zero_velocity_count_ s) (ok_to_publish_ s) (stop_requested_ s)
    (twist_stamped_cmd_ s) (joint_servo_cmd_ s) (twist_command_is_stale_ s)
    (joint_command_is_stale_ s) (have_nonzero_twist_stamped_ s) v
    (have_nonzero_command_ s) (planning_frame_ s)
    (robot_link_command_frame_ s) (tf_moveit_to_robot_cmd_frame_ s)
    (latest_ s).

Definition set_have_nonzero_command_ (v : bool) (s : ServoCalcs) : ServoCalcs :=
  Build_ServoCalcs (parameters_ s) (joint_model_group_ s) (num_joints_ s)
    (joint_state_name_map_ s) (gazebo_redundant_message_count_ s)
    (kinematic_state_ s) (internal_joint_state_ s) (original_joint_state_ s)
    (position_filters_ s) (updated_filters_ s) (last_sent_command_ s)
    (status_ s) (delta_theta_ s) (prev_joint_velocity_ s)
    (collision_velocity_scale_ s) (control_dimensions_ s)
    (drift_dimensions_ s) (paused_ s) (wait_for_servo_commands_ s)
    (zero_velocity_count_ s) (ok_to_publish_ s) (stop_requested_ s)
    (twist_stamped_cmd_ s) (joint_servo_cmd_ s) (twist_command_is_stale_ s)
    (joint_command_is_stale_ s) (have_nonzero_twist_stamped_ s)
    (have_nonzero_joint_command_ s) v (planning_frame_ s)
    (robot_link_command_frame_ s) (tf_moveit_to_robot_cmd_frame_ s)
    (latest_ s).

Definition set_planning_frame_ (v : string) (s : ServoCalcs) : ServoCalcs :=
  Build_ServoCalcs (parameters_ s) (joint_model_group_ s) (num_joints_ s)
    (joint_state_name_map_ s) (gazebo_redundant_message_count_ s)
    (kinematic_state_ s) (internal_joint_state_ s) (original_joint_state_ s)
    (position_filters_ s) (updated_filters_ s) (last_sent_command_ s)
    (status_ s) (delta_theta_ s) (prev_joint_velocity_ s)
    (collision_velocity_scale_ s) (control_dimensions_ s)
    (drift_dimensions_ s) (paused_ s) (wait_for_servo_commands_ s)
    (zero_velocity_count_ s) (ok_to_publish_ s) (stop_requested_ s)
    (twist_stamped_cmd_ s) (joint_servo_cmd_ s) (twist_command_is_stale_ s)
    (joint_command_is_stale_ s) (have_nonzero_twist_stamped_ s)
    (have_nonzero_joint_command_ s) (have_nonzero_command_ s) v
    (robot_link_command_frame_ s) (tf_moveit_to_robot_cmd_frame_ s)
    (latest_ s).

Definition set_robot_link_command_frame_ (v : string) (s : ServoCalcs) : ServoCalcs :=
  Build_ServoCalcs (parameters_ s) (joint_model_group_ s) (num_joints_ s)
    (joint_state_name_map_ s) (gazebo_redundant_message_count_ s)
    (kinematic_state_ s) (internal_joint_state_ s) (original_joint_state_ s)
    (position_filters_ s) (updated_filters_ s) (last_sent_command_ s)
    (status_ s) (delta_theta_ s) (prev_joint_velocity_ s)
    (collision_velocity_scale_ s) (control_dimensions_ s)
    (drift_dimensions_ s) (paused_ s) (wait_for_servo_commands_ s)
    (zero_velocity_count_ s) (ok_to_publish_ s) (stop_requested_ s)
    (twist_stamped_cmd_ s) (joint_servo_cmd_ s) (twist_command_is_stale_ s)
    (joint_command_is_stale_ s) (have_nonzero_twist_stamped_ s)
    (have_nonzero_joint_command_ s) (have_nonzero_command_ s)
    (planning_frame_ s) v (tf_moveit_to_robot_cmd_frame_ s) (latest_ s).

Definition set_tf_moveit_to_robot_cmd_frame_ (v : Isometry3d) (s : ServoCalcs) : ServoCalcs :=
  Build_ServoCalcs (parameters_ s) (joint_model_group_ s) (num_joints_ s)
    (joint_state_name_map_ s) (gazebo_redundant_message_count_ s)
    (kinematic_state_ s) (internal_joint_state_ s) (original_joint_state_ s)
    (position_filters_ s) (updated_filters_ s) (last_sent_command_ s)
    (status_ s) (delta_theta_ s) (prev_joint_velocity_ s)
    (collision_velocity_scale_ s) (control_dimensions_ s)
    (drift_dimensions_ s) (paused_ s) (wait_for_servo_commands_ s)
    (zero_velocity_count_ s) (ok_to_publish_ s) (stop_requested_ s)
    (twist_stamped_cmd_ s) (joint_servo_cmd_ s) (twist_command_is_stale_ s)
    (joint_command_is_stale_ s) (have_nonzero_twist_stamped_ s)
    (have_nonzero_joint_command_ s) (have_nonzero_command_ s)
    (planning_frame_ s) (robot_link_command_frame_ s) v (latest_ s).

Definition set_latest_ (v : LatestState) (s : ServoCalcs) : ServoCalcs :=
  Build_ServoCalcs (parameters_ s) (joint_model_group_ s) (num_joints_ s)
    (joint_state_name_map_ s) (gazebo_redundant_message_count_ s)
    (kinematic_state_ s) (internal_joint_state_ s) (original_joint_state_ s)
    (position_filters_ s) (updated_filters_ s) (last_sent_command_ s)
    (status_ s) (delta_theta_ s) (prev_joint_velocity_ s)
    (collision_velocity_scale_ s) (control_dimensions_ s)
    (drift_dimensions_ s) (paused_ s) (wait_for_servo_commands_ s)
    (zero_velocity_count_ s) (ok_to_publish_ s) (stop_requested_ s)
    (twist_stamped_cmd_ s) (joint_servo_cmd_ s) (twist_command_is_stale_ s)
    (joint_command_is_stale_ s) (have_nonzero_twist_stamped_ s)
    (have_nonzero_joint_command_ s) (have_nonzero_command_ s)
    (planning_frame_ s) (robot_link_command_frame_ s)
    (tf_moveit_to_robot_cmd_frame_ s) v.

(** ** Helpers of the anonymous namespace *)

(** [isNonZero(const geometry_msgs::TwistStamped&)] *)
Definition isNonZero_twist (msg : TwistStamped) : bool :=
  (x (twist_linear (twist msg)) !=? zero) || (y (twist_linear (twist msg)) !=? zero) ||
  (z (twist_linear (twist msg)) !=? zero) || (x (twist_angular (twist msg)) !=? zero) ||
  (y (twist_angular (twist msg)) !=? zero) || (z (twist_angular (twist msg)) !=? zero).

(** [isNonZero(const control_msgs::JointJog&)] *)
Definition isNonZero_jog (msg : JointJog) : bool :=
  let all_zeros := foldl (fun acc delta => acc && (delta ==? zero)) true (velocities msg) in
  negb all_zeros.

(** ** Scaling of the incoming commands *)

Definition is_unitless (s : ServoCalcs) : bool :=
  String.eqb (command_in_type (parameters_ s)) "unitless".
Definition is_speed_units (s : ServoCalcs) : bool :=
  String.eqb (command_in_type (parameters_ s)) "speed_units".

(** [ServoCalcs::scaleCartesianCommand] *)
Definition scaleCartesianCommand (s : ServoCalcs) (command : TwistStamped) : Vector :=
  let p := parameters_ s in
  let lin := twist_linear (twist command) in
  let ang := twist_angular (twist command) in
  if is_unitless s then
    [ linear_scale p * publish_period p * x lin;
      linear_scale p * publish_period p * y lin;
      linear_scale p * publish_period p * z lin;
      rotational_scale p * publish_period p * x ang;
      rotational_scale p * publish_period p * y ang;
      rotational_scale p * publish_period p * z ang ]
  else if is_speed_units s then
    [ x lin * publish_period p;
      y lin * publish_period p;
      z lin * publish_period p;
      x ang * publish_period p;
      y ang * publish_period p;
      z ang * publish_period p ]
  else
    (* "Unexpected command_in_type": [result] is returned as constructed *)
    indeterminate_vector 6.

(** [ServoCalcs::scaleJointCommand] *)
Definition scaleJointCommand (s : ServoCalcs) (command : JointJog) : Vector :=
  let p := parameters_ s in
  foldl
    (fun result '(m, joint_name) =>
       match joint_state_name_map_ s !! joint_name with
       | None => result  (* std::out_of_range: "Ignoring joint", continue *)
       | Some c =>
           if is_unitless s then
             <[c := velocities command !!! m * joint_scale p * publish_period p]> result
           else if is_speed_units s then
             <[c := velocities command !!! m * publish_period p]> result
           else result
       end)
    (Zero (num_joints_ s))
    (imap (fun m joint_name => (m, joint_name)) (joint_names command)).

(** [ServoCalcs::addJointIncrements].  The loop indexes
    [output.position] with [operator[]], which does not throw: the
    handler of [std::out_of_range] is never entered and the function
    returns [true].  An increment beyond the last position is written
    outside the vector; the vector itself keeps its size and its entries,
    which is all the model records of that write. *)
Fixpoint addJointIncrements (output_position : Vector) (increments : Vector)
    : bool * Vector :=
  match increments, output_position with
  | [], _ => (true, output_position)
  | _ :: _, [] => (true, [])
  | d :: increments', p :: output' =>
      let '(ok, rest) := addJointIncrements output' increments' in
      (ok, (p + d) :: rest)
  end.

(** [ServoCalcs::removeDimension] *)
Definition removeDimension (jacobian : Matrix) (delta_x : Vector) (row_to_remove : nat)
    : Matrix * Vector :=
  let num_rows := (length jacobian - 1)%nat in
  if (row_to_remove <? num_rows)%nat then
    (take num_rows
       (take row_to_remove jacobian ++
        take (num_rows - row_to_remove) (drop (row_to_remove + 1) jacobian) ++
        drop num_rows jacobian),
     take num_rows
       (take row_to_remove delta_x ++
        take (num_rows - row_to_remove) (drop (row_to_remove + 1) delta_x) ++
        drop num_rows delta_x))
  else
    (take num_rows jacobian, take num_rows delta_x).

(** ** Acceleration and velocity limits *)

(** The acceleration block of the loop of [enforceSRDFAccelVelLimits],
    for the joint at [joint_delta_index].  [acceleration] was computed
    before the loop; [delta_theta] is updated in place. *)
Definition clipAcceleration (period : double) (prev_joint_velocity acceleration : Vector)
    (joint_delta_index : nat) (bounds : VariableBounds) (delta_theta : Vector) : Vector :=
  if acceleration_bounded_ bounds then
    let '(clip_acceleration, acceleration_limit) :=
      if acceleration !!! joint_delta_index <? min_acceleration_ bounds
      then (true, min_acceleration_ bounds)
      else if acceleration !!! joint_delta_index >? max_acceleration_ bounds
      then (true, max_acceleration_ bounds)
      else (false, zero) in
    if clip_acceleration then
      let relative_change :=
        ((acceleration_limit * period + prev_joint_velocity !!! joint_delta_index) * period)
        / delta_theta !!! joint_delta_index in
      if fabs relative_change <? one
      then <[joint_delta_index := relative_change * delta_theta !!! joint_delta_index]> delta_theta
      else delta_theta
    else delta_theta
  else delta_theta.

(** The velocity block of the loop, for the joint at [joint_delta_index];
    [delta_theta] and [velocity] are updated in place.  The products and
    quotients are those of [double], without rounding, so that
    [relative_change * delta_theta] is [velocity_limit * period] itself;
    [Binary64.clipVelocity] below is the same block on binary64
    numbers, where the product can land one unit in the last place
    beyond it. *)
Definition clipVelocity (period : double) (joint_delta_index : nat) (bounds : VariableBounds)
    (dv : Vector * Vector) : Vector * Vector :=
  let '(delta_theta, velocity) := dv in
  if velocity_bounded_ bounds then
    let velocity := <[joint_delta_index := delta_theta !!! joint_delta_index / period]> velocity in
    let '(clip_velocity, velocity_limit) :=
      if velocity !!! joint_delta_index <? min_velocity_ bounds
      then (true, min_velocity_ bounds)
      else if velocity !!! joint_delta_index >? max_velocity_ bounds
      then (true, max_velocity_ bounds)
      else (false, zero) in
    if clip_velocity then
      let relative_change := (velocity_limit * period) / delta_theta !!! joint_delta_index in
      if fabs relative_change <? one
      then (<[joint_delta_index := relative_change * delta_theta !!! joint_delta_index]> delta_theta,
            <[joint_delta_index := relative_change * velocity !!! joint_delta_index]> velocity)
      else (delta_theta, velocity)
    else (delta_theta, velocity)
  else (delta_theta, velocity).

(** One pass of the loop of [enforceSRDFAccelVelLimits] for the joint at
    [joint_delta_index]: the acceleration clip, then the velocity clip. *)
Definition enforce_joint (period : double) (prev_joint_velocity acceleration : Vector)
    (joint_delta_index : nat) (joint : JointModel) (dv : Vector * Vector)
    : Vector * Vector :=
  let bounds := getVariableBounds joint in
  clipVelocity period joint_delta_index bounds
    (clipAcceleration period prev_joint_velocity acceleration joint_delta_index bounds (fst dv),
     snd dv).

(** The loop over the active joints, [joint_delta_index] counting from
    [i]. *)
Fixpoint enforce_loop (period : double) (prev_joint_velocity acceleration : Vector)
    (i : nat) (joints : JointModelGroup) (dv : Vector * Vector) : Vector * Vector :=
  match joints with
  | [] => dv
  | joint :: joints' =>
      enforce_loop period prev_joint_velocity acceleration (S i) joints'
        (enforce_joint period prev_joint_velocity acceleration i joint dv)
  end.

(** [ServoCalcs::enforceSRDFAccelVelLimits(delta_theta)] *)
Definition enforceSRDFAccelVelLimits (s : ServoCalcs) (delta_theta : Vector) : Vector :=
  let period := publish_period (parameters_ s) in
  let velocity := div_scalar delta_theta period in
  let acceleration := div_scalar (vsub velocity (prev_joint_velocity_ s)) period in
  fst (enforce_loop period (prev_joint_velocity_ s) acceleration 0
         (joint_model_group_ s) (delta_theta, velocity)).

(** ** Velocity scaling *)

(** [ServoCalcs::applyVelocityScaling(delta_theta, singularity_scale)].
    Both callers pass the member [delta_theta_] as [delta_theta], so the
    product and [delta_theta_.setZero()] write the same array. *)
Definition applyVelocityScaling (singularity_scale : double) (s : ServoCalcs) : ServoCalcs :=
  let collision_scale := collision_velocity_scale_ s in
  let s := if collision_scale ==? zero then set_status_ HALT_FOR_COLLISION s else s in
  let s := set_delta_theta_ (scale (collision_scale * singularity_scale) (delta_theta_ s)) s in
  if decide (status_ s = HALT_FOR_COLLISION)
  then set_delta_theta_ (setZero (delta_theta_ s)) s
  else s.

(** [x(0) / x(x.size() - 1)] of the singular values *)
Definition condition_number (svd : SVD) : double :=
  singularValues svd !!! 0%nat / singularValues svd !!! (length (singularValues svd) - 1)%nat.

(** The look-ahead of [velocityScalingFactorForSingularity]: the joints
    of the kinematic state are moved by [pseudo_inverse * delta_x], where
    [delta_x] is the singular vector scaled down by [100], and the
    condition number of the Jacobian is computed there. *)
Definition lookAhead (vector_toward_singularity : Vector) (pseudo_inverse : Matrix)
    (s : ServoCalcs) : double * ServoCalcs :=
  let scale_ := Fin 100 in
  let delta_x := div_scalar vector_toward_singularity scale_ in
  let new_theta := copyJointGroupPositions (joint_model_group_ s) (kinematic_state_ s) in
  let new_theta := vadd new_theta (mat_vec_mul pseudo_inverse delta_x) in
  let s := set_kinematic_state_
             (setJointGroupPositions (joint_model_group_ s) new_theta (kinematic_state_ s)) s in
  let new_jacobian := getJacobian (kinematic_state_ s) (joint_model_group_ s) in
  let new_svd := JacobiSVD new_jacobian in
  (condition_number new_svd, s).

(** The sign test that follows the look-ahead:
    [if (ini_condition >= new_condition) vector_toward_singularity *= -1;] *)
Definition resolveSign (ini_condition new_condition : double)
    (vector_toward_singularity : Vector) : Vector :=
  if ini_condition >=? new_condition
  then scale (Fin (-1)) vector_toward_singularity
  else vector_toward_singularity.

(** The deceleration decided from the dot product [dot_] and the
    condition number, with the status it sets. *)
Definition singularityRamp (dot_ ini_condition : double) (s : ServoCalcs)
    : double * ServoCalcs :=
  let p := parameters_ s in
  let velocity_scale := one in
  if dot_ >? zero then
    if (ini_condition >? lower_singularity_threshold p) &&
       (ini_condition <? hard_stop_singularity_threshold p)
    then
      (one - (ini_condition - lower_singularity_threshold p) /
               (hard_stop_singularity_threshold p - lower_singularity_threshold p),
       set_status_ DECELERATE_FOR_SINGULARITY s)
    else if ini_condition >? hard_stop_singularity_threshold p
    then (zero, set_status_ HALT_FOR_SINGULARITY s)
    else (velocity_scale, s)
  else (velocity_scale, s).

(** [ServoCalcs::velocityScalingFactorForSingularity] *)
Definition velocityScalingFactorForSingularity (commanded_velocity : Vector) (svd : SVD)
    (pseudo_inverse : Matrix) (s : ServoCalcs) : double * ServoCalcs :=
  let num_dimensions := length commanded_velocity in
  let vector_toward_singularity := col (matrixU svd) (num_dimensions - 1) in
  let ini_condition := condition_number svd in
  let '(new_condition, s) := lookAhead vector_toward_singularity pseudo_inverse s in
  let vector_toward_singularity :=
    resolveSign ini_condition new_condition vector_toward_singularity in
  let dot_ := dot vector_toward_singularity commanded_velocity in
  singularityRamp dot_ ini_condition s.

(** ** Low-pass filters *)

(** The loop of [lowPassFilterPositions] from index [i] on. *)
Fixpoint lowPassFilter_loop (i : nat) (filters : list LowPassFilter) (position : Vector)
    : list LowPassFilter * Vector :=
  match filters with
  | [] => ([], position)
  | f :: filters' =>
      let '(y, f') := filter f (position !!! i) in
      let '(rest, position') := lowPassFilter_loop (S i) filters' (<[i := y]> position) in
      (f' :: rest, position')
  end.

(** [ServoCalcs::lowPassFilterPositions(internal_joint_state_)] *)
Definition lowPassFilterPositions (s : ServoCalcs) : ServoCalcs :=
  let js := internal_joint_state_ s in
  let '(filters, position') := lowPassFilter_loop 0 (position_filters_ s) (position js) in
  let s := set_position_filters_ filters s in
  let s := set_internal_joint_state_
             {| name := name js; position := position'; velocity := velocity js |} s in
  set_updated_filters_ true s.

(** [ServoCalcs::resetLowPassFilters(joint_state)] *)
Definition resetLowPassFilters (joint_state : JointState) (s : ServoCalcs) : ServoCalcs :=
  let s := set_position_filters_
             (imap (fun i f => reset f (position joint_state !!! i)) (position_filters_ s)) s in
  set_updated_filters_ true s.

(** ** The outgoing message *)

(** [ServoCalcs::calculateJointVelocities(joint_state, delta_theta)] *)
Definition calculateJointVelocities (period : double) (joint_state : JointState)
    (delta_theta : Vector) : JointState :=
  {| name := name joint_state;
     position := position joint_state;
     velocity :=
       foldl (fun vel i => <[i := delta_theta !!! i / period]> vel)
         (velocity joint_state) (seq 0 (length delta_theta)) |}.

(** [ServoCalcs::composeJointTrajMessage] *)
Definition composeJointTrajMessage (s : ServoCalcs) (now : Time) (joint_state : JointState)
    (joint_trajectory : JointTrajectory) : JointTrajectory :=
  let p := parameters_ s in
  let point :=
    {| time_from_start := publish_period p;
       positions := if publish_joint_positions p then position joint_state else [];
       point_velocities := if publish_joint_velocities p then velocity joint_state else [];
       accelerations :=
         if publish_joint_accelerations p then replicate (num_joints_ s) zero else [] |} in
  {| traj_stamp := now;
     traj_joint_names := name joint_state;
     points := points joint_trajectory ++ [point] |}.

(** a default-constructed [JointTrajectoryPoint] *)
Definition JointTrajectoryPoint_default : JointTrajectoryPoint :=
  {| positions := []; point_velocities := []; accelerations := [];
     time_from_start := zero |}.

#[global] Instance JointTrajectoryPoint_inhabited : Inhabited JointTrajectoryPoint :=
  populate JointTrajectoryPoint_default.

Definition with_points (pts : list JointTrajectoryPoint) (t : JointTrajectory)
    : JointTrajectory :=
  {| traj_stamp := traj_stamp t; traj_joint_names := traj_joint_names t; points := pts |}.

(** [ServoCalcs::insertRedundantPointsIntoTrajectory(joint_trajectory, count)] *)
Definition insertRedundantPointsIntoTrajectory (s : ServoCalcs)
    (joint_trajectory : JointTrajectory) (count : nat) : JointTrajectory :=
  let pts := resize count JointTrajectoryPoint_default (points joint_trajectory) in
  let point := pts !!! 0%nat in
  let pts :=
    foldl
      (fun pts i =>
         <[i := {| positions := positions point;
                   point_velocities := point_velocities point;
                   accelerations := accelerations point;
                   time_from_start :=
                     Fin (inject_Z (Z.of_nat i)) * publish_period (parameters_ s) |}]> pts)
      pts (seq 2 (count - 2)) in
  with_points pts joint_trajectory.

(** One pass of the loop of [suddenHalt], for joint [i] of the first
    point. *)
Definition haltJoint (s : ServoCalcs) (pt : JointTrajectoryPoint) (i : nat)
    : JointTrajectoryPoint :=
  let p := parameters_ s in
  {| positions :=
       if publish_joint_positions p
       then <[i := position (original_joint_state_ s) !!! i]> (positions pt)
       else positions pt;
     point_velocities :=
       if publish_joint_velocities p
       then <[i := zero]> (point_velocities pt)
       else point_velocities pt;
     accelerations := accelerations pt;
     time_from_start := time_from_start pt |}.

(** [ServoCalcs::suddenHalt] *)
Definition suddenHalt (s : ServoCalcs) (joint_trajectory : JointTrajectory) : JointTrajectory :=
  let pts :=
    match points joint_trajectory with
    | [] =>
        [ {| positions := replicate (num_joints_ s) zero;
             point_velocities := replicate (num_joints_ s) zero;
             accelerations := [];
             time_from_start := zero |} ]
    | pts => pts
    end in
  with_points
    (<[0%nat := foldl (haltJoint s) (pts !!! 0%nat) (seq 0 (num_joints_ s))]> pts)
    joint_trajectory.

(** What a halted first point looks like: one zero velocity per joint
    of the group and the measured positions, for the channels that are
    published. *)
Definition halted (s : ServoCalcs) (pt : JointTrajectoryPoint) : Prop :=
  (publish_joint_velocities (parameters_ s) = true ->
   point_velocities pt = replicate (num_joints_ s) zero) /\
  (publish_joint_positions (parameters_ s) = true ->
   positions pt = position (original_joint_state_ s)).

(** The measured joint state has one position and one velocity per joint
    of the group, as the constructor sizes [internal_joint_state_]. *)
Definition jointsSized (s : ServoCalcs) : Prop :=
  length (position (original_joint_state_ s)) = num_joints_ s /\
  length (velocity (original_joint_state_ s)) = num_joints_ s.

(** The first point of a trajectory, when there is one, has one entry
    per joint in the channels that are published. *)
Definition firstPointSized (s : ServoCalcs) (joint_trajectory : JointTrajectory) : Prop :=
  match points joint_trajectory with
  | [] => True
  | point0 :: _ =>
      (publish_joint_velocities (parameters_ s) = true ->
       length (point_velocities point0) = num_joints_ s) /\
      (publish_joint_positions (parameters_ s) = true ->
       length (positions point0) = num_joints_ s)
  end.

(** ** Position limits *)

(** the position of the first joint of [original_joint_state_] named
    [joint_name], [0] when there is none *)
Definition original_joint_angle (s : ServoCalcs) (joint_name : string) : double :=
  match list_find (fun n => n = joint_name) (name (original_joint_state_ s)) with
  | Some (c, _) => position (original_joint_state_ s) !!! c
  | None => zero
  end.

(** whether one joint asks for a halt, in [enforceSRDFPositionLimits] *)
Definition joint_halts (s : ServoCalcs) (joint : JointModel) : bool :=
  let margin := joint_limit_margin (parameters_ s) in
  let joint_angle := original_joint_angle s (getName joint) in
  if negb (satisfiesPositionBounds (kinematic_state_ s) joint (- margin)) then
    match getVariableBoundsMsg joint with
    | [] => false
    | limits0 :: _ =>
        ((getJointVelocities0 joint (kinematic_state_ s) <? zero) &&
         (joint_angle <? (min_position limits0 + margin))) ||
        ((getJointVelocities0 joint (kinematic_state_ s) >? zero) &&
         (joint_angle >? (max_position limits0 - margin)))
    end
  else false.

(** [ServoCalcs::enforceSRDFPositionLimits] *)
Definition enforceSRDFPositionLimits (s : ServoCalcs) : bool :=
  let halting :=
    foldl (fun halting joint => if joint_halts s joint then true else halting)
      false (joint_model_group_ s) in
  negb halting.

(** [ServoCalcs::convertDeltasToOutgoingCmd] *)
Definition convertDeltasToOutgoingCmd (now : Time) (joint_trajectory : JointTrajectory)
    (s : ServoCalcs) : bool * JointTrajectory * ServoCalcs :=
  let p := parameters_ s in
  let s := set_internal_joint_state_ (original_joint_state_ s) s in
  let js := internal_joint_state_ s in
  let '(ok, position') := addJointIncrements (position js) (delta_theta_ s) in
  let s := set_internal_joint_state_
             {| name := name js; position := position'; velocity := velocity js |} s in
  if negb ok then (false, joint_trajectory, s)
  else
    let s := lowPassFilterPositions s in
    let s := set_internal_joint_state_
               (calculateJointVelocities (publish_period p) (internal_joint_state_ s)
                  (delta_theta_ s)) s in
    let joint_trajectory :=
      composeJointTrajMessage s now (internal_joint_state_ s) joint_trajectory in
    let '(joint_trajectory, s) :=
      if negb (enforceSRDFPositionLimits s)
      then (suddenHalt s joint_trajectory, set_status_ JOINT_BOUND s)
      else (joint_trajectory, s) in
    let joint_trajectory :=
      if use_gazebo p
      then insertRedundantPointsIntoTrajectory s joint_trajectory
             (gazebo_redundant_message_count_ s)
      else joint_trajectory in
    (true, joint_trajectory, s).

(** ** The transform of the command frame *)

(** [ServoCalcs::calculateCommandFrameTransform(planning_frame, command_frame)] *)
Definition calculateCommandFrameTransform (s : ServoCalcs)
    (planning_frame command_frame : string) : Isometry3d :=
  let root_link_frame := getRootLinkName in
  let frame_tf (frame : string) : option Isometry3d :=
    if knowsFrameTransform (kinematic_state_ s) frame
    then Some (getFrameTransform (kinematic_state_ s) frame)
    else lookupTransform frame root_link_frame in
  match frame_tf planning_frame with
  | None => indeterminate_isometry
  | Some planning_frame_tf =>
      match frame_tf command_frame with
      | None => indeterminate_isometry
      | Some command_frame_tf => iso_mul (iso_inverse planning_frame_tf) command_frame_tf
      end
  end.

(** ** The two servo calculations *)

Definition twist_components (t : Twist) : Vector :=
  [ x (twist_linear t); y (twist_linear t); z (twist_linear t);
    x (twist_angular t); y (twist_angular t); z (twist_angular t) ].

(** "Set uncontrolled dimensions to 0 in command frame" *)
Definition zeroUncontrolled (control_dimensions : list bool) (t : Twist) : Twist :=
  let keep (i : nat) (v : double) : double :=
    if negb (control_dimensions !!! i) then zero else v in
  {| twist_linear :=
       {| x := keep 0%nat (x (twist_linear t));
          y := keep 1%nat (y (twist_linear t));
          z := keep 2%nat (z (twist_linear t)) |};
     twist_angular :=
       {| x := keep 3%nat (x (twist_angular t));
          y := keep 4%nat (y (twist_angular t));
          z := keep 5%nat (z (twist_angular t)) |} |}.

(** the rotation of both halves of a twist by [rotation] *)
Definition rotateTwist (rotation : Matrix) (t : Twist) : Twist :=
  let translation_vector :=
    mat_vec_mul rotation [x (twist_linear t); y (twist_linear t); z (twist_linear t)] in
  let angular_vector :=
    mat_vec_mul rotation [x (twist_angular t); y (twist_angular t); z (twist_angular t)] in
  {| twist_linear :=
       {| x := translation_vector !!! 0%nat;
          y := translation_vector !!! 1%nat;
          z := translation_vector !!! 2%nat |};
     twist_angular :=
       {| x := angular_vector !!! 0%nat;
          y := angular_vector !!! 1%nat;
          z := angular_vector !!! 2%nat |} |}.

(** The rotation applied to a command that is not given in the planning
    frame: the cached transform when the frame of the command is empty
    or is the command frame, a fresh transform to that frame otherwise. *)
Definition commandRotation (s : ServoCalcs) (planning_frame command_frame : string)
    (cmd : TwistStamped) : Matrix :=
  if String.eqb (frame_id (twist_header cmd)) EmptyString ||
     String.eqb (frame_id (twist_header cmd)) command_frame
  then linear (tf_moveit_to_robot_cmd_frame_ s)
  else linear (calculateCommandFrameTransform s planning_frame
                 (frame_id (twist_header cmd))).

(** "Transform the command to the MoveGroup planning frame" *)
Definition transformToPlanningFrame (s : ServoCalcs) (planning_frame command_frame : string)
    (cmd : TwistStamped) : TwistStamped :=
  if negb (String.eqb (frame_id (twist_header cmd)) planning_frame) then
    {| twist_header :=
         {| stamp := stamp (twist_header cmd); frame_id := planning_frame |};
       twist := rotateTwist (commandRotation s planning_frame command_frame cmd) (twist cmd) |}
  else cmd.

(** The loop that removes the drifting dimensions, from the last row of
    the Jacobian down to row [0]. *)
Definition removeDriftDimensions (drift_dimensions : list bool) (jacobian : Matrix)
    (delta_x : Vector) : Matrix * Vector :=
  foldl
    (fun '(jacobian, delta_x) dimension =>
       if (drift_dimensions !!! dimension) && (1 <? length jacobian)%nat
       then removeDimension jacobian delta_x dimension
       else (jacobian, delta_x))
    (jacobian, delta_x)
    (reverse (seq 0 (length jacobian))).

(** [svd.matrixV() * matrix_s.inverse() * svd.matrixU().transpose()] *)
Definition pseudoInverse (svd : SVD) : Matrix :=
  let k := length (singularValues svd) in
  let matrix_s := asDiagonal (singularValues svd) in
  mat_mul (length (matrixU svd))
    (mat_mul k (matrixV svd) (inverse matrix_s))
    (transpose k (matrixU svd)).

(** The command of a Cartesian cycle once the uncontrolled dimensions are
    zeroed and the twist is expressed in the planning frame. *)
Definition commandInPlanningFrame (s : ServoCalcs) (planning_frame command_frame : string)
    : TwistStamped :=
  let cmd := twist_stamped_cmd_ s in
  let cmd :=
    {| twist_header := twist_header cmd;
       twist := zeroUncontrolled (control_dimensions_ s) (twist cmd) |} in
  transformToPlanningFrame s planning_frame command_frame cmd.

(** The Jacobian and the scaled command [delta_x] of a Cartesian cycle,
    after the drifting dimensions are removed. *)
Definition reducedProblem (s : ServoCalcs) (cmd : TwistStamped) : Matrix * Vector :=
  let delta_x := scaleCartesianCommand s cmd in
  let jacobian := getJacobian (kinematic_state_ s) (joint_model_group_ s) in
  removeDriftDimensions (drift_dimensions_ s) jacobian delta_x.

(** The tail shared by both servo calculations, once [delta_theta_] holds
    the limited and scaled increment. *)
Definition commitDeltas (now : Time) (joint_trajectory : JointTrajectory) (s : ServoCalcs)
    : bool * JointTrajectory * ServoCalcs :=
  let s := set_prev_joint_velocity_
             (div_scalar (delta_theta_ s) (publish_period (parameters_ s))) s in
  convertDeltasToOutgoingCmd now joint_trajectory s.

(** The middle of [cartesianServoCalcs], for a command that passed the
    tests: from the zeroing of the uncontrolled dimensions to the
    singularity scale, which is evaluated as the argument of
    [applyVelocityScaling]. *)
Definition cartesianSingularity (planning_frame command_frame : string) (s : ServoCalcs)
    : double * ServoCalcs :=
  let cmd := commandInPlanningFrame s planning_frame command_frame in
  let s := set_twist_stamped_cmd_ cmd s in
  let '(jacobian, delta_x) := reducedProblem s cmd in
  let svd := JacobiSVD jacobian in
  let pseudo_inverse := pseudoInverse svd in
  let s := set_delta_theta_ (mat_vec_mul pseudo_inverse delta_x) s in
  let s := set_delta_theta_ (enforceSRDFAccelVelLimits s (delta_theta_ s)) s in
  velocityScalingFactorForSingularity delta_x svd pseudo_inverse s.

(** [ServoCalcs::cartesianServoCalcs(twist_stamped_cmd_, joint_trajectory,
    planning_frame, command_frame)]; [cmd] is the member
    [twist_stamped_cmd_], passed by reference. *)
Definition cartesianServoCalcs (now : Time) (joint_trajectory : JointTrajectory)
    (planning_frame command_frame : string) (s : ServoCalcs)
    : bool * JointTrajectory * ServoCalcs :=
  let cmd := twist_stamped_cmd_ s in
  if existsb isnan (twist_components (twist cmd)) then (false, joint_trajectory, s)
  else if is_unitless s &&
          existsb (fun c => fabs c >? one) (twist_components (twist cmd))
  then (false, joint_trajectory, s)
  else
    let '(singularity_scale, s) := cartesianSingularity planning_frame command_frame s in
    let s := applyVelocityScaling singularity_scale s in
    commitDeltas now joint_trajectory s.

(** [ServoCalcs::jointServoCalcs(joint_servo_cmd_, joint_trajectory)] *)
Definition jointServoCalcs (now : Time) (joint_trajectory : JointTrajectory)
    (s : ServoCalcs) : bool * JointTrajectory * ServoCalcs :=
  let cmd := joint_servo_cmd_ s in
  if existsb isnan (velocities cmd) then (false, joint_trajectory, s)
  else
    let s := set_delta_theta_ (scaleJointCommand s cmd) s in
    let s := set_delta_theta_ (enforceSRDFAccelVelLimits s (delta_theta_ s)) s in
    let s := applyVelocityScaling one s in
    commitDeltas now joint_trajectory s.

(** ** The joint-state feed *)

(** The inner loop of the stop-time calculation: the acceleration limit
    after the search for [joint_name] among the active joints. *)
Definition lookupAccelLimit (group : JointModelGroup) (joint_name : string)
    (accel_limit : double) : double :=
  match list_find (fun joint_model => getName joint_model = joint_name) group with
  | Some (_, joint_model) =>
      let kinematic_bounds := getVariableBounds joint_model in
      if acceleration_bounded_ kinematic_bounds
      then min (fabs (min_acceleration_ kinematic_bounds))
               (fabs (max_acceleration_ kinematic_bounds))
      else accel_limit
  | None => accel_limit
  end.

(** "Calculate worst case joint stop time, for collision checking": the
    loop over the velocities of the joint-state message.  [accel_limit]
    and [worst_case_stop_time] are declared before the loop. *)
Definition worstCaseStopTime (group : JointModelGroup) (latest_joint_state : JointState)
    : double :=
  let accel_limit := zero in
  let worst_case_stop_time := zero in
  snd
    (foldl
       (fun '(accel_limit, worst_case_stop_time) jt_state_idx =>
          let joint_name := name latest_joint_state !!! jt_state_idx in
          let accel_limit := lookupAccelLimit group joint_name accel_limit in
          let joint_velocity := velocity latest_joint_state !!! jt_state_idx in
          (accel_limit, max worst_case_stop_time (fabs (joint_velocity / accel_limit))))
       (accel_limit, worst_case_stop_time)
       (seq 0 (length (velocity latest_joint_state)))).

(** [ServoCalcs::updateJoints]; the second component is the message sent
    on [worst_case_stop_time_pub_]. *)
Definition updateJoints (latest_joint_state : JointState) (s : ServoCalcs)
    : bool * option double * ServoCalcs :=
  if (length (name latest_joint_state) <? num_joints_ s)%nat then (false, None, s)
  else
    let internal := internal_joint_state_ s in
    let position' :=
      foldl
        (fun pos '(m, joint_name) =>
           match joint_state_name_map_ s !! joint_name with
           | None => pos  (* "Ignoring joint", continue *)
           | Some c => <[c := position latest_joint_state !!! m]> pos
           end)
        (position internal)
        (imap (fun m joint_name => (m, joint_name)) (name latest_joint_state)) in
    let s := set_internal_joint_state_
               {| name := name internal; position := position';
                  velocity := velocity internal |} s in
    let s := set_original_joint_state_ (internal_joint_state_ s) s in
    (true, Some (worstCaseStopTime (joint_model_group_ s) latest_joint_state), s).

(** The stop time as the specification words it, to be compared with
    [worstCaseStopTime]: the maximum over the joints of
    [|velocity_i / accel_limit_i|], where [accel_limit_i] is the
    conservative acceleration limit of joint [i]; a joint without
    acceleration bounds is skipped. *)
Definition worstCaseStopTime_spec (group : JointModelGroup) (latest_joint_state : JointState)
    : double :=
  foldl
    (fun worst_case_stop_time jt_state_idx =>
       let joint_name := name latest_joint_state !!! jt_state_idx in
       match list_find (fun joint_model => getName joint_model = joint_name) group with
       | Some (_, joint_model) =>
           let b := getVariableBounds joint_model in
           if acceleration_bounded_ b then
             let accel_limit := min (fabs (min_acceleration_ b)) (fabs (max_acceleration_ b)) in
             max worst_case_stop_time
               (fabs (velocity latest_joint_state !!! jt_state_idx / accel_limit))
           else worst_case_stop_time
       | None => worst_case_stop_time
       end)
    zero
    (seq 0 (length (velocity latest_joint_state))).

(** ** The control cycle *)

(** What one timer event reads from outside: the clock, and what the
    last poll of the wait for [updateJoints] has seen, that is the latest
    message of the joint-state subscriber and the answer of [ros::ok()].
    The polls before the last one found a message that [updateJoints]
    refused, with ROS running and no stop requested: they sleep and
    change nothing. *)
Record TickInput := {
  now : Time;
  latest_joint_state : JointState;
  ros_ok : bool
}.

(** What one timer event sends: the status (always), the worst-case stop
    time (when the joint-state message was accepted) and the outgoing
    command (when the cycle publishes one).  [polls_again] tells that the
    event is not over: the poll found a message that [updateJoints]
    refused, and the program sleeps before it polls again. *)
Record TickOutput := {
  status_msg : StatusCode;
  worst_case_stop_time_msg : option double;
  outgoing_cmd : option OutgoingCmd;
  polls_again : bool
}.

(** The copy of the latest commands, under [latest_state_mutex_]. *)
Definition snapshotLatest (t : Time) (s : ServoCalcs) : ServoCalcs :=
  let l := latest_ s in
  let timeout := incoming_command_timeout (parameters_ s) in
  let s := match latest_twist_stamped_ l with
           | Some msg => set_twist_stamped_cmd_ msg s
           | None => s
           end in
  let s := match latest_joint_cmd_ l with
           | Some msg => set_joint_servo_cmd_ msg s
           | None => s
           end in
  let s := set_twist_command_is_stale_
             (Qle_bool timeout (t - latest_twist_command_stamp_ l)%Q) s in
  let s := set_joint_command_is_stale_
             (Qle_bool timeout (t - latest_joint_command_stamp_ l)%Q) s in
  let s := set_have_nonzero_twist_stamped_ (latest_nonzero_twist_stamped_ l) s in
  let s := set_have_nonzero_joint_command_ (latest_nonzero_joint_cmd_ l) s in
  let s := set_planning_frame_ (latest_planning_frame_ l) s in
  set_robot_link_command_frame_ (latest_robot_link_command_frame_ l) s.

(** The loop of the idle branch of [run],
    [for (auto point : joint_trajectory->points)
       point.velocities.assign(point.velocities.size(), 0);]
    The loop variable is a copy of the element: the assignment changes
    the copy, and the copy is dropped at the end of each pass. *)
Definition zeroVelocitiesOfCopies (joint_trajectory : JointTrajectory) : JointTrajectory :=
  foldl
    (fun (trajectory : JointTrajectory) (element : JointTrajectoryPoint) =>
       let point := element in
       let point :=
         {| positions := positions point;
            point_velocities := replicate (length (point_velocities point)) zero;
            accelerations := accelerations point;
            time_from_start := time_from_start point |} in
       let _ := point in
       trajectory)
    joint_trajectory (points joint_trajectory).

(** The outgoing message of a cycle that publishes. *)
Definition outgoingMessage (s : ServoCalcs) (t : Time) (joint_trajectory : JointTrajectory)
    : option OutgoingCmd * JointTrajectory :=
  let p := parameters_ s in
  if String.eqb (command_out_type p) "trajectory_msgs/JointTrajectory" then
    let joint_trajectory :=
      {| traj_stamp := t; traj_joint_names := traj_joint_names joint_trajectory;
         points := points joint_trajectory |} in
    (Some (TrajectoryMsg joint_trajectory), joint_trajectory)
  else if String.eqb (command_out_type p) "std_msgs/Float64MultiArray" then
    let data :=
      match points joint_trajectory with
      | point0 :: _ =>
          if publish_joint_positions p then positions point0
          else if publish_joint_velocities p then point_velocities point0
          else []
      | [] => []
      end in
    (Some (Float64MultiArrayMsg data), joint_trajectory)
  else (None, joint_trajectory).

Definition INT_MAX : Z := 2147483647.

(** The second half of [run], from "If we should halt" on, for the
    trajectory the dispatch produced. *)
Definition finishCycle (t : Time) (joint_trajectory : JointTrajectory) (s : ServoCalcs)
    : option OutgoingCmd * ServoCalcs :=
  let p := parameters_ s in
  let '(joint_trajectory, s) :=
    if negb (have_nonzero_command_ s) then
      (suddenHalt s joint_trajectory,
       set_have_nonzero_joint_command_ false (set_have_nonzero_twist_stamped_ false s))
    else (joint_trajectory, s) in
  let s :=
    if negb (have_nonzero_command_ s) &&
       negb (num_outgoing_halt_msgs_to_publish p =? 0)%Z &&
       (num_outgoing_halt_msgs_to_publish p <? zero_velocity_count_ s)%Z
    then set_ok_to_publish_ false s
    else set_ok_to_publish_ true s in
  let s :=
    if negb (have_nonzero_command_ s) then
      if (zero_velocity_count_ s <? INT_MAX)%Z
      then set_zero_velocity_count_ (zero_velocity_count_ s + 1)%Z s
      else s
    else set_zero_velocity_count_ 0%Z s in
  let '(out, s) :=
    if ok_to_publish_ s then
      let '(out, joint_trajectory) := outgoingMessage s t joint_trajectory in
      (out, set_last_sent_command_ joint_trajectory s)
    else (None, s) in
  let s := if negb (updated_filters_ s)
           then resetLowPassFilters (original_joint_state_ s) s
           else s in
  (out, s).

(** The dispatch of [run]: the Cartesian calculation, the joint
    calculation, or the last sent command; [None] when the selected
    calculation returns [false]. *)
Definition dispatch (t : Time) (s : ServoCalcs) : option JointTrajectory * ServoCalcs :=
  let joint_trajectory :=
    {| traj_stamp := 0%Q; traj_joint_names := []; points := [] |} in
  if have_nonzero_twist_stamped_ s && negb (twist_command_is_stale_ s) then
    let '(ok, joint_trajectory, s) :=
      cartesianServoCalcs t joint_trajectory (planning_frame_ s)
        (robot_link_command_frame_ s) s in
    if negb ok then (None, resetLowPassFilters (original_joint_state_ s) s)
    else (Some joint_trajectory, s)
  else if have_nonzero_joint_command_ s && negb (joint_command_is_stale_ s) then
    let '(ok, joint_trajectory, s) := jointServoCalcs t joint_trajectory s in
    if negb ok then (None, resetLowPassFilters (original_joint_state_ s) s)
    else (Some joint_trajectory, s)
  else
    let joint_trajectory := last_sent_command_ s in
    (Some (zeroVelocitiesOfCopies joint_trajectory), s).

(** The first half of [run] after the joints are updated: the kinematic
    state and the working copies of the commands are refreshed, the
    command-frame transform is cached and [updated_filters_] is cleared. *)
Definition prepareCycle (input : TickInput) (s : ServoCalcs) : ServoCalcs :=
  let s := set_kinematic_state_
             (setVariableValues (latest_joint_state input) (kinematic_state_ s)) s in
  let s := snapshotLatest (now input) s in
  let s := set_tf_moveit_to_robot_cmd_frame_
             (calculateCommandFrameTransform s (planning_frame_ s)
                (robot_link_command_frame_ s)) s in
  let s := set_have_nonzero_command_
             (have_nonzero_twist_stamped_ s || have_nonzero_joint_command_ s) s in
  set_updated_filters_ false s.

(** [ServoCalcs::run], one timer event, from the status message on, for
    one poll of
    [while (!updateJoints() && ros::ok()) { if (stop_requested_) return; sleep }].
    A refused message with ROS running enters the body of the loop: with
    a stop requested the event returns there, with nothing sent but the
    status; without one the program sleeps and polls again, the servo
    being as it was.  A refused message with [ros::ok()] false leaves
    the loop, and the cycle goes on with the joints as they were.  An
    event is described by its last poll: the polls before it change
    nothing. *)
Definition run (input : TickInput) (s : ServoCalcs) : TickOutput * ServoCalcs :=
  let status := status_ s in
  let '(ok, worst, s) := updateJoints (latest_joint_state input) s in
  if negb ok && ros_ok input then
    ({| status_msg := status; worst_case_stop_time_msg := None; outgoing_cmd := None;
        polls_again := negb (stop_requested_ s) |}, s)
  else
    let silent := {| status_msg := status; worst_case_stop_time_msg := worst;
                     outgoing_cmd := None; polls_again := false |} in
    let s := prepareCycle input s in
    if wait_for_servo_commands_ s || paused_ s then
      let s := resetLowPassFilters (original_joint_state_ s) s in
      let s := set_wait_for_servo_commands_
                 (Qeq_bool (stamp (twist_header (twist_stamped_cmd_ s))) 0 &&
                  Qeq_bool (stamp (jog_header (joint_servo_cmd_ s))) 0) s in
      (silent, s)
    else
      match dispatch (now input) s with
      | (None, s) => (silent, s)
      | (Some joint_trajectory, s) =>
          let '(out, s) := finishCycle (now input) joint_trajectory s in
          ({| status_msg := status; worst_case_stop_time_msg := worst;
              outgoing_cmd := out; polls_again := false |}, s)
      end.

(** ** Callbacks and services, run between two timer events *)

Definition with_twist (msg : TwistStamped) (l : LatestState) : LatestState :=
  {| latest_twist_stamped_ := Some msg;
     latest_joint_cmd_ := latest_joint_cmd_ l;
     latest_twist_command_stamp_ :=
       if negb (Qeq_bool (stamp (twist_header msg)) 0)
       then stamp (twist_header msg) else latest_twist_command_stamp_ l;
     latest_joint_command_stamp_ := latest_joint_command_stamp_ l;
     latest_nonzero_twist_stamped_ := isNonZero_twist msg;
     latest_nonzero_joint_cmd_ := latest_nonzero_joint_cmd_ l;
     latest_planning_frame_ := latest_planning_frame_ l;
     latest_robot_link_command_frame_ := latest_robot_link_command_frame_ l |}.

Definition with_jog (msg : JointJog) (l : LatestState) : LatestState :=
  {| latest_twist_stamped_ := latest_twist_stamped_ l;
     latest_joint_cmd_ := Some msg;
     latest_twist_command_stamp_ := latest_twist_command_stamp_ l;
     latest_joint_command_stamp_ :=
       if negb (Qeq_bool (stamp (jog_header msg)) 0)
       then stamp (jog_header msg) else latest_joint_command_stamp_ l;
     latest_nonzero_twist_stamped_ := latest_nonzero_twist_stamped_ l;
     latest_nonzero_joint_cmd_ := isNonZero_jog msg;
     latest_planning_frame_ := latest_planning_frame_ l;
     latest_robot_link_command_frame_ := latest_robot_link_command_frame_ l |}.

(** [ServoCalcs::twistStampedCB] *)
Definition twistStampedCB (msg : TwistStamped) (s : ServoCalcs) : ServoCalcs :=
  set_latest_ (with_twist msg (latest_ s)) s.

(** [ServoCalcs::jointCmdCB] *)
Definition jointCmdCB (msg : JointJog) (s : ServoCalcs) : ServoCalcs :=
  set_latest_ (with_jog msg (latest_ s)) s.

(** [ServoCalcs::collisionVelocityScaleCB] *)
Definition collisionVelocityScaleCB (data : double) (s : ServoCalcs) : ServoCalcs :=
  set_collision_velocity_scale_ data s.

(** [ServoCalcs::changeDriftDimensions] *)
Definition changeDriftDimensions (req : list bool) (s : ServoCalcs) : ServoCalcs :=
  set_drift_dimensions_ (resize 6 false req) s.

(** [ServoCalcs::changeControlDimensions] *)
Definition changeControlDimensions (req : list bool) (s : ServoCalcs) : ServoCalcs :=
  set_control_dimensions_ (resize 6 false req) s.

(** [ServoCalcs::resetServoStatus] *)
Definition resetServoStatus (s : ServoCalcs) : ServoCalcs :=
  set_status_ NO_WARNING s.

(** [ServoCalcs::setPaused] *)
Definition setPaused (paused : bool) (s : ServoCalcs) : ServoCalcs :=
  set_paused_ paused s.

Definition with_planning_frame (data : string) (l : LatestState) : LatestState :=
  {| latest_twist_stamped_ := latest_twist_stamped_ l;
     latest_joint_cmd_ := latest_joint_cmd_ l;
     latest_twist_command_stamp_ := latest_twist_command_stamp_ l;
     latest_joint_command_stamp_ := latest_joint_command_stamp_ l;
     latest_nonzero_twist_stamped_ := latest_nonzero_twist_stamped_ l;
     latest_nonzero_joint_cmd_ := latest_nonzero_joint_cmd_ l;
     latest_planning_frame_ := data;
     latest_robot_link_command_frame_ := latest_robot_link_command_frame_ l |}.

Definition with_command_frame (data : string) (l : LatestState) : LatestState :=
  {| latest_twist_stamped_ := latest_twist_stamped_ l;
     latest_joint_cmd_ := latest_joint_cmd_ l;
     latest_twist_command_stamp_ := latest_twist_command_stamp_ l;
     latest_joint_command_stamp_ := latest_joint_command_stamp_ l;
     latest_nonzero_twist_stamped_ := latest_nonzero_twist_stamped_ l;
     latest_nonzero_joint_cmd_ := latest_nonzero_joint_cmd_ l;
     latest_planning_frame_ := latest_planning_frame_ l;
     latest_robot_link_command_frame_ := data |}.

(** [ServoCalcs::planningFrameCB] *)
Definition planningFrameCB (data : string) (s : ServoCalcs) : ServoCalcs :=
  set_latest_ (with_planning_frame data (latest_ s)) s.

(** [ServoCalcs::robotLinkCommandFrameCB] *)
Definition robotLinkCommandFrameCB (data : string) (s : ServoCalcs) : ServoCalcs :=
  set_latest_ (with_command_frame data (latest_ s)) s.

(** ** What happens to the servo, one event at a time

    A timer event, a message on one of the subscribed topics, or a call
    of a service; the events are serialized as the mutex and the single
    control thread serialize them. *)
Inductive Event :=
| TimerEvent (input : TickInput)
| TwistStampedMsg (msg : TwistStamped)
| JointJogMsg (msg : JointJog)
| CollisionVelocityScaleMsg (data : double)
| PlanningFrameMsg (data : string)
| RobotLinkCommandFrameMsg (data : string)
| ChangeDriftDimensions (req : list bool)
| ChangeControlDimensions (req : list bool)
| ResetServoStatus
| SetPaused (paused : bool).

Definition handle (e : Event) (s : ServoCalcs) : ServoCalcs :=
  match e with
  | TimerEvent input => snd (run input s)
  | TwistStampedMsg msg => twistStampedCB msg s
  | JointJogMsg msg => jointCmdCB msg s
  | CollisionVelocityScaleMsg data => collisionVelocityScaleCB data s
  | PlanningFrameMsg data => planningFrameCB data s
  | RobotLinkCommandFrameMsg data => robotLinkCommandFrameCB data s
  | ChangeDriftDimensions req => changeDriftDimensions req s
  | ChangeControlDimensions req => changeControlDimensions req s
  | ResetServoStatus => resetServoStatus s
  | SetPaused paused => setPaused paused s
  end.

(** ** Construction *)

(** [ServoCalcs::ServoCalcs]: the members assigned by the constructor.
    [defaults] holds the members as their in-class initializers leave
    them; [kinematic_model_defaults] is the robot state after
    [setToDefaultValues()], and [latest_joints] the message of the
    joint-state subscriber at construction. *)
Definition ServoCalcs_new (defaults : ServoCalcs) (parameters : ServoParameters)
    (kinematic_model_defaults : RobotState) (group : JointModelGroup)
    (latest_joints : JointState) (t : Time) : ServoCalcs :=
  let names := map getName group in
  let num_joints := length names in
  let point :=
    {| time_from_start := publish_period parameters;
       positions := if publish_joint_positions parameters then position latest_joints else [];
       point_velocities :=
         if publish_joint_velocities parameters then replicate num_joints zero else [];
       accelerations :=
         if publish_joint_accelerations parameters then replicate num_joints zero else [] |} in
  let initial_joint_trajectory :=
    {| traj_stamp := t; traj_joint_names := names; points := [point] |} in
  let l := latest_ defaults in
  Build_ServoCalcs
    parameters
    group
    num_joints
    (foldl (fun m '(i, n) => <[n := i]> m) ∅ (imap (fun i n => (i, n)) names))
    (gazebo_redundant_message_count_ defaults)
    kinematic_model_defaults
    {| name := names; position := replicate num_joints zero;
       velocity := replicate num_joints zero |}
    (original_joint_state_ defaults)
    (replicate num_joints (LowPassFilter_new (low_pass_filter_coeff parameters)))
    (updated_filters_ defaults)
    initial_joint_trajectory
    (status_ defaults)
    (delta_theta_ defaults)
    (Zero (length group))
    (collision_velocity_scale_ defaults)
    (control_dimensions_ defaults)
    (drift_dimensions_ defaults)
    (paused_ defaults)
    (wait_for_servo_commands_ defaults)
    (zero_velocity_count_ defaults)
    (ok_to_publish_ defaults)
    (stop_requested_ defaults)
    (twist_stamped_cmd_ defaults)
    (joint_servo_cmd_ defaults)
    (twist_command_is_stale_ defaults)
    (joint_command_is_stale_ defaults)
    (have_nonzero_twist_stamped_ defaults)
    (have_nonzero_joint_command_ defaults)
    (have_nonzero_command_ defaults)
    (planning_frame_ defaults)
    (robot_link_command_frame_ defaults)
    (tf_moveit_to_robot_cmd_frame_ defaults)
    {| latest_twist_stamped_ := latest_twist_stamped_ l;
       latest_joint_cmd_ := latest_joint_cmd_ l;
       latest_twist_command_stamp_ := latest_twist_command_stamp_ l;
       latest_joint_command_stamp_ := latest_joint_command_stamp_ l;
       latest_nonzero_twist_stamped_ := latest_nonzero_twist_stamped_ l;
       latest_nonzero_joint_cmd_ := latest_nonzero_joint_cmd_ l;
       latest_planning_frame_ := planning_frame parameters;
       latest_robot_link_command_frame_ := robot_link_command_frame parameters |}.


(** ** The cases of a cycle *)

(** The state a cycle works on once [updateJoints] has accepted the
    joint-state message and the commands are copied. *)
Definition cycleStart (input : TickInput) (s : ServoCalcs) : ServoCalcs :=
  prepareCycle input (snd (updateJoints (latest_joint_state input) s)).

(** [updateJoints] accepts the message: it names enough joints. *)
Definition accepted (input : TickInput) (s : ServoCalcs) : Prop :=
  (num_joints_ s <= length (name (latest_joint_state input)))%nat.

(** The dispatch selects the Cartesian calculation, or the joint one. *)
Definition cartesianSelected (s : ServoCalcs) : bool :=
  have_nonzero_twist_stamped_ s && negb (twist_command_is_stale_ s).

Definition jointSelected (s : ServoCalcs) : bool :=
  negb (cartesianSelected s) &&
  (have_nonzero_joint_command_ s && negb (joint_command_is_stale_ s)).

(** The cycles that produce no trajectory point from a live command, for
    the state [b] at the start of the cycle: paused, waiting for the
    first command, a rejected or failed calculation, or no fresh non-zero
    command on either stream. *)
Inductive NoLivePoint (t : Time) (b : ServoCalcs) : Prop :=
| paused_cycle :
    paused_ b = true -> NoLivePoint t b
| waiting_cycle :
    wait_for_servo_commands_ b = true -> NoLivePoint t b
| twist_with_nan :
    cartesianSelected b = true ->
    existsb isnan (twist_components (twist (twist_stamped_cmd_ b))) = true ->
    NoLivePoint t b
| twist_out_of_range :
    cartesianSelected b = true ->
    is_unitless b = true ->
    existsb (fun c => fabs c >? one) (twist_components (twist (twist_stamped_cmd_ b))) = true ->
    NoLivePoint t b
| jog_with_nan :
    jointSelected b = true ->
    existsb isnan (velocities (joint_servo_cmd_ b)) = true ->
    NoLivePoint t b
| cartesian_failed :
    cartesianSelected b = true ->
    fst (fst (cartesianServoCalcs t
                {| traj_stamp := 0%Q; traj_joint_names := []; points := [] |}
                (planning_frame_ b) (robot_link_command_frame_ b) b)) = false ->
    NoLivePoint t b
| joint_failed :
    jointSelected b = true ->
    fst (fst (jointServoCalcs t
                {| traj_stamp := 0%Q; traj_joint_names := []; points := [] |} b)) = false ->
    NoLivePoint t b
| both_zero_or_stale :
    cartesianSelected b = false -> jointSelected b = false -> NoLivePoint t b.

(** Modelled from the spec: the class [LowPassFilter] is defined in
    [low_pass_filter.cpp], which is not among the sources.  "Reset sets
    the filter's internal history to a given seed value so the next output
    equals the seed": a filter that was reset to a seed and is then given
    the seed as its next input returns the seed. *)
Definition reset_holds_seed (f : LowPassFilter) : Prop :=
  forall seed : double, finite seed -> fst (filter (reset f seed) seed) ≃ seed.

(** The reduced Jacobian and command of the Cartesian cycle that starts
    in state [s], and the pseudo-inverse computed from them. *)
Definition cartesianProblem (s : ServoCalcs) (planning_frame command_frame : string)
    : Matrix * Vector :=
  let cmd := commandInPlanningFrame s planning_frame command_frame in
  reducedProblem (set_twist_stamped_cmd_ cmd s) cmd.

Definition cartesianPseudoInverse (s : ServoCalcs) (planning_frame command_frame : string)
    : Matrix :=
  pseudoInverse (JacobiSVD (fst (cartesianProblem s planning_frame command_frame))).

(** every entry of a matrix is finite *)
Definition finite_matrix (m : Matrix) : Prop := Forall (Forall finite) m.

(** ** Velocity bounds *)

(** The velocity [v] is within the velocity bounds of [joint], when the
    joint has velocity bounds. *)
Definition within_velocity_bounds (joint : JointModel) (v : double) : Prop :=
  velocity_bounded_ (getVariableBounds joint) = true ->
  (min_velocity_ (getVariableBounds joint) <=? v) = true /\
  (v <=? max_velocity_ (getVariableBounds joint)) = true.

(** Every component of [vs] is within the bounds of the joint of its
    index. *)
Definition velocities_within (group : JointModelGroup) (vs : Vector) : Prop :=
  forall i v joint,
    vs !! i = Some v -> group !! i = Some joint -> within_velocity_bounds joint v.

(** Every point of a trajectory has its velocities within the bounds. *)
Definition trajectory_within (group : JointModelGroup) (t : JointTrajectory) : Prop :=
  Forall (fun pt => velocities_within group (point_velocities pt)) (points t).

(** The velocity bounds of a joint have zero between them:
    [v_min <= 0 <= v_max]. *)
Definition straddles_zero (joint : JointModel) : Prop :=
  velocity_bounded_ (getVariableBounds joint) = true ->
  (min_velocity_ (getVariableBounds joint) <=? zero) = true /\
  (zero <=? max_velocity_ (getVariableBounds joint)) = true.

(** [x] is a number between zero and one. *)
Definition unit_interval (x : double) : Prop :=
  (zero <=? x) = true /\ (x <=? one) = true.

(** [x] is a positive number. *)
Definition positive (x : double) : Prop := finite x /\ (zero <? x) = true.



(** The configuration the velocity bounds rely on: a positive period,
    finite singularity thresholds, and velocity bounds with zero between
    them. *)
Definition Configured (s : ServoCalcs) : Prop :=
  positive (publish_period (parameters_ s)) /\
  finite (lower_singularity_threshold (parameters_ s)) /\
  finite (hard_stop_singularity_threshold (parameters_ s)) /\
  Forall straddles_zero (joint_model_group_ s).

(** The velocities the servo holds are within the bounds: those of its
    two joint states and those of the last sent command. *)
Definition VelocitiesKept (s : ServoCalcs) : Prop :=
  velocities_within (joint_model_group_ s) (velocity (internal_joint_state_ s)) /\
  velocities_within (joint_model_group_ s) (velocity (original_joint_state_ s)) /\
  trajectory_within (joint_model_group_ s) (last_sent_command_ s).

(** The velocities of an outgoing message are within the bounds: those
    of every point of a trajectory message, or the data of an array
    message that carries velocities. *)
Definition published_within (p : ServoParameters) (group : JointModelGroup)
    (out : option OutgoingCmd) : Prop :=
  match out with
  | Some (TrajectoryMsg joint_trajectory) => trajectory_within group joint_trajectory
  | Some (Float64MultiArrayMsg data) =>
      publish_joint_positions p = false -> velocities_within group data
  | None => True
  end.


(** Decision procedures for the velocity bounds, for lists of the same
    length as the group. *)
Definition within_velocity_boundsb (joint : JointModel) (v : double) : bool :=
  negb (velocity_bounded_ (getVariableBounds joint)) ||
  ((min_velocity_ (getVariableBounds joint) <=? v) &&
   (v <=? max_velocity_ (getVariableBounds joint))).

Fixpoint velocities_withinb (group : JointModelGroup) (vs : Vector) : bool :=
  match group, vs with
  | joint :: group, v :: vs => within_velocity_boundsb joint v && velocities_withinb group vs
  | _, _ => true
  end.

Definition trajectory_withinb (group : JointModelGroup) (t : JointTrajectory) : bool :=
  forallb (fun pt => velocities_withinb group (point_velocities pt)) (points t).

Definition published_withinb (p : ServoParameters) (group : JointModelGroup)
    (out : option OutgoingCmd) : bool :=
  match out with
  | Some (TrajectoryMsg joint_trajectory) => trajectory_withinb group joint_trajectory
  | Some (Float64MultiArrayMsg data) =>
      publish_joint_positions p || velocities_withinb group data
  | None => true
  end.

Definition VelocitiesKeptb (s : ServoCalcs) : bool :=
  velocities_withinb (joint_model_group_ s) (velocity (internal_joint_state_ s)) &&
  velocities_withinb (joint_model_group_ s) (velocity (original_joint_state_ s)) &&
  trajectory_withinb (joint_model_group_ s) (last_sent_command_ s).

Definition Configuredb (s : ServoCalcs) : bool :=
  match publish_period (parameters_ s), lower_singularity_threshold (parameters_ s),
        hard_stop_singularity_threshold (parameters_ s) with
  | Fin p, Fin _, Fin _ =>
      (zero <? Fin p) && forallb (fun joint => within_velocity_boundsb joint zero)
                                 (joint_model_group_ s)
  | _, _, _ => false
  end.

(** ** The status *)

(** From [s] to [s'] the status is kept, or set to a warning. *)
Definition statusKeptOrRaised (s s' : ServoCalcs) : Prop :=
  status_ s' = status_ s \/ status_ s' <> NO_WARNING.

(** ** The outgoing builder within a cycle *)

(** The servo on which the selected servo calculation calls
    [convertDeltasToOutgoingCmd], for the state [b] at the start of the
    cycle: the increment is limited and scaled and [prev_joint_velocity_]
    is stored.  [None] when no calculation is selected or the selected
    one rejects its command. *)
Definition builderState (b : ServoCalcs) : option ServoCalcs :=
  let stored (s : ServoCalcs) : ServoCalcs :=
    set_prev_joint_velocity_
      (div_scalar (delta_theta_ s) (publish_period (parameters_ s))) s in
  if cartesianSelected b then
    if existsb isnan (twist_components (twist (twist_stamped_cmd_ b))) then None
    else if is_unitless b &&
            existsb (fun c => fabs c >? one)
              (twist_components (twist (twist_stamped_cmd_ b)))
    then None
    else
      let '(singularity_scale, s) :=
        cartesianSingularity (planning_frame_ b) (robot_link_command_frame_ b) b in
      Some (stored (applyVelocityScaling singularity_scale s))
  else if jointSelected b then
    if existsb isnan (velocities (joint_servo_cmd_ b)) then None
    else
      let s := set_delta_theta_ (scaleJointCommand b (joint_servo_cmd_ b)) b in
      let s := set_delta_theta_ (enforceSRDFAccelVelLimits s (delta_theta_ s)) s in
      Some (stored (applyVelocityScaling one s))
  else None.
End State.

(** * A small robot to run the model on

    Two joints [j1] and [j2].  The Jacobian has six rows and two columns:
    its first two rows are the diagonal matrix of [1] and the position of
    [j2], the others are zero.  Eigen's decomposition and inverse are
    given for the matrices this robot produces once the four zero rows
    are dropped as drift dimensions: diagonal, with a decreasing positive
    diagonal. *)
Module Bench.

(** A first-order low-pass filter with unit gain at rest:
    [y = (x + x1 - (1 - c) * y1) / (1 + c)]. *)
Record Filter := {
  previous_measurement : double;
  previous_filtered_measurement : double;
  coeff : double
}.

Definition Filter_new (c : double) : Filter :=
  {| previous_measurement := zero; previous_filtered_measurement := zero; coeff := c |}.

Definition Filter_filter (f : Filter) (new_measurement : double) : double * Filter :=
  let new_filtered :=
    (new_measurement + previous_measurement f
     - (one - coeff f) * previous_filtered_measurement f) / (one + coeff f) in
  (new_filtered,
   {| previous_measurement := new_measurement;
      previous_filtered_measurement := new_filtered;
      coeff := coeff f |}).

Definition Filter_reset (f : Filter) (data : double) : Filter :=
  {| previous_measurement := data; previous_filtered_measurement := data;
     coeff := coeff f |}.

Definition identity (rows cols : nat) : Matrix :=
  map (fun i => <[i := one]> (replicate cols zero)) (seq 0 rows).

(** the diagonal of a matrix: as many entries as the smaller of its two
    dimensions *)
Definition diagonal (m : Matrix) : Vector :=
  imap (fun i row => row !!! i) (take (length (m !!! 0%nat)) m).

Definition identity_isometry : Isometry3d :=
  {| linear := identity 3 3; translation := replicate 3 zero |}.

Definition position_of (st : RobotState) (n : string) : double :=
  default zero (variable_positions st !! n).

#[export] Instance collaborators : Collaborators := {|
  LowPassFilter := Filter;
  LowPassFilter_new := Filter_new;
  filter := Filter_filter;
  reset := Filter_reset;
  getJacobian st group :=
    [ [one; zero]; [zero; position_of st "j2"];
      [zero; zero]; [zero; zero]; [zero; zero]; [zero; zero] ];
  satisfiesPositionBounds st joint margin :=
    let b := getVariableBounds joint in
    let v := position_of st (getName joint) in
    negb ((v <? min_position_ b - margin) || (v >? max_position_ b + margin));
  knowsFrameTransform st frame := true;
  getFrameTransform st frame := identity_isometry;
  getRootLinkName := "base";
  lookupTransform target source := None;
  JacobiSVD m :=
    {| singularValues := diagonal m;
       matrixU := identity (length m) (length (diagonal m));
       matrixV := identity (length (diagonal m)) (length (diagonal m)) |};
  inverse m := imap (fun i row => <[i := one / row !!! i]> (replicate (length row) zero)) m;
  indeterminate_isometry := identity_isometry;
  indeterminate_vector n := replicate n zero
|}.

Definition bounds (lo hi vmax amax : Q) : VariableBounds :=
  {| min_position_ := Fin lo; max_position_ := Fin hi; position_bounded_ := true;
     min_velocity_ := Fin (- vmax); max_velocity_ := Fin vmax; velocity_bounded_ := true;
     min_acceleration_ := Fin (- amax); max_acceleration_ := Fin amax;
     acceleration_bounded_ := true |}.

Definition j1 : JointModel := {| getName := "j1"; getVariableBounds := bounds (-3) 3 2 10 |}.
Definition j2 : JointModel := {| getName := "j2"; getVariableBounds := bounds (-3) 3 2 10 |}.

Definition parameters : ServoParameters :=
  {| publish_period := Fin (1 # 100);
     command_in_type := "speed_units";
     command_out_type := "trajectory_msgs/JointTrajectory";
     linear_scale := Fin (3 # 10);
     rotational_scale := Fin (8 # 10);
     joint_scale := Fin (1 # 2);
     low_pass_filter_coeff := Fin 2;
     lower_singularity_threshold := Fin 17;
     hard_stop_singularity_threshold := Fin 30;
     joint_limit_margin := Fin (1 # 10);
     incoming_command_timeout := (1 # 10)%Q;
     num_outgoing_halt_msgs_to_publish := 4;
     use_gazebo := false;
     publish_joint_positions := true;
     publish_joint_velocities := true;
     publish_joint_accelerations := false;
     planning_frame := "base";
     robot_link_command_frame := "tool" |}.

Definition zero_twist : TwistStamped :=
  {| twist_header := {| stamp := 0%Q; frame_id := "base" |};
     twist := {| twist_linear := {| x := zero; y := zero; z := zero |};
                 twist_angular := {| x := zero; y := zero; z := zero |} |} |}.

Definition empty_jog : JointJog :=
  {| jog_header := {| stamp := 0%Q; frame_id := "base" |};
     joint_names := []; velocities := [] |}.

(** the members as the in-class initializers of [servo_calcs.h] leave
    them: no warning, not paused, waiting for a first command, every
    dimension controlled, none drifting, collision scale [1] *)
Definition defaults : ServoCalcs :=
  {| parameters_ := parameters;
     joint_model_group_ := [];
     num_joints_ := 0;
     joint_state_name_map_ := ∅;
     gazebo_redundant_message_count_ := 30;
     kinematic_state_ := {| variable_positions := ∅; variable_velocities := ∅ |};
     internal_joint_state_ := {| name := []; position := []; velocity := [] |};
     original_joint_state_ := {| name := []; position := []; velocity := [] |};
     position_filters_ := [];
     updated_filters_ := false;
     last_sent_command_ := {| traj_stamp := 0%Q; traj_joint_names := []; points := [] |};
     status_ := NO_WARNING;
     delta_theta_ := [];
     prev_joint_velocity_ := [];
     collision_velocity_scale_ := one;
     control_dimensions_ := [true; true; true; true; true; true];
     drift_dimensions_ := [false; false; false; false; false; false];
     paused_ := false;
     wait_for_servo_commands_ := true;
     zero_velocity_count_ := 0;
     ok_to_publish_ := false;
     stop_requested_ := false;
     twist_stamped_cmd_ := zero_twist;
     joint_servo_cmd_ := empty_jog;
     twist_command_is_stale_ := false;
     joint_command_is_stale_ := false;
     have_nonzero_twist_stamped_ := false;
     have_nonzero_joint_command_ := false;
     have_nonzero_command_ := false;
     planning_frame_ := "base";
     robot_link_command_frame_ := "tool";
     tf_moveit_to_robot_cmd_frame_ := identity_isometry;
     latest_ := {| latest_twist_stamped_ := None;
                   latest_joint_cmd_ := None;
                   latest_twist_command_stamp_ := 0%Q;
                   latest_joint_command_stamp_ := 0%Q;
                   latest_nonzero_twist_stamped_ := false;
                   latest_nonzero_joint_cmd_ := false;
                   latest_planning_frame_ := "base";
                   latest_robot_link_command_frame_ := "tool" |} |}.

Definition joints_at (p1 p2 v1 v2 : Q) : JointState :=
  {| name := ["j1"; "j2"]; position := [Fin p1; Fin p2]; velocity := [Fin v1; Fin v2] |}.

(** the servo as constructed for the two joints, measured at rest at
    positions [0] and [1] *)
Definition servo0 : ServoCalcs :=
  ServoCalcs_new defaults parameters
    {| variable_positions := ∅; variable_velocities := ∅ |}
    [j1; j2] (joints_at 0 1 0 0) 0%Q.

(** the servo with the last four task dimensions drifting, so that the
    Jacobian in use is the two-by-two diagonal matrix *)
Definition planar : ServoCalcs :=
  changeDriftDimensions [false; false; true; true; true; true] servo0.

(** the kinematic state with [j1] at [p1] and [j2] at [p2], at rest *)
Definition state_at (p1 p2 : Q) : RobotState :=
  setVariableValues (joints_at p1 p2 0 0)
    {| variable_positions := ∅; variable_velocities := ∅ |}.

(** the planar servo with the joints at [p1] and [p2] *)
Definition planar_at (p1 p2 : Q) : ServoCalcs :=
  set_kinematic_state_ (state_at p1 p2) planar.

(** the decomposition of the planar Jacobian with the joints at [p1], [p2] *)
Definition planar_svd (p1 p2 : Q) : SVD :=
  JacobiSVD (take 2 (getJacobian (state_at p1 p2) [j1; j2])).

(** a joint without acceleration bounds *)
Definition j3 : JointModel :=
  {| getName := "j3";
     getVariableBounds :=
       {| min_position_ := Fin (-3); max_position_ := Fin 3; position_bounded_ := true;
          min_velocity_ := Fin (-2); max_velocity_ := Fin 2; velocity_bounded_ := true;
          min_acceleration_ := zero; max_acceleration_ := zero;
          acceleration_bounded_ := false |} |}.

(** a joint-state message for [j1] and [j3], moving at [1] and [4] *)
Definition moving_j1_j3 : JointState :=
  {| name := ["j1"; "j3"]; position := [zero; zero]; velocity := [Fin 1; Fin 4] |}.

(** a twist along the first two task dimensions, stamped at [t] *)
Definition planar_twist (t : Q) (a b : Q) : TwistStamped :=
  {| twist_header := {| stamp := t; frame_id := "base" |};
     twist := {| twist_linear := {| x := Fin a; y := Fin b; z := zero |};
                 twist_angular := {| x := zero; y := zero; z := zero |} |} |}.

Definition tick (t : Q) (js : JointState) : TickInput :=
  {| now := t; latest_joint_state := js; ros_ok := true |}.

(** A twist of [1] and [1] received at time [1]; the event at time [1]
    ends the wait for a first command, the event at [1.01] servoes.  By
    time [2] the command is stale; its non-zero flag is still set. *)
Definition after_first_command : ServoCalcs :=
  snd (run (tick 1 (joints_at 0 1 0 0)) (twistStampedCB (planar_twist 1 1 1) planar)).

Definition after_servoing : ServoCalcs :=
  snd (run (tick (101 # 100) (joints_at 0 1 0 0)) after_first_command).

(** the state a cycle works on once the joints are updated and the
    commands copied *)
Definition cycle_start (input : TickInput) (s : ServoCalcs) : ServoCalcs :=
  prepareCycle input (snd (updateJoints (latest_joint_state input) s)).

(** the cycle at time [2], with the twist of time [1] gone stale *)
Definition stale_start : ServoCalcs :=
  cycle_start (tick 2 (joints_at 0 1 0 0)) after_servoing.

(** a jog of [j1] at velocity [v], stamped at [t] *)
Definition jog_j1 (t v : Q) : JointJog :=
  {| jog_header := {| stamp := t; frame_id := "base" |};
     joint_names := ["j1"]; velocities := [Fin v] |}.

(** A jog of [j1] at [-1], received at time [1]; the event at time [1]
    ends the wait for a first command. *)
Definition jogging : ServoCalcs :=
  snd (run (tick 1 (joints_at 0 1 0 0)) (jointCmdCB (jog_j1 1 (-1)) servo0)).

(** [j1] measured at [-2.95], inside the margin [0.1] of its lower limit
    [-3], and moving down at [-1] *)
Definition near_lower_limit : TickInput := tick (101 # 100) (joints_at (-295 # 100) 1 (-1) 0).

Definition near_limit_start : ServoCalcs := cycle_start near_lower_limit jogging.

Definition empty_trajectory : JointTrajectory :=
  {| traj_stamp := 0%Q; traj_joint_names := []; points := [] |}.

(** a twist whose first component is not a number, stamped at [t] *)
Definition nan_twist (t : Q) : TwistStamped :=
  {| twist_header := {| stamp := t; frame_id := "base" |};
     twist := {| twist_linear := {| x := NaN; y := zero; z := zero |};
                 twist_angular := {| x := zero; y := zero; z := zero |} |} |}.

(** the servo, past its first command, with a not-a-number twist as the
    latest command *)
Definition with_nan_twist : ServoCalcs :=
  twistStampedCB (nan_twist (1005 # 1000)) after_first_command.

(** The cycle at time [1.01] for the fresh twist of time [1], with every
    control dimension switched off and [j1] measured inside the margin of
    its lower limit, moving down. *)
Definition uncontrolled_start : ServoCalcs :=
  cycle_start near_lower_limit
    (changeControlDimensions [false; false; false; false; false; false] after_first_command).

(** the servo after a list of events *)
Definition play (events : list Event) (s : ServoCalcs) : ServoCalcs :=
  foldl (fun s e => handle e s) s events.

(** While [j1] is jogged, the collision scale drops to [0] and the cycle
    at time [1.01] stores [HALT_FOR_COLLISION]; then the scale is back
    to [1]. *)
Definition halted_by_collision : ServoCalcs :=
  play [ CollisionVelocityScaleMsg zero;
         TimerEvent (tick (101 # 100) (joints_at 0 1 0 0));
         CollisionVelocityScaleMsg one ] jogging.

(** the next two timer events: [j1] measured inside the margin of its
    lower limit and moving down at time [1.02], back at [0] and at rest
    at time [1.03] *)
Definition tick_near_limit : TickInput := tick (102 # 100) (joints_at (-295 # 100) 1 (-1) 0).
Definition tick_back : TickInput := tick (103 # 100) (joints_at 0 1 0 0).

(** a number in lowest terms *)
Definition lowest (v : double) : double :=
  match v with Fin q => Fin (Qred q) | _ => v end.

(** the points of the trajectory a cycle has published *)
Definition published_points (out : TickOutput) : list JointTrajectoryPoint :=
  match outgoing_cmd out with
  | Some (TrajectoryMsg t) => points t
  | _ => []
  end.

(** the velocities and the positions of the published points, in lowest
    terms *)
Definition published_velocities (out : TickOutput) : list Vector :=
  map (fun pt => map lowest (point_velocities pt)) (published_points out).
Definition published_positions (out : TickOutput) : list Vector :=
  map (fun pt => map lowest (positions pt)) (published_points out).



(** the twist of time [1] with [j2] measured at [0], where the Jacobian
    has a zero singular value *)
Definition servoing_at_singularity : ServoCalcs :=
  snd (run (tick 1 (joints_at 0 0 0 0)) (twistStampedCB (planar_twist 1 1 1) planar)).

(** the other decomposition of the planar Jacobian: the last columns of
    both unitary factors with the opposite sign *)
Definition planar_svd_flipped (p2 : Q) : SVD :=
  {| singularValues := [one; Fin p2];
     matrixU := [[one; zero]; [zero; Fin (-1)]];
     matrixV := [[one; zero]; [zero; Fin (-1)]] |}.

(** the twist of time [1] with [j2] measured at [1/2], and a joint-state
    message that gives [j1] and a joint [g1] outside the group, not
    [j2] *)
Definition servoing_at_half : ServoCalcs :=
  snd (run (tick 1 (joints_at 0 (1 # 2) 0 0)) (twistStampedCB (planar_twist 1 1 1) planar)).

Definition without_j2 : JointState :=
  {| name := ["j1"; "g1"]; position := [zero; Fin 5]; velocity := [zero; zero] |}.

(** the position the kinematic state holds for [j2] *)
Definition held_j2 (s : ServoCalcs) : double :=
  lowest (position_of (kinematic_state_ s) "j2").

(** A robot whose second joint moves between [0.2] and [0.9]; [j2] is
    measured at [0.28], inside the margin [0.1] of its lower limit, and
    moving down. *)
Definition j2_short : JointModel :=
  {| getName := "j2"; getVariableBounds := bounds (2 # 10) (9 # 10) 2 10 |}.

Definition short_servo : ServoCalcs :=
  changeDriftDimensions [false; false; true; true; true; true]
    (ServoCalcs_new defaults parameters
       {| variable_positions := ∅; variable_velocities := ∅ |}
       [j1; j2_short] (joints_at 0 (28 # 100) 0 0) 0%Q).

Definition in_lower_margin (t : Q) : TickInput := tick t (joints_at 0 (28 # 100) 0 (-1)).

(** the same robot servoed by a twist, and jogged *)
Definition short_servo_twisted : ServoCalcs :=
  snd (run (in_lower_margin 1) (twistStampedCB (planar_twist 1 1 1) short_servo)).

Definition short_servo_jogged : ServoCalcs :=
  snd (run (in_lower_margin 1) (jointCmdCB (jog_j1 1 (-1)) short_servo)).

End Bench.

(** * The velocity clip in binary64

    The arithmetic of [double] above is exact.  The steps that take a
    jogged joint from its command to its published velocity are given
    here once more on IEEE-754 binary64 numbers, for one joint that has
    velocity bounds and no acceleration bounds, to see what rounding does
    to the clipped value. *)
Module Binary64.
Import Stdlib.Floats.PrimFloat.
#[local] Set Warnings "-inexact-float".

(** [result[c] = command.velocities[m] * parameters_.publish_period],
    the command in speed units *)
Definition scaleJointCommand (velocity publish_period : float) : float :=
  mul velocity publish_period.

(** The velocity block of the loop of [enforceSRDFAccelVelLimits] for one
    joint: the increment it leaves. *)
Definition clipVelocity (publish_period min_velocity max_velocity delta_theta : float)
    : float :=
  let velocity := div delta_theta publish_period in
  let '(clip_velocity, velocity_limit) :=
    if ltb velocity min_velocity then (true, min_velocity)
    else if ltb max_velocity velocity then (true, max_velocity)
    else (false, zero) in
  if clip_velocity then
    let relative_change := div (mul velocity_limit publish_period) delta_theta in
    if ltb (abs relative_change) one
    then mul relative_change delta_theta
    else delta_theta
  else delta_theta.

(** [delta_theta = collision_scale * singularity_scale * delta_theta] *)
Definition applyVelocityScaling (collision_scale singularity_scale delta_theta : float)
    : float :=
  mul (mul collision_scale singularity_scale) delta_theta.

(** [joint_state.velocity[i] = delta_theta[i] / parameters_.publish_period] *)
Definition calculateJointVelocities (publish_period delta_theta : float) : float :=
  div delta_theta publish_period.

(** the velocity published for a jog at [velocity], with both scales at
    [1] *)
Definition publishedVelocity (publish_period min_velocity max_velocity velocity : float)
    : float :=
  let delta_theta := scaleJointCommand velocity publish_period in
  let delta_theta := clipVelocity publish_period min_velocity max_velocity delta_theta in
  let delta_theta := applyVelocityScaling one one delta_theta in
  calculateJointVelocities publish_period delta_theta.

(** the jog of the example: velocity [3.9], period [0.01], bounds [-2]
    and [2] *)
Definition jog_at_3_9 : float :=
  publishedVelocity 0.01%float (-2)%float 2%float 3.9%float.

End Binary64.

(** * Properties *)

(** ** Arithmetic of doubles *)

Section DoubleFacts.

Lemma ltb_Fin (a b : Q) : (Fin a <? Fin b) = true <-> (a < b)%Q.
Proof.
  unfold ltb; simpl. rewrite Qlt_alt.
  destruct (a ?= b)%Q; split; congruence.
Qed.

Lemma leb_Fin (a b : Q) : (Fin a <=? Fin b) = true <-> (a <= b)%Q.
Proof.
  unfold leb; simpl. rewrite Qle_alt.
  destruct (a ?= b)%Q; split; congruence.
Qed.


Lemma geb_Fin (a b : Q) : (Fin a >=? Fin b) = true <-> (b <= a)%Q.
Proof. unfold geb. apply leb_Fin. Qed.

Lemma eqb_Fin (a b : Q) : (Fin a ==? Fin b) = true <-> (a == b)%Q.
Proof.
  unfold eqb; simpl. rewrite Qeq_alt.
  destruct (a ?= b)%Q; split; congruence.
Qed.

Lemma ltb_Fin_false (a b : Q) : (Fin a <? Fin b) = false <-> (b <= a)%Q.
Proof.
  rewrite <- not_true_iff_false, ltb_Fin. split; [apply Qnot_lt_le | apply Qle_not_lt].
Qed.

Lemma finite_Fin (x : double) : finite x <-> exists q, x = Fin q.
Proof.
  destruct x; simpl; split; try tauto; try (intros [q Hq]; discriminate); eauto.
Qed.

(** An ordered comparison that holds has no not-a-number operand. *)
Lemma ltb_true_not_nan (a b : double) : (a <? b) = true -> a <> NaN /\ b <> NaN.
Proof. destruct a, b; simpl; intros H; try discriminate H; split; discriminate. Qed.


(** Dividing by a zero never gives a magnitude below one: the quotient is
    an infinity or not-a-number. *)
Lemma div_by_zero_not_small (a : double) (q : Q) :
  (q == 0)%Q -> (fabs (a / Fin q) <? one) = false.
Proof.
  intros Hq. destruct a as [p| | |]; simpl; try reflexivity.
  - rewrite (proj1 (Qeq_alt q 0) Hq). unfold signed_inf.
    destruct (p ?= 0)%Q; reflexivity.
  - rewrite (proj1 (Qeq_alt q 0) Hq). reflexivity.
  - rewrite (proj1 (Qeq_alt q 0) Hq). reflexivity.
Qed.

Lemma same_refl (a : double) : a ≃ a.
Proof. destruct a; simpl; auto. reflexivity. Qed.

Lemma same_sym (a b : double) : a ≃ b -> b ≃ a.
Proof. destruct a, b; simpl; auto. intros H; now symmetry. Qed.

Lemma same_trans (a b c : double) : a ≃ b -> b ≃ c -> a ≃ c.
Proof.
  destruct a, b, c; simpl; try tauto. intros H1 H2; now rewrite H1.
Qed.

Lemma is_zero_Fin (x : double) : is_zero x <-> exists q, x = Fin q /\ (q == 0)%Q.
Proof.
  destruct x as [q| | |]; unfold is_zero; simpl; split; try tauto;
    try (intros (q' & Hq & _); discriminate).
  - intros H. exists q. auto.
  - intros (q' & Hq & H0). injection Hq as ->. exact H0.
Qed.

Lemma is_zero_eqb (x : double) : is_zero x <-> (x ==? zero) = true.
Proof.
  destruct x as [q| | |]; unfold is_zero, zero; simpl; try (split; [tauto | discriminate]).
  symmetry. apply eqb_Fin.
Qed.

Lemma mul_zero_r (a b : double) : finite a -> is_zero b -> is_zero (a * b).
Proof.
  intros Ha Hb. apply finite_Fin in Ha as [p ->]. apply is_zero_Fin in Hb as (q & -> & Hq).
  unfold is_zero; simpl. rewrite Hq. ring.
Qed.

Lemma mul_zero_l (a b : double) : is_zero a -> finite b -> is_zero (a * b).
Proof.
  intros Ha Hb. apply finite_Fin in Hb as [p ->]. apply is_zero_Fin in Ha as (q & -> & Hq).
  unfold is_zero; simpl. rewrite Hq. ring.
Qed.

Lemma add_zero (a b : double) : is_zero a -> is_zero b -> is_zero (a + b).
Proof.
  intros Ha Hb. apply is_zero_Fin in Ha as (p & -> & Hp). apply is_zero_Fin in Hb as (q & -> & Hq).
  unfold is_zero; simpl. rewrite Hp, Hq. ring.
Qed.

Lemma is_zero_finite (a : double) : is_zero a -> finite a.
Proof. intros H. apply is_zero_Fin in H as (q & -> & _). exact I. Qed.

Lemma is_zero_zero : is_zero zero.
Proof. apply same_refl. Qed.

End DoubleFacts.

Section OrderFacts.

Lemma ltb_leb_false (a b : double) : (a <? b) = true -> (b <=? a) = false.
Proof.
  destruct a as [p| | |], b as [q| | |]; simpl; try discriminate; try reflexivity.
  rewrite ltb_Fin. intros H. apply not_true_iff_false. rewrite leb_Fin.
  now apply Qlt_not_le.
Qed.

Lemma ltb_asym (a b : double) : (a <? b) = true -> (b <? a) = false.
Proof.
  destruct a as [p| | |], b as [q| | |]; simpl; try discriminate; try reflexivity.
  rewrite ltb_Fin. intros H. apply ltb_Fin_false. now apply Qlt_le_weak.
Qed.

Lemma eqb_ltb_false (a b : double) : (a ==? b) = true -> (a <? b) = false /\ (b <? a) = false.
Proof.
  destruct a as [p| | |], b as [q| | |]; simpl; try discriminate; try (split; reflexivity).
  rewrite eqb_Fin. intros H. split; apply ltb_Fin_false; rewrite H; apply Qle_refl.
Qed.

Lemma leb_ltb_false (a b : double) : (a <=? b) = true -> (b <? a) = false.
Proof.
  destruct a as [p| | |], b as [q| | |]; simpl; try discriminate; try reflexivity.
  rewrite leb_Fin. intros H. now apply ltb_Fin_false.
Qed.

End OrderFacts.

(** ** The singularity scale *)

Section Singularity.
Context {C : Collaborators}.

(** The look-ahead changes the kinematic state and nothing else. *)
Lemma lookAhead_state (u : Vector) (pinv : Matrix) (s : ServoCalcs) :
  snd (lookAhead u pinv s) =
  set_kinematic_state_ (kinematic_state_ (snd (lookAhead u pinv s))) s.
Proof. reflexivity. Qed.

Lemma lookAhead_status (u : Vector) (pinv : Matrix) (s : ServoCalcs) :
  status_ (snd (lookAhead u pinv s)) = status_ s.
Proof. reflexivity. Qed.

(** Between the two thresholds, moving toward the singularity: the
    linear ramp, and the status [DECELERATE_FOR_SINGULARITY]. *)
Lemma singularityRamp_between (dot_ k : double) (s : ServoCalcs) :
  (dot_ >? zero) = true ->
  (k >? lower_singularity_threshold (parameters_ s)) = true ->
  (k <? hard_stop_singularity_threshold (parameters_ s)) = true ->
  singularityRamp dot_ k s =
  (one - (k - lower_singularity_threshold (parameters_ s)) /
           (hard_stop_singularity_threshold (parameters_ s)
            - lower_singularity_threshold (parameters_ s)),
   set_status_ DECELERATE_FOR_SINGULARITY s).
Proof.
  intros Hd Hl Hh. unfold singularityRamp. rewrite Hd, Hl, Hh. reflexivity.
Qed.

(** Strictly above the hard-stop threshold, moving toward the
    singularity: scale [0] and the status [HALT_FOR_SINGULARITY]. *)
Lemma singularityRamp_above (dot_ k : double) (s : ServoCalcs) :
  (dot_ >? zero) = true ->
  (k >? hard_stop_singularity_threshold (parameters_ s)) = true ->
  singularityRamp dot_ k s = (zero, set_status_ HALT_FOR_SINGULARITY s).
Proof.
  intros Hd Hh. unfold singularityRamp. rewrite Hd, Hh.
  rewrite (ltb_asym _ _ Hh), andb_false_r. reflexivity.
Qed.

(** Not moving toward the singularity: scale [1], status untouched. *)
Lemma singularityRamp_away (dot_ k : double) (s : ServoCalcs) :
  (dot_ >? zero) = false -> singularityRamp dot_ k s = (one, s).
Proof. intros Hd. unfold singularityRamp. rewrite Hd. reflexivity. Qed.

(** The scale returned by the ramp is [1], [0] or the value of the linear
    ramp, whatever the inputs. *)
Lemma singularityRamp_cases (dot_ k : double) (s : ServoCalcs) :
  singularityRamp dot_ k s = (one, s) \/
  singularityRamp dot_ k s = (zero, set_status_ HALT_FOR_SINGULARITY s) \/
  ((k >? lower_singularity_threshold (parameters_ s)) = true /\
   (k <? hard_stop_singularity_threshold (parameters_ s)) = true /\
   singularityRamp dot_ k s =
   (one - (k - lower_singularity_threshold (parameters_ s)) /
            (hard_stop_singularity_threshold (parameters_ s)
             - lower_singularity_threshold (parameters_ s)),
    set_status_ DECELERATE_FOR_SINGULARITY s)).
Proof.
  unfold singularityRamp.
  destruct (dot_ >? zero); [| now left].
  destruct (k >? lower_singularity_threshold (parameters_ s)) eqn:Hl;
    destruct (k <? hard_stop_singularity_threshold (parameters_ s)) eqn:Hh; simpl;
    try (right; right; now auto);
    destruct (k >? hard_stop_singularity_threshold (parameters_ s)); auto.
Qed.

(** C1, at the boundary.  When the Jacobian condition number equals
    [hard_stop_singularity_threshold] and the dot product of the
    singularity direction with the commanded [delta_x] is positive,
    [velocityScalingFactorForSingularity] returns the scale [1] and
    leaves the status as it was: the ramp tests [<] and the halt tests
    [>], so neither branch is taken, and the motion is neither
    decelerated nor halted. *)
Theorem singularity_scale_at_hard_stop
    (commanded_velocity : Vector) (svd : SVD) (pseudo_inverse : Matrix) (s : ServoCalcs) :
  let u_last := col (matrixU svd) (length commanded_velocity - 1) in
  let k := condition_number svd in
  let probe := lookAhead u_last pseudo_inverse s in
  (dot (resolveSign k (fst probe) u_last) commanded_velocity >? zero) = true ->
  (k ==? hard_stop_singularity_threshold (parameters_ s)) = true ->
  fst (velocityScalingFactorForSingularity commanded_velocity svd pseudo_inverse s) = one /\
  status_ (snd (velocityScalingFactorForSingularity commanded_velocity svd pseudo_inverse s))
  = status_ s.
Proof.
  intros u_last k probe Hdot Hk.
  unfold velocityScalingFactorForSingularity.
  fold u_last k. change (lookAhead u_last pseudo_inverse s) with probe.
  destruct probe as [k' s1] eqn:Hp. simpl in Hdot.
  assert (Hs1 : status_ s1 = status_ s).
  { change s1 with (snd (k', s1)). rewrite <- Hp. apply lookAhead_status. }
  assert (Hpar : parameters_ s1 = parameters_ s).
  { change s1 with (snd (k', s1)). rewrite <- Hp. reflexivity. }
  unfold singularityRamp. rewrite Hdot, Hpar.
  destruct (eqb_ltb_false _ _ Hk) as [Hlt Hgt].
  unfold gtb. rewrite Hlt, Hgt, andb_false_r. simpl. auto.
Qed.

(** The sign test negates the candidate exactly when the condition number
    at the probed configuration is not above the initial one. *)
Lemma resolveSign_negates (k k' : double) (u : Vector) :
  (k >=? k') = true -> resolveSign k k' u = scale (Fin (-1)) u.
Proof. intros H. unfold resolveSign. now rewrite H. Qed.

Lemma resolveSign_keeps (k k' : double) (u : Vector) :
  (k' >? k) = true -> resolveSign k k' u = u.
Proof.
  intros H. unfold resolveSign, geb. unfold gtb in H.
  now rewrite (ltb_leb_false _ _ H).
Qed.

(** The scaling for a singularity is the ramp, evaluated on the state the
    look-ahead leaves, for the direction the sign test has chosen. *)
Lemma velocityScaling_as_ramp (commanded_velocity : Vector) (svd : SVD)
    (pseudo_inverse : Matrix) (s : ServoCalcs) :
  let u_last := col (matrixU svd) (length commanded_velocity - 1) in
  let probe := lookAhead u_last pseudo_inverse s in
  velocityScalingFactorForSingularity commanded_velocity svd pseudo_inverse s
  = singularityRamp
      (dot (resolveSign (condition_number svd) (fst probe) u_last) commanded_velocity)
      (condition_number svd) (snd probe).
Proof. reflexivity. Qed.

(** C7, as amended.  In the sign test of the probe, when the condition
    number [k'] at the probed configuration is strictly greater than the
    initial condition number [k], the candidate direction [u_last] is
    left unchanged, and it is [u_last] that enters the dot-product test;
    when [k' <= k] the candidate is negated, and it is [-u_last] that
    enters the test.  Either way the vector points to where the
    condition number rises. *)
Theorem sign_test_follows_the_probe
    (commanded_velocity : Vector) (svd : SVD) (pseudo_inverse : Matrix) (s : ServoCalcs) :
  let u_last := col (matrixU svd) (length commanded_velocity - 1) in
  let k := condition_number svd in
  let probe := lookAhead u_last pseudo_inverse s in
  ((fst probe >? k) = true ->
   resolveSign k (fst probe) u_last = u_last /\
   velocityScalingFactorForSingularity commanded_velocity svd pseudo_inverse s
   = singularityRamp (dot u_last commanded_velocity) k (snd probe)) /\
  ((fst probe <=? k) = true ->
   resolveSign k (fst probe) u_last = scale (Fin (-1)) u_last /\
   velocityScalingFactorForSingularity commanded_velocity svd pseudo_inverse s
   = singularityRamp (dot (scale (Fin (-1)) u_last) commanded_velocity) k (snd probe)).
Proof.
  intros u_last k probe. split; intros H.
  - pose proof (resolveSign_keeps k (fst probe) u_last H) as E.
    split; [exact E |]. rewrite velocityScaling_as_ramp. cbv zeta.
    fold u_last k probe. now rewrite E.
  - pose proof (resolveSign_negates k (fst probe) u_last H) as E.
    split; [exact E |]. rewrite velocityScaling_as_ramp. cbv zeta.
    fold u_last k probe. now rewrite E.
Qed.

End Singularity.

(** ** The idle trajectory *)

Section Idle.
Context {C : Collaborators}.

(** The loop over copies of the points leaves the trajectory as it is. *)
Lemma zeroVelocitiesOfCopies_id (t : JointTrajectory) : zeroVelocitiesOfCopies t = t.
Proof.
  unfold zeroVelocitiesOfCopies. generalize (points t) at 1.
  intros l. induction l as [| pt l IH]; simpl; auto.
Qed.

(** C3, as the program runs.  In a cycle where neither a fresh non-zero
    twist nor a fresh non-zero joint command is available, the trajectory
    the dispatch takes from [last_sent_command_] is [last_sent_command_]
    itself, velocities included: the loop that assigns zeros works on
    copies of the points. *)
Theorem idle_trajectory_is_last_sent (t : Time) (s : ServoCalcs) :
  have_nonzero_twist_stamped_ s && negb (twist_command_is_stale_ s) = false ->
  have_nonzero_joint_command_ s && negb (joint_command_is_stale_ s) = false ->
  dispatch t s = (Some (last_sent_command_ s), s).
Proof.
  intros Ht Hj. unfold dispatch. rewrite Ht, Hj, zeroVelocitiesOfCopies_id. reflexivity.
Qed.

(** With a command whose non-zero flag is set, the second half of the
    cycle publishes the trajectory it is given: no halt is built. *)
Lemma finishCycle_publishes_given (t : Time) (traj : JointTrajectory) (s : ServoCalcs) :
  have_nonzero_command_ s = true ->
  command_out_type (parameters_ s) = "trajectory_msgs/JointTrajectory" ->
  fst (finishCycle t traj s) =
  Some (TrajectoryMsg {| traj_stamp := t; traj_joint_names := traj_joint_names traj;
                         points := points traj |}).
Proof.
  intros Hnz Hty. unfold finishCycle, outgoingMessage.
  repeat first [rewrite Hnz | rewrite Hty | progress simpl].
  destruct (updated_filters_ s); reflexivity.
Qed.

End Idle.

(** ** The worst-case stop time *)

Section StopTime.

(** A joint without acceleration bounds, or absent from the group,
    leaves [accel_limit] as the previous joints set it. *)
Lemma lookupAccelLimit_keeps (group : JointModelGroup) (n : string) (a : double) :
  (forall i j, list_find (fun jm => getName jm = n) group = Some (i, j) ->
               acceleration_bounded_ (getVariableBounds j) = false) ->
  lookupAccelLimit group n a = a.
Proof.
  intros H. unfold lookupAccelLimit.
  destruct (list_find _ group) as [[i j]|] eqn:E; [| reflexivity].
  now rewrite (H i j eq_refl).
Qed.

End StopTime.

(** ** The look-ahead and the kinematic state *)

Section Probe.
Context {C : Collaborators}.

Lemma assign_notin (names : list string) (values : Vector) (m : gmap string double)
    (n : string) :
  n ∉ names -> assign names values m !! n = m !! n.
Proof.
  revert values m. induction names as [| n0 names IH]; intros values m Hn; [reflexivity |].
  destruct values as [| v0 values]; [reflexivity |].
  apply not_elem_of_cons in Hn as [Hne Hn].
  unfold assign in *. simpl. rewrite IH by exact Hn.
  now apply lookup_insert_ne.
Qed.

Lemma assign_lookup (names : list string) (values : Vector) (m : gmap string double)
    (i : nat) (n : string) (v : double) :
  NoDup names -> names !! i = Some n -> values !! i = Some v ->
  assign names values m !! n = Some v.
Proof.
  revert values m i. induction names as [| n0 names IH]; intros values m i Hnd Hn Hv;
    [discriminate |].
  destruct values as [| v0 values]; [discriminate |].
  apply NoDup_cons in Hnd as [Hn0 Hnd].
  destruct i as [| i]; simpl in Hn, Hv.
  - injection Hn as ->. injection Hv as ->.
    change (assign (n :: names) (v :: values) m) with (assign names values (<[n := v]> m)).
    rewrite assign_notin by exact Hn0. apply lookup_insert_eq.
  - change (assign (n0 :: names) (v0 :: values) m) with (assign names values (<[n0 := v0]> m)).
    eapply IH; eauto.
Qed.

(** The singularity scaling leaves the kinematic state as the look-ahead
    left it. *)
Lemma scaling_kinematic_state (cv : Vector) (svd : SVD) (pinv : Matrix) (s : ServoCalcs) :
  kinematic_state_ (snd (velocityScalingFactorForSingularity cv svd pinv s)) =
  kinematic_state_ (snd (lookAhead (col (matrixU svd) (length cv - 1)) pinv s)).
Proof.
  unfold velocityScalingFactorForSingularity.
  destruct (lookAhead _ pinv s) as [k' s1]. simpl.
  destruct (singularityRamp_cases
              (dot (resolveSign (condition_number svd) k'
                      (col (matrixU svd) (length cv - 1))) cv)
              (condition_number svd) s1) as [H | [H | (_ & _ & H)]];
    rewrite H; reflexivity.
Qed.

(** C5, as the program runs.  After
    [velocityScalingFactorForSingularity] the position the kinematic
    state holds for joint [i] of the group is the position it held before
    plus component [i] of [pseudo_inverse * (u_last / 100)]: the look-ahead
    writes the probed configuration into the stored state and the
    function returns without writing the former positions back.  The
    joint positions after the call are not those before it. *)
Theorem probe_displaces_joint_positions
    (commanded_velocity : Vector) (svd : SVD) (pseudo_inverse : Matrix) (s : ServoCalcs)
    (i : nat) (theta d : double) :
  NoDup (map getName (joint_model_group_ s)) ->
  copyJointGroupPositions (joint_model_group_ s) (kinematic_state_ s) !! i = Some theta ->
  mat_vec_mul pseudo_inverse
    (div_scalar (col (matrixU svd) (length commanded_velocity - 1)) (Fin 100)) !! i = Some d ->
  copyJointGroupPositions (joint_model_group_ s)
    (kinematic_state_
       (snd (velocityScalingFactorForSingularity commanded_velocity svd pseudo_inverse s)))
    !! i = Some (theta + d).
Proof.
  intros Hnd Hth Hd. rewrite scaling_kinematic_state.
  unfold lookAhead. cbn [snd kinematic_state_ set_kinematic_state_].
  unfold copyJointGroupPositions at 1.
  rewrite list_lookup_fmap.
  pose proof Hth as Hth'. unfold copyJointGroupPositions in Hth'.
  rewrite list_lookup_fmap in Hth'.
  destruct (joint_model_group_ s !! i) as [j |] eqn:Hj; [| discriminate].
  simpl in *. f_equal.
  unfold setJointGroupPositions. cbn [variable_positions].
  erewrite assign_lookup; [reflexivity | exact Hnd | | ].
  - rewrite list_lookup_fmap, Hj. reflexivity.
  - unfold vadd. rewrite lookup_zip_with.
    unfold copyJointGroupPositions. rewrite list_lookup_fmap, Hj. simpl.
    rewrite Hd. simpl. injection Hth' as <-. reflexivity.
Qed.

End Probe.

(** ** The sudden halt and the position limits *)

Section Halt.
Context {C : Collaborators}.

Lemma assign_loop_length {A : Type} (g : nat -> A) (l : list A) (a n : nat) :
  length (foldl (fun l i => <[i := g i]> l) l (seq a n)) = length l.
Proof.
  revert l a. induction n as [| n IH]; intros l a; [reflexivity |].
  simpl. rewrite IH. apply length_insert.
Qed.

(** A loop that assigns [g i] to entry [i] for the indices from [a] to
    [a + n - 1]: the entries of these indices that exist are [g i], the
    others are as before. *)
Lemma assign_loop_lookup {A : Type} (g : nat -> A) (l : list A) (a n k : nat) :
  foldl (fun l i => <[i := g i]> l) l (seq a n) !! k
  = if decide (a <= k < a + n)%nat then (fun _ => g k) <$> l !! k else l !! k.
Proof.
  induction n as [| n IH].
  - simpl. destruct (decide _); [lia | reflexivity].
  - rewrite seq_S, foldl_app. cbn [foldl].
    destruct (decide (k = a + n)%nat) as [-> | Hne].
    + rewrite list_lookup_insert, IH, assign_loop_length.
      destruct (decide (a <= a + n < a + n)%nat); [lia |].
      destruct (decide (a <= a + n < a + S n)%nat); [| lia].
      destruct (l !! (a + n)%nat) eqn:E.
      * apply lookup_lt_Some in E. destruct (decide _) as [_ | Hnot]; [reflexivity |].
        exfalso. apply Hnot. split; [reflexivity | exact E].
      * apply lookup_ge_None in E. destruct (decide _) as [[_ Hlt] | _]; [lia | reflexivity].
    + rewrite list_lookup_insert_ne by congruence. rewrite IH.
      destruct (decide (a <= k < a + n)%nat), (decide (a <= k < a + S n)%nat);
        first [reflexivity | lia].
Qed.

(** A loop that assigns to every entry of a vector of [n] entries. *)
Lemma assign_all {A : Type} (g : nat -> A) (l : list A) (n : nat) :
  length l = n -> foldl (fun l i => <[i := g i]> l) l (seq 0 n) = map g (seq 0 n).
Proof.
  intros Hlen. apply list_eq. intros k. rewrite assign_loop_lookup.
  change (map g (seq 0 n)) with (g <$> seq 0 n). rewrite list_lookup_fmap.
  destruct (decide (0 <= k < 0 + n)%nat) as [[_ Hk] | Hk].
  - rewrite lookup_seq_lt by lia.
    destruct (l !! k) eqn:E; [reflexivity |]. apply lookup_ge_None in E. lia.
  - rewrite lookup_seq_ge by lia. apply lookup_ge_None. lia.
Qed.

Lemma map_zero_seq (n : nat) : map (fun _ : nat => zero) (seq 0 n) = replicate n zero.
Proof.
  generalize 0%nat. induction n as [| n IH]; intros a; [reflexivity |].
  simpl. now rewrite IH.
Qed.

Lemma map_lookup_total_seq (l : Vector) : map (fun i => l !!! i) (seq 0 (length l)) = l.
Proof.
  apply list_eq. intros k.
  change (map (fun i => l !!! i) (seq 0 (length l)))
    with ((fun i => l !!! i) <$> seq 0 (length l)).
  rewrite list_lookup_fmap.
  destruct (l !! k) as [x |] eqn:E.
  - rewrite lookup_seq_lt by (apply lookup_lt_Some in E; exact E).
    cbn. now rewrite (list_lookup_total_correct _ _ _ E).
  - apply lookup_ge_None in E. now rewrite lookup_seq_ge by lia.
Qed.

(** The loop of [suddenHalt] on the velocities and on the positions of
    a point. *)
Lemma haltJoint_fold_velocities (s : ServoCalcs) (pt : JointTrajectoryPoint) (n : nat) :
  point_velocities (foldl (haltJoint s) pt (seq 0 n))
  = if publish_joint_velocities (parameters_ s)
    then foldl (fun l i => <[i := zero]> l) (point_velocities pt) (seq 0 n)
    else point_velocities pt.
Proof.
  induction n as [| n IH].
  - simpl. now destruct (publish_joint_velocities _).
  - rewrite !seq_S, !foldl_app. cbn [foldl haltJoint point_velocities]. rewrite IH.
    now destruct (publish_joint_velocities _).
Qed.

Lemma haltJoint_fold_positions (s : ServoCalcs) (pt : JointTrajectoryPoint) (n : nat) :
  positions (foldl (haltJoint s) pt (seq 0 n))
  = if publish_joint_positions (parameters_ s)
    then foldl (fun l i => <[i := position (original_joint_state_ s) !!! i]> l)
           (positions pt) (seq 0 n)
    else positions pt.
Proof.
  induction n as [| n IH].
  - simpl. now destruct (publish_joint_positions _).
  - rewrite !seq_S, !foldl_app. cbn [foldl haltJoint positions]. rewrite IH.
    now destruct (publish_joint_positions _).
Qed.

(** A point with one entry per joint in the published channels leaves the
    loop of [suddenHalt] halted. *)
Lemma haltJoint_fold_halted (s : ServoCalcs) (pt : JointTrajectoryPoint) :
  length (position (original_joint_state_ s)) = num_joints_ s ->
  (publish_joint_velocities (parameters_ s) = true ->
   length (point_velocities pt) = num_joints_ s) ->
  (publish_joint_positions (parameters_ s) = true ->
   length (positions pt) = num_joints_ s) ->
  halted s (foldl (haltJoint s) pt (seq 0 (num_joints_ s))).
Proof.
  intros Ho Hv Hp. split; intros Hpub.
  - rewrite haltJoint_fold_velocities, Hpub.
    rewrite (assign_all (fun _ => zero)) by (now apply Hv). apply map_zero_seq.
  - rewrite haltJoint_fold_positions, Hpub.
    rewrite (assign_all (fun i => position (original_joint_state_ s) !!! i))
      by (now apply Hp).
    rewrite <- Ho. apply map_lookup_total_seq.
Qed.

Lemma suddenHalt_first (s : ServoCalcs) (traj : JointTrajectory) :
  exists pt0,
    points (suddenHalt s traj) !! 0%nat
    = Some (foldl (haltJoint s) pt0 (seq 0 (num_joints_ s))).
Proof.
  unfold suddenHalt. destruct (points traj) as [| pt pts] eqn:E; simpl; eauto.
Qed.

(** [suddenHalt] leaves a first point, and this point is halted when the
    point it found had one entry per joint. *)
Lemma suddenHalt_halted (s : ServoCalcs) (traj : JointTrajectory) :
  length (position (original_joint_state_ s)) = num_joints_ s ->
  firstPointSized s traj ->
  exists pt, points (suddenHalt s traj) !! 0%nat = Some pt /\ halted s pt.
Proof.
  intros Ho Hsized. unfold suddenHalt, firstPointSized in *.
  destruct (points traj) as [| pt0 pts].
  - eexists. split; [reflexivity |].
    apply haltJoint_fold_halted; [exact Ho | |]; intros _; apply length_replicate.
  - destruct Hsized as [Hv Hp]. eexists. split; [reflexivity |].
    now apply haltJoint_fold_halted.
Qed.

Lemma suddenHalt_nonempty (s : ServoCalcs) (traj : JointTrajectory) :
  points (suddenHalt s traj) <> [].
Proof.
  destruct (suddenHalt_first s traj) as [pt0 H0]. intros E. rewrite E in H0. discriminate.
Qed.

(** The redundant points are written from index [2] on: the first point
    stays. *)
Lemma redundant_points_keep (period : double) (point : JointTrajectoryPoint)
    (l : list nat) (pts : list JointTrajectoryPoint) (k : nat) :
  (forall i, i ∈ l -> k < i)%nat ->
  foldl
    (fun pts i =>
       <[i := {| positions := positions point;
                 point_velocities := point_velocities point;
                 accelerations := accelerations point;
                 time_from_start := Fin (inject_Z (Z.of_nat i)) * period |}]> pts)
    pts l !! k = pts !! k.
Proof.
  revert pts. induction l as [| i l IH]; intros pts Hl; [reflexivity |].
  simpl. rewrite IH.
  - apply list_lookup_insert_ne. specialize (Hl i (list_elem_of_here _ _)). lia.
  - intros i' Hi'. apply Hl. now apply list_elem_of_further.
Qed.

Lemma insertRedundantPoints_first (s : ServoCalcs) (traj : JointTrajectory) (count : nat)
    (pt : JointTrajectoryPoint) :
  points traj <> [] ->
  points (insertRedundantPointsIntoTrajectory s traj count) !! 0%nat = Some pt ->
  points traj !! 0%nat = Some pt.
Proof.
  intros Hne. unfold insertRedundantPointsIntoTrajectory, with_points.
  cbn [points]. rewrite redundant_points_keep.
  - destruct (points traj) as [| p0 pts]; [congruence |].
    destruct count; simpl; [discriminate | auto].
  - intros i Hi. apply elem_of_seq in Hi. lia.
Qed.

(** The position check reads the joint group, the measured joint state,
    the kinematic state and the parameters only. *)
Lemma enforceSRDFPositionLimits_ext (s s' : ServoCalcs) :
  joint_model_group_ s' = joint_model_group_ s ->
  original_joint_state_ s' = original_joint_state_ s ->
  kinematic_state_ s' = kinematic_state_ s ->
  parameters_ s' = parameters_ s ->
  enforceSRDFPositionLimits s' = enforceSRDFPositionLimits s.
Proof.
  intros Hg Ho Hk Hp. unfold enforceSRDFPositionLimits, joint_halts, original_joint_angle.
  rewrite Hg, Ho, Hk, Hp. reflexivity.
Qed.

End Halt.

(** ** Re-seeding of the filters *)

Section Filters.
Context {C : Collaborators}.

Lemma updateJoints_accepted (js : JointState) (s : ServoCalcs) :
  (num_joints_ s <= length (name js))%nat ->
  fst (fst (updateJoints js s)) = true /\
  position_filters_ (snd (updateJoints js s)) = position_filters_ s /\
  paused_ (snd (updateJoints js s)) = paused_ s /\
  wait_for_servo_commands_ (snd (updateJoints js s)) = wait_for_servo_commands_ s /\
  status_ (snd (updateJoints js s)) = status_ s.
Proof.
  intros H. unfold updateJoints.
  destruct (Nat.ltb_spec (length (name js)) (num_joints_ s)); [lia |].
  repeat split.
Qed.

Lemma snapshotLatest_frame (t : Time) (s : ServoCalcs) :
  position_filters_ (snapshotLatest t s) = position_filters_ s /\
  original_joint_state_ (snapshotLatest t s) = original_joint_state_ s /\
  paused_ (snapshotLatest t s) = paused_ s /\
  wait_for_servo_commands_ (snapshotLatest t s) = wait_for_servo_commands_ s /\
  status_ (snapshotLatest t s) = status_ s /\
  kinematic_state_ (snapshotLatest t s) = kinematic_state_ s.
Proof.
  unfold snapshotLatest.
  destruct (latest_twist_stamped_ (latest_ s)), (latest_joint_cmd_ (latest_ s));
    repeat split.
Qed.

Lemma prepareCycle_frame (input : TickInput) (s : ServoCalcs) :
  position_filters_ (prepareCycle input s) = position_filters_ s /\
  original_joint_state_ (prepareCycle input s) = original_joint_state_ s /\
  paused_ (prepareCycle input s) = paused_ s /\
  wait_for_servo_commands_ (prepareCycle input s) = wait_for_servo_commands_ s /\
  status_ (prepareCycle input s) = status_ s /\
  updated_filters_ (prepareCycle input s) = false.
Proof.
  unfold prepareCycle, snapshotLatest.
  destruct (latest_twist_stamped_ _), (latest_joint_cmd_ _); repeat split.
Qed.

Lemma resetLowPassFilters_filters (js : JointState) (s : ServoCalcs) :
  position_filters_ (resetLowPassFilters js s)
  = imap (fun i f => reset f (position js !!! i)) (position_filters_ s).
Proof. reflexivity. Qed.

Lemma resetLowPassFilters_original (js : JointState) (s : ServoCalcs) :
  original_joint_state_ (resetLowPassFilters js s) = original_joint_state_ s.
Proof. reflexivity. Qed.

(** The ramp, the look-ahead and the velocity scaling leave the filters
    and the measured joint state alone. *)
Lemma velocityScaling_frame (cv : Vector) (svd : SVD) (pinv : Matrix) (s : ServoCalcs) :
  let s' := snd (velocityScalingFactorForSingularity cv svd pinv s) in
  position_filters_ s' = position_filters_ s /\
  original_joint_state_ s' = original_joint_state_ s /\
  delta_theta_ s' = delta_theta_ s /\
  parameters_ s' = parameters_ s /\
  joint_model_group_ s' = joint_model_group_ s /\
  collision_velocity_scale_ s' = collision_velocity_scale_ s /\
  internal_joint_state_ s' = internal_joint_state_ s /\
  last_sent_command_ s' = last_sent_command_ s.
Proof.
  unfold velocityScalingFactorForSingularity.
  destruct (lookAhead _ pinv s) as [k' s1] eqn:E.
  assert (Hs1 : s1 = snd (lookAhead (col (matrixU svd) (length cv - 1)) pinv s))
    by (now rewrite E).
  rewrite lookAhead_state in Hs1.
  destruct (singularityRamp_cases
              (dot (resolveSign (condition_number svd) k'
                      (col (matrixU svd) (length cv - 1))) cv)
              (condition_number svd) s1) as [H | [H | (_ & _ & H)]];
    rewrite H; subst s1; repeat split.
Qed.

Lemma applyVelocityScaling_frame (sc : double) (s : ServoCalcs) :
  let s' := applyVelocityScaling sc s in
  position_filters_ s' = position_filters_ s /\
  original_joint_state_ s' = original_joint_state_ s /\
  parameters_ s' = parameters_ s /\
  joint_model_group_ s' = joint_model_group_ s /\
  kinematic_state_ s' = kinematic_state_ s /\
  internal_joint_state_ s' = internal_joint_state_ s /\
  last_sent_command_ s' = last_sent_command_ s.
Proof.
  unfold applyVelocityScaling.
  destruct (collision_velocity_scale_ s ==? zero); cbn;
    repeat case_decide; repeat split.
Qed.

(** The outgoing builder leaves the measured joint state alone, and the
    filters too when it gives up. *)
Lemma convertDeltas_frame (t : Time) (traj : JointTrajectory) (s : ServoCalcs) :
  let r := convertDeltasToOutgoingCmd t traj s in
  original_joint_state_ (snd r) = original_joint_state_ s /\
  (fst (fst r) = false -> position_filters_ (snd r) = position_filters_ s).
Proof.
  unfold convertDeltasToOutgoingCmd.
  cbn [internal_joint_state_ set_internal_joint_state_ delta_theta_ parameters_].
  destruct (addJointIncrements _ _) as [ok position'] eqn:Eadd.
  destruct ok; cbn [negb]; cbv iota.
  - unfold lowPassFilterPositions.
    cbn [internal_joint_state_ set_internal_joint_state_ position_filters_ position].
    destruct (lowPassFilter_loop _ _ _) as [filters position''] eqn:Eflt.
    match goal with
    | |- context [enforceSRDFPositionLimits ?s3] => destruct (enforceSRDFPositionLimits s3)
    end; cbn [negb]; cbv iota beta;
      destruct (use_gazebo (parameters_ s)); cbn; split; auto; discriminate.
  - cbn. split; reflexivity.
Qed.

Lemma commitDeltas_frame (t : Time) (traj : JointTrajectory) (s : ServoCalcs) :
  let r := commitDeltas t traj s in
  original_joint_state_ (snd r) = original_joint_state_ s /\
  (fst (fst r) = false -> position_filters_ (snd r) = position_filters_ s).
Proof.
  unfold commitDeltas.
  destruct (convertDeltas_frame t traj
              (set_prev_joint_velocity_
                 (div_scalar (delta_theta_ s) (publish_period (parameters_ s))) s))
    as [H1 H2].
  split; [exact H1 | exact H2].
Qed.

Lemma jointServoCalcs_frame (t : Time) (traj : JointTrajectory) (s : ServoCalcs) :
  let r := jointServoCalcs t traj s in
  original_joint_state_ (snd r) = original_joint_state_ s /\
  (fst (fst r) = false -> position_filters_ (snd r) = position_filters_ s).
Proof.
  unfold jointServoCalcs.
  destruct (existsb isnan (velocities (joint_servo_cmd_ s))); [split; reflexivity |].
  match goal with
  | |- context [commitDeltas t traj ?s3] =>
      destruct (commitDeltas_frame t traj s3) as [H1 H2];
      destruct (applyVelocityScaling_frame one
                  (set_delta_theta_
                     (enforceSRDFAccelVelLimits
                        (set_delta_theta_ (scaleJointCommand s (joint_servo_cmd_ s)) s)
                        (delta_theta_
                           (set_delta_theta_ (scaleJointCommand s (joint_servo_cmd_ s)) s)))
                     (set_delta_theta_ (scaleJointCommand s (joint_servo_cmd_ s)) s)))
        as (F1 & F2 & _)
  end.
  cbv zeta. split.
  - rewrite H1, F2. reflexivity.
  - intros Hf. rewrite (H2 Hf), F1. reflexivity.
Qed.

Lemma jointServoCalcs_nan (t : Time) (traj : JointTrajectory) (s : ServoCalcs) :
  existsb isnan (velocities (joint_servo_cmd_ s)) = true ->
  fst (fst (jointServoCalcs t traj s)) = false.
Proof. intros H. unfold jointServoCalcs. rewrite H. reflexivity. Qed.

Lemma cartesianServoCalcs_nan (t : Time) (traj : JointTrajectory) (pf cf : string)
    (s : ServoCalcs) :
  existsb isnan (twist_components (twist (twist_stamped_cmd_ s))) = true ->
  fst (fst (cartesianServoCalcs t traj pf cf s)) = false.
Proof. intros H. unfold cartesianServoCalcs. rewrite H. reflexivity. Qed.

Lemma cartesianServoCalcs_range (t : Time) (traj : JointTrajectory) (pf cf : string)
    (s : ServoCalcs) :
  is_unitless s = true ->
  existsb (fun c => fabs c >? one) (twist_components (twist (twist_stamped_cmd_ s))) = true ->
  fst (fst (cartesianServoCalcs t traj pf cf s)) = false.
Proof.
  intros Hu H. unfold cartesianServoCalcs. rewrite Hu, H.
  destruct (existsb isnan _); reflexivity.
Qed.

Lemma cartesianServoCalcs_frame (t : Time) (traj : JointTrajectory) (pf cf : string)
    (s : ServoCalcs) :
  let r := cartesianServoCalcs t traj pf cf s in
  original_joint_state_ (snd r) = original_joint_state_ s /\
  (fst (fst r) = false -> position_filters_ (snd r) = position_filters_ s).
Proof.
  unfold cartesianServoCalcs.
  destruct (existsb isnan _); [split; reflexivity |].
  destruct (is_unitless s && existsb _ _); [split; reflexivity |].
  unfold cartesianSingularity.
  destruct (reducedProblem _ _) as [jacobian delta_x].
  cbn [delta_theta_ set_delta_theta_].
  match goal with
  | |- context [velocityScalingFactorForSingularity ?cv ?svd ?pinv ?s1] =>
      pose proof (velocityScaling_frame cv svd pinv s1) as Hv;
      destruct (velocityScalingFactorForSingularity cv svd pinv s1) as [sc s2]
  end.
  cbn [snd] in Hv. destruct Hv as (V1 & V2 & _).
  destruct (applyVelocityScaling_frame sc s2) as (F1 & F2 & _).
  destruct (commitDeltas_frame t traj (applyVelocityScaling sc s2)) as [H1 H2].
  cbv zeta. split.
  - rewrite H1, F2, V2. reflexivity.
  - intros Hf. rewrite (H2 Hf), F1, V1. reflexivity.
Qed.

(** A dispatch that hands out no trajectory has re-seeded the filters. *)
Lemma dispatch_none_reseeds (t : Time) (b : ServoCalcs) :
  fst (dispatch t b) = None ->
  position_filters_ (snd (dispatch t b))
  = imap (fun i f => reset f (position (original_joint_state_ b) !!! i)) (position_filters_ b) /\
  original_joint_state_ (snd (dispatch t b)) = original_joint_state_ b.
Proof.
  unfold dispatch.
  destruct (have_nonzero_twist_stamped_ b && negb (twist_command_is_stale_ b)).
  - pose proof (cartesianServoCalcs_frame t
                  {| traj_stamp := 0%Q; traj_joint_names := []; points := [] |}
                  (planning_frame_ b) (robot_link_command_frame_ b) b) as H.
    destruct (cartesianServoCalcs _ _ _ _ b) as [[ok traj] s1]. cbn [fst snd] in H.
    destruct H as [H1 H2]. destruct ok; cbn [negb]; cbv iota; [discriminate |].
    intros _. cbn [snd]. rewrite resetLowPassFilters_filters, resetLowPassFilters_original.
    rewrite H1, (H2 eq_refl). split; reflexivity.
  - destruct (have_nonzero_joint_command_ b && negb (joint_command_is_stale_ b)).
    + pose proof (jointServoCalcs_frame t
                    {| traj_stamp := 0%Q; traj_joint_names := []; points := [] |} b) as H.
      destruct (jointServoCalcs _ _ b) as [[ok traj] s1]. cbn [fst snd] in H.
      destruct H as [H1 H2]. destruct ok; cbn [negb]; cbv iota; [discriminate |].
      intros _. cbn [snd]. rewrite resetLowPassFilters_filters, resetLowPassFilters_original.
      rewrite H1, (H2 eq_refl). split; reflexivity.
    + discriminate.
Qed.

(** The second half of a cycle re-seeds the filters when they were not
    updated before, and leaves the measured joint state alone. *)
Lemma finishCycle_reseeds (t : Time) (traj : JointTrajectory) (s : ServoCalcs) :
  updated_filters_ s = false ->
  position_filters_ (snd (finishCycle t traj s))
  = imap (fun i f => reset f (position (original_joint_state_ s) !!! i)) (position_filters_ s) /\
  original_joint_state_ (snd (finishCycle t traj s)) = original_joint_state_ s.
Proof.
  intros Hu. unfold finishCycle, outgoingMessage.
  destruct (have_nonzero_command_ s) eqn:Hnz;
    repeat first
      [ rewrite Hnz | rewrite Hu | progress simpl
      | match goal with
        | |- context [if ?c then _ else _] =>
            lazymatch c with
            | context [if _ then _ else _] => fail
            | _ => destruct c eqn:?
            end
        end ];
    split; reflexivity.
Qed.

(** C4.  In a cycle that produces no trajectory point from a live command
    (paused, waiting for the first command, a twist or a jog with a
    not-a-number, a unitless twist out of range, a servo calculation that
    fails, or no fresh non-zero command on either stream), every filter
    of the bank is reset with the measured position of its joint
    ([original_joint_state_]) before the cycle ends; and a filter of the
    bank for which a reset holds the seed returns that position when the
    position is its next input. *)
Theorem filters_reseeded_without_live_point (input : TickInput) (s : ServoCalcs) :
  accepted input s ->
  NoLivePoint (now input) (cycleStart input s) ->
  let s' := snd (run input s) in
  position_filters_ s'
  = imap (fun i f => reset f (position (original_joint_state_ s') !!! i))
      (position_filters_ s) /\
  forall i f0 f p,
    position_filters_ s !! i = Some f0 -> reset_holds_seed f0 ->
    position_filters_ s' !! i = Some f ->
    position (original_joint_state_ s') !! i = Some p -> finite p ->
    fst (filter f p) ≃ p.
Proof.
  intros Hacc Hno.
  assert (Hmain :
    position_filters_ (snd (run input s))
    = imap (fun i f => reset f (position (original_joint_state_ (snd (run input s))) !!! i))
        (position_filters_ s)).
  { unfold cycleStart in Hno. unfold run.
    destruct (updateJoints_accepted (latest_joint_state input) s Hacc) as (Hok & Hf & _).
    destruct (updateJoints (latest_joint_state input) s) as [[ok worst] s1].
    cbn [fst snd] in *. subst ok. cbn [negb andb]. cbv iota.
    destruct (prepareCycle_frame input s1) as (Pf & Po & _ & _ & _ & Pu).
    set (b := prepareCycle input s1) in *.
    destruct (wait_for_servo_commands_ b || paused_ b) eqn:Ewp.
    - cbn [snd position_filters_ original_joint_state_ set_wait_for_servo_commands_].
      rewrite resetLowPassFilters_filters, resetLowPassFilters_original, Pf, Hf.
      reflexivity.
    - apply orb_false_elim in Ewp as [Ew Ep].
      assert (Hcases : fst (dispatch (now input) b) = None \/
                       dispatch (now input) b = (Some (last_sent_command_ b), b)).
      { destruct Hno as [Hp | Hw | Hc Hn | Hc Hu Hr | Hj Hn | Hc Hfail | Hj Hfail | Hc Hj].
        - congruence.
        - congruence.
        - left. unfold dispatch. unfold cartesianSelected in Hc. rewrite Hc.
          pose proof (cartesianServoCalcs_nan (now input)
                        {| traj_stamp := 0%Q; traj_joint_names := []; points := [] |}
                        (planning_frame_ b) (robot_link_command_frame_ b) b Hn) as Hr.
          destruct (cartesianServoCalcs _ _ _ _ b) as [[ok traj] s2].
          cbn [fst] in Hr. subst ok. reflexivity.
        - left. unfold dispatch. unfold cartesianSelected in Hc. rewrite Hc.
          pose proof (cartesianServoCalcs_range (now input)
                        {| traj_stamp := 0%Q; traj_joint_names := []; points := [] |}
                        (planning_frame_ b) (robot_link_command_frame_ b) b Hu Hr) as Hr'.
          destruct (cartesianServoCalcs _ _ _ _ b) as [[ok traj] s2].
          cbn [fst] in Hr'. subst ok. reflexivity.
        - left. unfold dispatch. unfold jointSelected, cartesianSelected in Hj.
          apply andb_true_iff in Hj as [Hc Hj]. apply negb_true_iff in Hc.
          rewrite Hc, Hj.
          pose proof (jointServoCalcs_nan (now input)
                        {| traj_stamp := 0%Q; traj_joint_names := []; points := [] |}
                        b Hn) as Hr.
          destruct (jointServoCalcs _ _ b) as [[ok traj] s2].
          cbn [fst] in Hr. subst ok. reflexivity.
        - left. unfold dispatch. unfold cartesianSelected in Hc. rewrite Hc.
          destruct (cartesianServoCalcs _ _ _ _ b) as [[ok traj] s2].
          cbn [fst] in Hfail. subst ok. reflexivity.
        - left. unfold dispatch. unfold jointSelected, cartesianSelected in Hj.
          apply andb_true_iff in Hj as [Hc Hj]. apply negb_true_iff in Hc.
          rewrite Hc, Hj.
          destruct (jointServoCalcs _ _ b) as [[ok traj] s2].
          cbn [fst] in Hfail. subst ok. reflexivity.
        - right. unfold jointSelected in Hj. rewrite Hc in Hj. cbn [negb andb] in Hj.
          unfold cartesianSelected in Hc. unfold dispatch.
          rewrite Hc, Hj, zeroVelocitiesOfCopies_id. reflexivity. }
      destruct Hcases as [Hnone | Hidle].
      + destruct (dispatch_none_reseeds (now input) b Hnone) as [D1 D2].
        destruct (dispatch (now input) b) as [[traj |] s2]; [discriminate |].
        cbn [snd] in *. rewrite D1, D2, Pf, Hf. reflexivity.
      + rewrite Hidle.
        destruct (finishCycle_reseeds (now input) (last_sent_command_ b) b Pu) as [F1 F2].
        destruct (finishCycle (now input) (last_sent_command_ b) b) as [out s2].
        cbn [snd] in *. rewrite F1, F2, Pf, Hf. reflexivity. }
  split; [exact Hmain |].
  intros i f0 f p Hf0 Hlaw Hf Hp Hfin.
  rewrite Hmain in Hf. rewrite list_lookup_imap, Hf0 in Hf. simpl in Hf.
  injection Hf as <-.
  rewrite (list_lookup_total_correct _ _ _ Hp).
  apply Hlaw. exact Hfin.
Qed.

End Filters.

(** ** A command with no controlled dimension *)

Section ZeroCommand.
Context {C : Collaborators}.

Lemma lookup_total_zero (l : Vector) (i : nat) : Forall is_zero l -> is_zero (l !!! i).
Proof.
  intros H. destruct (l !! i) as [v |] eqn:E.
  - rewrite (list_lookup_total_correct _ _ _ E).
    eapply Forall_lookup_1; eauto.
  - rewrite list_lookup_total_alt, E. apply is_zero_zero.
Qed.

Lemma foldl_add_zero (acc : double) (l : Vector) :
  is_zero acc -> Forall is_zero l -> is_zero (foldl add acc l).
Proof.
  revert acc. induction l as [| v l IH]; intros acc Hacc Hl; [exact Hacc |].
  simpl. apply Forall_cons in Hl as [Hv Hl]. apply IH; [now apply add_zero | exact Hl].
Qed.

(** The dot product of a finite vector with a zero vector is zero. *)
Lemma dot_zero_r (u v : Vector) : Forall finite u -> Forall is_zero v -> is_zero (dot u v).
Proof.
  intros Hu Hv. unfold dot. apply foldl_add_zero; [apply is_zero_zero |].
  revert v Hv. induction Hu as [| a u Ha Hu IH]; intros v Hv; [constructor |].
  destruct Hv as [| b v Hb Hv]; simpl; constructor.
  - now apply mul_zero_r.
  - now apply IH.
Qed.

Lemma mat_vec_mul_zero (M : Matrix) (v : Vector) :
  Forall (Forall finite) M -> Forall is_zero v -> Forall is_zero (mat_vec_mul M v).
Proof.
  intros HM Hv. unfold mat_vec_mul. apply Forall_fmap.
  eapply Forall_impl; [exact HM |]. intros row Hrow. simpl. now apply dot_zero_r.
Qed.

(** The dot product of any vector with a zero vector is never positive:
    it is zero, or not-a-number when the other vector is not finite. *)
Lemma dot_zero_not_positive (u v : Vector) :
  Forall is_zero v -> (dot u v >? zero) = false.
Proof.
  intros Hv. unfold dot.
  assert (H : forall l acc,
             (is_zero acc \/ acc = NaN) ->
             Forall (fun p => is_zero p \/ p = NaN) l ->
             is_zero (foldl add acc l) \/ foldl add acc l = NaN).
  { induction l as [| p l IH]; intros acc Hacc Hl; [exact Hacc |].
    apply Forall_cons in Hl as [Hp Hl]. simpl. apply IH; [| exact Hl].
    destruct Hacc as [Hacc | ->], Hp as [Hp | ->]; auto.
    - left. now apply add_zero.
    - right. destruct acc; reflexivity. }
  destruct (H (zip_with mul u v) zero) as [Hz | ->].
  - left. apply is_zero_zero.
  - revert u. induction Hv as [| b v Hb Hv IH]; intros u.
    + destruct u; constructor.
    + destruct u as [| a u]; simpl; constructor; [| apply IH].
      apply is_zero_Fin in Hb as (q & -> & Hq).
      destruct a as [p | | |]; simpl.
      * left. unfold is_zero. simpl. rewrite Hq. ring.
      * right. unfold signed_inf. now rewrite (proj1 (Qeq_alt q 0) Hq).
      * right. unfold signed_inf.
        assert (Hq' : (- q == 0)%Q) by (rewrite Hq; reflexivity).
        now rewrite (proj1 (Qeq_alt (- q) 0) Hq').
      * now right.
  - apply is_zero_Fin in Hz as (q & -> & Hq). apply ltb_Fin_false. rewrite Hq.
    apply Qle_refl.
  - reflexivity.
Qed.

(** The limits leave a zero increment alone: the ratio of a clip has the
    increment as its denominator, so it is an infinity or not-a-number,
    and it is applied only when its magnitude is below one. *)
Lemma clipAcceleration_zero (period : double) (prev acc : Vector) (i : nat)
    (bounds : VariableBounds) (delta : Vector) :
  Forall is_zero delta -> clipAcceleration period prev acc i bounds delta = delta.
Proof.
  intros Hz. unfold clipAcceleration.
  pose proof (lookup_total_zero delta i Hz) as Hi.
  apply is_zero_Fin in Hi as (q & Hq & Hq0).
  destruct (acceleration_bounded_ _); [| reflexivity].
  destruct (acc !!! i <? _); [| destruct (acc !!! i >? _)]; cbv zeta iota beta;
    try reflexivity; rewrite Hq, (div_by_zero_not_small _ q Hq0); reflexivity.
Qed.

Lemma clipVelocity_zero (period : double) (i : nat) (bounds : VariableBounds)
    (delta vel : Vector) :
  Forall is_zero delta -> fst (clipVelocity period i bounds (delta, vel)) = delta.
Proof.
  intros Hz. unfold clipVelocity.
  pose proof (lookup_total_zero delta i Hz) as Hi.
  apply is_zero_Fin in Hi as (q & Hq & Hq0).
  destruct (velocity_bounded_ _); [| reflexivity].
  destruct (_ <? min_velocity_ _); [| destruct (_ >? max_velocity_ _)]; cbv zeta iota beta;
    try reflexivity; rewrite Hq, (div_by_zero_not_small _ q Hq0); reflexivity.
Qed.

Lemma enforce_joint_zero (period : double) (prev acc : Vector) (i : nat) (joint : JointModel)
    (delta vel : Vector) :
  Forall is_zero delta ->
  fst (enforce_joint period prev acc i joint (delta, vel)) = delta.
Proof.
  intros Hz. unfold enforce_joint. cbn [fst snd].
  rewrite clipAcceleration_zero by exact Hz. now apply clipVelocity_zero.
Qed.

Lemma enforce_loop_zero (period : double) (prev acc : Vector) (joints : JointModelGroup)
    (i : nat) (delta vel : Vector) :
  Forall is_zero delta ->
  fst (enforce_loop period prev acc i joints (delta, vel)) = delta.
Proof.
  revert i vel. induction joints as [| joint joints IH]; intros i vel Hz; [reflexivity |].
  simpl.
  pose proof (enforce_joint_zero period prev acc i joint delta vel Hz) as H1.
  destruct (enforce_joint period prev acc i joint (delta, vel)) as [delta' vel'].
  simpl in H1. subst delta'. now apply IH.
Qed.

Lemma enforceSRDFAccelVelLimits_zero (s : ServoCalcs) (delta : Vector) :
  Forall is_zero delta -> enforceSRDFAccelVelLimits s delta = delta.
Proof. intros Hz. unfold enforceSRDFAccelVelLimits. now apply enforce_loop_zero. Qed.

Lemma twist_components_zeroUncontrolled (t : Twist) :
  twist_components (zeroUncontrolled (replicate 6 false) t) = replicate 6 zero.
Proof. reflexivity. Qed.

Lemma rotateTwist_zero (rotation : Matrix) (t : Twist) :
  Forall (Forall finite) rotation ->
  Forall is_zero (twist_components t) ->
  Forall is_zero (twist_components (rotateTwist rotation t)).
Proof.
  intros Hr Ht. unfold twist_components in Ht.
  repeat (apply Forall_cons in Ht as [? Ht]).
  unfold rotateTwist, twist_components. cbn [twist_linear twist_angular x y z].
  repeat constructor; apply lookup_total_zero; apply mat_vec_mul_zero; auto;
    repeat constructor; assumption.
Qed.

Lemma scaleCartesianCommand_zero (s : ServoCalcs) (cmd : TwistStamped) :
  is_unitless s || is_speed_units s = true ->
  finite (linear_scale (parameters_ s)) ->
  finite (rotational_scale (parameters_ s)) ->
  finite (publish_period (parameters_ s)) ->
  Forall is_zero (twist_components (twist cmd)) ->
  Forall is_zero (scaleCartesianCommand s cmd).
Proof.
  intros Hty Hl Hr Hp Hz. unfold twist_components in Hz.
  repeat (apply Forall_cons in Hz as [? Hz]).
  apply finite_Fin in Hl as [l Hl], Hr as [r Hr], Hp as [p Hp].
  unfold scaleCartesianCommand. rewrite Hl, Hr, Hp.
  destruct (is_unitless s); [| destruct (is_speed_units s); [| discriminate]];
    repeat constructor;
    first [ apply mul_zero_r; [exact I | assumption]
          | apply mul_zero_l; [assumption | exact I] ].
Qed.

Lemma removeDimension_zero (jacobian : Matrix) (delta_x : Vector) (row : nat) :
  Forall is_zero delta_x -> Forall is_zero (snd (removeDimension jacobian delta_x row)).
Proof.
  intros Hz. unfold removeDimension.
  destruct (row <? length jacobian - 1)%nat; simpl.
  - apply Forall_take. repeat apply Forall_app_2; auto using Forall_take, Forall_drop.
  - now apply Forall_take.
Qed.

Lemma removeDriftDimensions_zero (drift : list bool) (jacobian : Matrix) (delta_x : Vector) :
  Forall is_zero delta_x ->
  Forall is_zero (snd (removeDriftDimensions drift jacobian delta_x)).
Proof.
  unfold removeDriftDimensions. generalize (reverse (seq 0 (length jacobian))).
  intros dims. revert jacobian delta_x.
  induction dims as [| d dims IH]; intros jacobian delta_x Hz; [exact Hz |].
  simpl. destruct (drift !!! d && (1 <? length jacobian)%nat).
  - pose proof (removeDimension_zero jacobian delta_x d Hz) as H.
    destruct (removeDimension jacobian delta_x d) as [j' dx']. now apply IH.
  - now apply IH.
Qed.

(** The outgoing builder keeps the increment; it keeps the status too,
    unless the position check fails, which sets [JOINT_BOUND]. *)
Lemma convertDeltas_delta_status (t : Time) (traj : JointTrajectory) (s : ServoCalcs) :
  let r := convertDeltasToOutgoingCmd t traj s in
  delta_theta_ (snd r) = delta_theta_ s /\
  (status_ (snd r) = status_ s \/
   (status_ (snd r) = JOINT_BOUND /\ enforceSRDFPositionLimits (snd r) = false)).
Proof.
  unfold convertDeltasToOutgoingCmd.
  cbn [internal_joint_state_ set_internal_joint_state_ delta_theta_ parameters_].
  destruct (addJointIncrements _ _) as [ok position'] eqn:Eadd.
  destruct ok; cbn [negb]; cbv iota; [| split; [reflexivity | left; reflexivity]].
  unfold lowPassFilterPositions.
  cbn [internal_joint_state_ set_internal_joint_state_ position_filters_ position].
  destruct (lowPassFilter_loop _ _ _) as [filters position''] eqn:Eflt.
  match goal with
  | |- context [enforceSRDFPositionLimits ?s3] =>
      destruct (enforceSRDFPositionLimits s3) eqn:Elim
  end; cbn [negb]; cbv iota beta;
    destruct (use_gazebo (parameters_ s)); cbn [snd fst];
    (split; [reflexivity |]); try (left; reflexivity).
  - right. split; [reflexivity |]. rewrite <- Elim.
    apply enforceSRDFPositionLimits_ext; reflexivity.
  - right. split; [reflexivity |]. rewrite <- Elim.
    apply enforceSRDFPositionLimits_ext; reflexivity.
Qed.

Lemma commandInPlanningFrame_zero (s : ServoCalcs) (pf cf : string) :
  control_dimensions_ s = replicate 6 false ->
  (forall cmd, finite_matrix (commandRotation s pf cf cmd)) ->
  Forall is_zero (twist_components (twist (commandInPlanningFrame s pf cf))).
Proof.
  intros Hcd Hrot. unfold commandInPlanningFrame, transformToPlanningFrame. rewrite Hcd.
  cbn [twist_header twist].
  destruct (negb _); cbn [twist].
  - apply rotateTwist_zero; [apply Hrot |].
    rewrite twist_components_zeroUncontrolled. repeat constructor; apply is_zero_zero.
  - rewrite twist_components_zeroUncontrolled. repeat constructor; apply is_zero_zero.
Qed.

Lemma scale_zero (c : double) (v : Vector) :
  finite c -> Forall is_zero v -> Forall is_zero (scale c v).
Proof.
  intros Hc Hv. unfold scale. apply Forall_fmap. eapply Forall_impl; [exact Hv |].
  intros d Hd. simpl. now apply mul_zero_r.
Qed.

(** Without a collision halt, now or stored, the velocity scaling is the
    product with the two scales. *)
Lemma applyVelocityScaling_scales (sc : double) (s : ServoCalcs) :
  (collision_velocity_scale_ s ==? zero) = false ->
  status_ s <> HALT_FOR_COLLISION ->
  applyVelocityScaling sc s
  = set_delta_theta_ (scale (collision_velocity_scale_ s * sc) (delta_theta_ s)) s.
Proof.
  intros Hc Hst. unfold applyVelocityScaling. rewrite Hc.
  cbn [status_ set_delta_theta_]. destruct (decide _) as [Hbad | _]; [contradiction |].
  reflexivity.
Qed.

(** C9, as amended.  In a Cartesian servo calculation with all six
    control dimensions off, for a twist that passes the not-a-number and
    range tests, a command type that is unitless or speed units, finite
    scale factors, period, rotation and pseudo-inverse, a finite non-zero
    collision scale and the status [NO_WARNING] at the start: the
    increment [delta_theta_] is the zero vector (no clip changes it, the
    ratio of a clip being applied only when its magnitude is below one),
    and the status is [NO_WARNING] at the end unless the position check
    of the outgoing builder fails, in which case it is [JOINT_BOUND]. *)
Theorem uncontrolled_twist_gives_zero_increment
    (t : Time) (traj : JointTrajectory) (pf cf : string) (s : ServoCalcs) :
  control_dimensions_ s = replicate 6 false ->
  existsb isnan (twist_components (twist (twist_stamped_cmd_ s))) = false ->
  is_unitless s &&
    existsb (fun c => fabs c >? one) (twist_components (twist (twist_stamped_cmd_ s))) = false ->
  is_unitless s || is_speed_units s = true ->
  finite (linear_scale (parameters_ s)) ->
  finite (rotational_scale (parameters_ s)) ->
  finite (publish_period (parameters_ s)) ->
  (forall cmd, finite_matrix (commandRotation s pf cf cmd)) ->
  finite_matrix (cartesianPseudoInverse s pf cf) ->
  finite (collision_velocity_scale_ s) ->
  (collision_velocity_scale_ s ==? zero) = false ->
  status_ s = NO_WARNING ->
  let r := cartesianServoCalcs t traj pf cf s in
  Forall is_zero (delta_theta_ (snd r)) /\
  (status_ (snd r) = NO_WARNING \/
   (status_ (snd r) = JOINT_BOUND /\ enforceSRDFPositionLimits (snd r) = false)).
Proof.
  intros Hcd Hnan Hrange Hty Hl Hr Hp Hrot Hpinv Hcf Hc0 Hst.
  unfold cartesianServoCalcs, cartesianSingularity. rewrite Hnan, Hrange.
  pose proof (commandInPlanningFrame_zero s pf cf Hcd Hrot) as Hcmd.
  unfold cartesianPseudoInverse, cartesianProblem in Hpinv.
  set (cmd := commandInPlanningFrame s pf cf) in *.
  assert (Hdx : Forall is_zero (snd (reducedProblem (set_twist_stamped_cmd_ cmd s) cmd))).
  { unfold reducedProblem. apply removeDriftDimensions_zero.
    apply scaleCartesianCommand_zero; assumption. }
  destruct (reducedProblem (set_twist_stamped_cmd_ cmd s) cmd) as [jacobian delta_x].
  cbn [fst snd] in Hpinv, Hdx.
  set (svd := JacobiSVD jacobian) in *.
  pose proof (mat_vec_mul_zero _ _ Hpinv Hdx) as Hd0.
  cbn [delta_theta_ set_delta_theta_].
  rewrite (enforceSRDFAccelVelLimits_zero _ _ Hd0).
  set (s1 := set_delta_theta_ _ (set_delta_theta_ _ (set_twist_stamped_cmd_ cmd s))).
  assert (Hramp : velocityScalingFactorForSingularity delta_x svd (pseudoInverse svd) s1
                  = (one, snd (lookAhead (col (matrixU svd) (length delta_x - 1))
                                 (pseudoInverse svd) s1))).
  { unfold velocityScalingFactorForSingularity.
    destruct (lookAhead _ _ s1) as [k' s2]. cbn [snd].
    apply singularityRamp_away. now apply dot_zero_not_positive. }
  rewrite Hramp. unfold lookAhead. cbn [snd].
  rewrite applyVelocityScaling_scales;
    [| exact Hc0 | change (status_ s <> HALT_FOR_COLLISION); rewrite Hst; discriminate].
  unfold commitDeltas.
  match goal with
  | |- context [convertDeltasToOutgoingCmd t traj ?s3] =>
      destruct (convertDeltas_delta_status t traj s3) as [Hdelta Hstatus]
  end.
  cbv zeta. split.
  - rewrite Hdelta.
    change (Forall is_zero
              (scale (collision_velocity_scale_ s * one) (mat_vec_mul (pseudoInverse svd) delta_x))).
    apply scale_zero; [| exact Hd0].
    apply finite_Fin in Hcf as [c ->]. exact I.
  - destruct Hstatus as [Hsame | Hbound]; [left | right; exact Hbound].
    rewrite Hsame. exact Hst.
Qed.

End ZeroCommand.

(** ** The collision halt is kept in the status *)

Section CollisionLatch.
Context {C : Collaborators}.

(** With the status [HALT_FOR_COLLISION] stored, the velocity scaling
    zeroes the increment, whatever the collision scale is now. *)
Lemma applyVelocityScaling_latched (sc : double) (s : ServoCalcs) :
  status_ s = HALT_FOR_COLLISION ->
  delta_theta_ (applyVelocityScaling sc s) = Zero (length (delta_theta_ s)) /\
  status_ (applyVelocityScaling sc s) = HALT_FOR_COLLISION.
Proof.
  intros Hst. unfold applyVelocityScaling.
  destruct (collision_velocity_scale_ s ==? zero);
    cbn [status_ set_status_ set_delta_theta_ delta_theta_];
    rewrite ?Hst; (destruct (decide _) as [_ | Hbad]; [| contradiction]);
    cbn [status_ set_status_ set_delta_theta_ delta_theta_];
    unfold setZero, scale, Zero; rewrite length_fmap; auto.
Qed.

(** The singularity scaling of a Cartesian cycle leaves the status as it
    is or sets one of the two singularity statuses. *)
Lemma cartesianSingularity_status (pf cf : string) (s : ServoCalcs) :
  let s' := snd (cartesianSingularity pf cf s) in
  status_ s' = status_ s \/
  status_ s' = DECELERATE_FOR_SINGULARITY \/
  status_ s' = HALT_FOR_SINGULARITY.
Proof.
  unfold cartesianSingularity.
  destruct (reducedProblem _ _) as [jacobian delta_x].
  unfold velocityScalingFactorForSingularity.
  destruct (lookAhead _ _ _) as [k' s1] eqn:E.
  assert (Hs1 : status_ s1 = status_ s).
  { change s1 with (snd (k', s1)). rewrite <- E. reflexivity. }
  match goal with
  | |- context [singularityRamp ?d ?k s1] =>
      destruct (singularityRamp_cases d k s1) as [H | [H | (_ & _ & H)]]; rewrite H
  end; cbn [snd status_ set_status_]; auto.
Qed.

(** C10, as amended.  When a servo calculation starts with the status
    [HALT_FOR_COLLISION], the velocity scaling zeroes the increment
    whatever the collision scale is at that time: in a joint calculation,
    and in a Cartesian calculation whose singularity scaling has not
    overwritten the status.  The increment is zero at the end of the
    calculation, and the status is still [HALT_FOR_COLLISION] unless the
    position check of the outgoing builder has failed, which overwrites
    it with [JOINT_BOUND]. *)
Theorem collision_halt_is_latched (t : Time) (traj : JointTrajectory) (s : ServoCalcs) :
  status_ s = HALT_FOR_COLLISION ->
  (existsb isnan (velocities (joint_servo_cmd_ s)) = false ->
   let r := jointServoCalcs t traj s in
   Forall (fun d => d = zero) (delta_theta_ (snd r)) /\
   (status_ (snd r) = HALT_FOR_COLLISION \/
    (status_ (snd r) = JOINT_BOUND /\ enforceSRDFPositionLimits (snd r) = false))) /\
  (forall pf cf,
     existsb isnan (twist_components (twist (twist_stamped_cmd_ s))) = false ->
     is_unitless s &&
       existsb (fun c => fabs c >? one) (twist_components (twist (twist_stamped_cmd_ s)))
     = false ->
     status_ (snd (cartesianSingularity pf cf s)) = HALT_FOR_COLLISION ->
     let r := cartesianServoCalcs t traj pf cf s in
     Forall (fun d => d = zero) (delta_theta_ (snd r)) /\
     (status_ (snd r) = HALT_FOR_COLLISION \/
      (status_ (snd r) = JOINT_BOUND /\ enforceSRDFPositionLimits (snd r) = false))).
Proof.
  intros Hst.
  assert (Htail : forall sc s1,
            status_ s1 = HALT_FOR_COLLISION ->
            let r := commitDeltas t traj (applyVelocityScaling sc s1) in
            Forall (fun d => d = zero) (delta_theta_ (snd r)) /\
            (status_ (snd r) = HALT_FOR_COLLISION \/
             (status_ (snd r) = JOINT_BOUND /\ enforceSRDFPositionLimits (snd r) = false))).
  { intros sc s1 Hs1.
    destruct (applyVelocityScaling_latched sc s1 Hs1) as [Hd Hs].
    unfold commitDeltas.
    match goal with
    | |- context [convertDeltasToOutgoingCmd t traj ?s3] =>
        destruct (convertDeltas_delta_status t traj s3) as [Hdelta Hstatus]
    end.
    cbv zeta. split.
    - rewrite Hdelta. cbn [delta_theta_ set_prev_joint_velocity_]. rewrite Hd.
      unfold Zero. apply Forall_forall. intros d Hin.
      now apply elem_of_replicate in Hin as [-> _].
    - destruct Hstatus as [Hsame | Hbound]; [left | right; exact Hbound].
      rewrite Hsame. exact Hs. }
  split.
  - intros Hnan. unfold jointServoCalcs. rewrite Hnan. apply Htail. exact Hst.
  - intros pf cf Hnan Hrange Hsing. unfold cartesianServoCalcs. rewrite Hnan, Hrange.
    destruct (cartesianSingularity pf cf s) as [sc s1]. apply Htail. exact Hsing.
Qed.

End CollisionLatch.

(** ** Published velocities stay within the velocity bounds *)

Section VelocityBounds.
Context {C : Collaborators}.






Lemma zero_within (joint : JointModel) :
  straddles_zero joint -> within_velocity_bounds joint zero.
Proof. intros Hs Hb. exact (Hs Hb). Qed.








Lemma finite_lookup_total (delta : Vector) (i : nat) :
  Forall finite delta -> exists d, delta !!! i = Fin d.
Proof.
  intros Hfin. destruct (delta !! i) as [v |] eqn:E.
  - rewrite (list_lookup_total_correct _ _ _ E).
    apply finite_Fin. eapply Forall_lookup_1; eauto.
  - rewrite list_lookup_total_alt, E. now exists 0%Q.
Qed.










End VelocityBounds.


Section VelocityBoundsCycle.
Context {C : Collaborators}.


Lemma zeros_within (group : JointModelGroup) (n : nat) :
  Forall straddles_zero group -> velocities_within group (replicate n zero).
Proof.
  intros Hs k v joint Hk Hj. apply lookup_replicate in Hk as [-> _].
  apply zero_within. eapply Forall_lookup_1; eauto.
Qed.

Lemma empty_within (group : JointModelGroup) : velocities_within group [].
Proof. intros k v joint Hk. discriminate. Qed.


















End VelocityBoundsCycle.

Section VelocityBoundsRun.
Context {C : Collaborators}.

Lemma within_velocity_boundsb_spec (joint : JointModel) (v : double) :
  within_velocity_boundsb joint v = true -> within_velocity_bounds joint v.
Proof.
  unfold within_velocity_boundsb, within_velocity_bounds. intros H Hb.
  rewrite Hb in H. cbn [negb orb] in H. now apply andb_true_iff in H.
Qed.

Lemma velocities_withinb_spec (group : JointModelGroup) (vs : Vector) :
  velocities_withinb group vs = true -> velocities_within group vs.
Proof.
  revert vs. induction group as [| joint group IH]; intros vs H i v j Hv Hj.
  - discriminate.
  - destruct vs as [| v0 vs]; [discriminate |].
    cbn [velocities_withinb] in H. apply andb_true_iff in H as [H0 H].
    destruct i as [| i]; cbn in Hv, Hj.
    + injection Hv as <-. injection Hj as <-. now apply within_velocity_boundsb_spec.
    + eapply IH; eauto.
Qed.

Lemma trajectory_withinb_spec (group : JointModelGroup) (t : JointTrajectory) :
  trajectory_withinb group t = true -> trajectory_within group t.
Proof.
  unfold trajectory_withinb, trajectory_within. intros H.
  apply List.Forall_forall. intros pt Hin. apply velocities_withinb_spec.
  rewrite forallb_forall in H. now apply H.
Qed.

(** The other direction: what is within the bounds passes the decision
    procedures. *)
Lemma within_velocity_bounds_decided (joint : JointModel) (v : double) :
  within_velocity_bounds joint v -> within_velocity_boundsb joint v = true.
Proof.
  unfold within_velocity_boundsb, within_velocity_bounds. intros H.
  destruct (velocity_bounded_ (getVariableBounds joint)); [| reflexivity].
  destruct (H eq_refl) as [-> ->]. reflexivity.
Qed.

Lemma velocities_within_decided (group : JointModelGroup) (vs : Vector) :
  velocities_within group vs -> velocities_withinb group vs = true.
Proof.
  revert vs. induction group as [| joint group IH]; intros vs H; [reflexivity |].
  destruct vs as [| v vs]; [reflexivity |].
  cbn [velocities_withinb]. apply andb_true_iff. split.
  - apply within_velocity_bounds_decided. exact (H 0%nat v joint eq_refl eq_refl).
  - apply IH. intros i w j Hw Hj. exact (H (S i) w j Hw Hj).
Qed.

Lemma published_within_decided (p : ServoParameters) (group : JointModelGroup)
    (out : option OutgoingCmd) :
  published_within p group out -> published_withinb p group out = true.
Proof.
  destruct out as [[t | data] |]; cbn [published_within published_withinb]; intros H.
  - unfold trajectory_within in H. unfold trajectory_withinb.
    apply forallb_forall. intros pt Hin. apply velocities_within_decided.
    rewrite List.Forall_forall in H. now apply H.
  - destruct (publish_joint_positions p); [reflexivity |].
    apply velocities_within_decided. now apply H.
  - reflexivity.
Qed.

Lemma VelocitiesKeptb_spec (s : ServoCalcs) : VelocitiesKeptb s = true -> VelocitiesKept s.
Proof.
  unfold VelocitiesKeptb, VelocitiesKept. intros H.
  apply andb_true_iff in H as [H H3]. apply andb_true_iff in H as [H1 H2].
  split; [now apply velocities_withinb_spec |].
  split; [now apply velocities_withinb_spec | now apply trajectory_withinb_spec].
Qed.

Lemma Configuredb_spec (s : ServoCalcs) : Configuredb s = true -> Configured s.
Proof.
  unfold Configuredb, Configured, positive. intros H.
  destruct (publish_period (parameters_ s)) as [p | | |]; try discriminate.
  destruct (lower_singularity_threshold (parameters_ s)) as [l | | |]; try discriminate.
  destruct (hard_stop_singularity_threshold (parameters_ s)) as [h | | |]; try discriminate.
  apply andb_true_iff in H as [H1 H2].
  split; [split; [exact I | exact H1] |].
  split; [exact I |]. split; [exact I |].
  apply List.Forall_forall. intros joint Hin. rewrite forallb_forall in H2.
  apply (within_velocity_boundsb_spec joint zero). now apply H2.
Qed.




(** X16.  The servo as constructed holds velocities within the bounds:
    the velocities of its joint state and of its initial trajectory are
    zeros, and every velocity interval has zero inside. *)
Lemma ServoCalcs_new_kept (defaults : ServoCalcs) (parameters : ServoParameters)
    (kinematic_model_defaults : RobotState) (group : JointModelGroup)
    (latest_joints : JointState) (t : Time) :
  Forall straddles_zero group ->
  velocities_within group (velocity (original_joint_state_ defaults)) ->
  VelocitiesKept
    (ServoCalcs_new defaults parameters kinematic_model_defaults group latest_joints t).
Proof.
  intros Hs Ho. unfold VelocitiesKept, ServoCalcs_new. cbn.
  split; [now apply zeros_within |]. split; [exact Ho |].
  unfold trajectory_within. cbn. apply Forall_singleton. cbn.
  destruct (publish_joint_velocities parameters); [now apply zeros_within | apply empty_within].
Qed.

(** The callbacks and the services leave the held velocities alone. *)
Lemma handle_kept (e : Event) (s : ServoCalcs) :
  (forall input, e <> TimerEvent input) ->
  VelocitiesKept s -> VelocitiesKept (handle e s).
Proof.
  intros Hne HK. destruct e; try exact HK. now destruct (Hne input).
Qed.

End VelocityBoundsRun.

(** ** The helpers that read and scale the commands *)

Section Commands.
Context {C : Collaborators}.

Lemma all_zeros_loop (velocities : Vector) (all_zeros : bool) :
  foldl (fun acc delta => acc && (delta ==? zero)) all_zeros velocities
  = all_zeros && forallb (fun delta => delta ==? zero) velocities.
Proof.
  revert all_zeros. induction velocities as [| delta velocities IH]; intros all_zeros; simpl.
  - now rewrite andb_true_r.
  - rewrite IH. now rewrite andb_assoc.
Qed.

(** X1.  [isNonZero] of a joint jog answers [false] exactly when every
    velocity of the message compares equal to zero; a message without
    velocities is zero, and a velocity that is not a number makes the
    message non-zero. *)
Theorem isNonZero_jog_false_iff (msg : JointJog) :
  isNonZero_jog msg = false <->
  Forall (fun delta => (delta ==? zero) = true) (velocities msg).
Proof.
  unfold isNonZero_jog. rewrite all_zeros_loop, negb_false_iff. cbn [andb].
  induction (velocities msg) as [| delta l IH]; simpl.
  - split; [constructor | reflexivity].
  - rewrite andb_true_iff, IH. split.
    + intros [H1 H2]. now constructor.
    + intros H. apply Forall_cons in H. exact H.
Qed.

Lemma eqb_zero_not_nan (c : double) : (c !=? zero) = false -> isnan c = false.
Proof. destruct c; simpl; intros H; first [reflexivity | discriminate H]. Qed.

(** X2.  A twist that [isNonZero] reports as zero has no component that
    is not a number: a twist with such a component always counts as a
    non-zero command, and so reaches the test that rejects it. *)
Theorem zero_twist_has_no_nan (msg : TwistStamped) :
  isNonZero_twist msg = false ->
  existsb isnan (twist_components (twist msg)) = false.
Proof.
  unfold isNonZero_twist, twist_components. intros H.
  repeat match type of H with
         | (_ || _) = false => apply orb_false_elim in H as [H ?]
         end.
  cbn [existsb].
  repeat match goal with
         | E : (_ !=? zero) = false |- _ => apply eqb_zero_not_nan in E; rewrite E; clear E
         end.
  reflexivity.
Qed.

Lemma scale_loop_spec (s : ServoCalcs) (command : JointJog)
    (l : list (nat * string)) (result : Vector) :
  let step := fun (result : Vector) '(m, joint_name) =>
    match joint_state_name_map_ s !! joint_name with
    | None => result
    | Some c =>
        if is_unitless s then
          <[c := velocities command !!! m * joint_scale (parameters_ s)
                 * publish_period (parameters_ s)]> result
        else if is_speed_units s then
          <[c := velocities command !!! m * publish_period (parameters_ s)]> result
        else result
    end in
  length (foldl step result l) = length result /\
  forall c, (forall m n, (m, n) ∈ l -> joint_state_name_map_ s !! n <> Some c) ->
            foldl step result l !! c = result !! c.
Proof.
  intros step. revert result. induction l as [| [m n] l IH]; intros result.
  - split; [reflexivity | intros; reflexivity].
  - cbn [foldl]. destruct (IH (step result (m, n))) as [IHlen IHkeep].
    assert (Hstep : length (step result (m, n)) = length result /\
                    forall c, joint_state_name_map_ s !! n <> Some c ->
                              step result (m, n) !! c = result !! c).
    { unfold step. destruct (joint_state_name_map_ s !! n) as [c0 |]; [| now split].
      destruct (is_unitless s); [| destruct (is_speed_units s)];
        first [ split; [apply length_insert |];
                intros c Hc; apply list_lookup_insert_ne; congruence
              | now split ]. }
    destruct Hstep as [Hlen Hkeep]. split; [congruence |].
    intros c Hc. rewrite IHkeep.
    + apply Hkeep. apply (Hc m n). left.
    + intros m' n' Hin. apply (Hc m' n'). now right.
Qed.

(** X3.  [scaleJointCommand] returns one increment per joint of the
    group, and the increment of a joint that no name of the command maps
    to is zero: joints the command does not name stay still, and names
    the servo does not know change nothing. *)
Theorem scaleJointCommand_unnamed_joints (s : ServoCalcs) (command : JointJog) :
  length (scaleJointCommand s command) = num_joints_ s /\
  forall c, (c < num_joints_ s)%nat ->
            (forall n, n ∈ joint_names command -> joint_state_name_map_ s !! n <> Some c) ->
            scaleJointCommand s command !! c = Some zero.
Proof.
  unfold scaleJointCommand.
  destruct (scale_loop_spec s command
              (imap (fun m joint_name => (m, joint_name)) (joint_names command))
              (Zero (num_joints_ s))) as [Hlen Hkeep].
  cbv zeta in Hlen, Hkeep. split.
  - rewrite Hlen. apply length_replicate.
  - intros c Hc Hun. rewrite Hkeep.
    + apply lookup_replicate_2. exact Hc.
    + intros m n Hin. apply elem_of_lookup_imap in Hin as (i & n' & Heq & Hi).
      injection Heq as -> ->. apply Hun. eapply list_elem_of_lookup_2. exact Hi.
Qed.

Lemma addJointIncrements_true (output_position increments : Vector) :
  fst (addJointIncrements output_position increments) = true /\
  length (snd (addJointIncrements output_position increments)) = length output_position.
Proof.
  revert output_position.
  induction increments as [| d increments IH]; intros output_position.
  - destruct output_position; simpl; split; reflexivity.
  - destruct output_position as [| p output]; simpl; [split; reflexivity |].
    specialize (IH output). destruct (addJointIncrements output increments) as [ok rest].
    simpl in *. destruct IH as [-> ->]. split; reflexivity.
Qed.

(** X4.  [addJointIncrements] returns [true] for every input and keeps
    the number of positions: its handler of [std::out_of_range] is never
    entered.  So [convertDeltasToOutgoingCmd] returns [true] for every
    input as well: a servo calculation answers [false] only when it
    rejects its command. *)
Theorem outgoing_builder_never_fails (now : Time) (joint_trajectory : JointTrajectory)
    (s : ServoCalcs) (output_position increments : Vector) :
  fst (addJointIncrements output_position increments) = true /\
  length (snd (addJointIncrements output_position increments)) = length output_position /\
  fst (fst (convertDeltasToOutgoingCmd now joint_trajectory s)) = true.
Proof.
  destruct (addJointIncrements_true output_position increments) as [H1 H2].
  split; [exact H1 |]. split; [exact H2 |].
  unfold convertDeltasToOutgoingCmd.
  cbn [internal_joint_state_ set_internal_joint_state_ delta_theta_ parameters_].
  pose proof (addJointIncrements_true (position (original_joint_state_ s)) (delta_theta_ s))
    as [Hok _].
  destruct (addJointIncrements (position (original_joint_state_ s)) (delta_theta_ s))
    as [ok position'] eqn:E.
  cbn [fst] in Hok. subst ok. cbn [negb]. cbv iota.
  destruct (enforceSRDFPositionLimits _); reflexivity.
Qed.

(** X5.  When the increments fit, [addJointIncrements] adds them to the
    first positions, one by one, and leaves the positions beyond them as
    they are. *)
Theorem addJointIncrements_adds (output_position increments : Vector) :
  (length increments <= length output_position)%nat ->
  snd (addJointIncrements output_position increments)
  = zip_with add output_position increments ++ drop (length increments) output_position.
Proof.
  revert output_position.
  induction increments as [| d increments IH]; intros output_position Hlen.
  - destruct output_position; reflexivity.
  - destruct output_position as [| p output]; simpl in *; [lia |].
    specialize (IH output ltac:(lia)).
    destruct (addJointIncrements output increments) as [ok rest].
    simpl in *. now rewrite IH.
Qed.

Lemma delete_last_row {A : Type} (l : list A) : take (length l - 1) l = delete (length l - 1)%nat l.
Proof.
  destruct (decide (length l = 0%nat)) as [H0 | Hn].
  - apply nil_length_inv in H0. now subst.
  - rewrite delete_take_drop. rewrite (drop_ge l (S (length l - 1))) by lia.
    now rewrite app_nil_r.
Qed.

Lemma delete_inner_row {A : Type} (l : list A) (r : nat) :
  (r < length l - 1)%nat ->
  take (length l - 1)
    (take r l ++ take (length l - 1 - r) (drop (r + 1) l) ++ drop (length l - 1) l)
  = delete r l.
Proof.
  intros Hr. rewrite delete_take_drop.
  rewrite (take_ge (drop (r + 1) l)) by (rewrite length_drop; lia).
  rewrite app_assoc. replace (r + 1)%nat with (S r) by lia.
  apply take_app_length'. rewrite length_app, length_take, length_drop. lia.
Qed.

(** X6.  [removeDimension] deletes the row [row_to_remove] of the
    Jacobian and the entry [row_to_remove] of [delta_x], and keeps the
    other rows and entries in their order. *)
Theorem removeDimension_deletes_row (jacobian : Matrix) (delta_x : Vector)
    (row_to_remove : nat) :
  (row_to_remove < length jacobian)%nat ->
  length delta_x = length jacobian ->
  removeDimension jacobian delta_x row_to_remove
  = (delete row_to_remove jacobian, delete row_to_remove delta_x).
Proof.
  intros Hr Hlen. unfold removeDimension.
  destruct (row_to_remove <? length jacobian - 1)%nat eqn:E.
  - apply Nat.ltb_lt in E. f_equal.
    + now apply delete_inner_row.
    + rewrite <- Hlen in *. now apply delete_inner_row.
  - apply Nat.ltb_ge in E.
    assert (row_to_remove = length jacobian - 1)%nat as -> by lia. f_equal.
    + apply delete_last_row.
    + rewrite <- Hlen. apply delete_last_row.
Qed.

Lemma removeDimension_rows (jacobian : Matrix) (delta_x : Vector) (row_to_remove : nat) :
  length (fst (removeDimension jacobian delta_x row_to_remove)) = (length jacobian - 1)%nat.
Proof.
  unfold removeDimension. destruct (_ <? _)%nat eqn:E; cbn [fst].
  - apply Nat.ltb_lt in E.
    rewrite length_take, !length_app, !length_take, !length_drop. lia.
  - rewrite length_take. lia.
Qed.

Lemma drift_loop_rows (drift_dimensions : list bool) (dimensions : list nat)
    (jacobian : Matrix) (delta_x : Vector) :
  let r := foldl
             (fun '(jacobian, delta_x) dimension =>
                if (drift_dimensions !!! dimension) && (1 <? length jacobian)%nat
                then removeDimension jacobian delta_x dimension
                else (jacobian, delta_x))
             (jacobian, delta_x) dimensions in
  (1 <= length jacobian)%nat ->
  (1 <= length (fst r) <= length jacobian)%nat.
Proof.
  revert jacobian delta_x.
  induction dimensions as [| dimension dimensions IH]; intros jacobian delta_x r H.
  - subst r. simpl. lia.
  - subst r. cbn [foldl].
    destruct ((drift_dimensions !!! dimension) && (1 <? length jacobian)%nat) eqn:E.
    + apply andb_true_iff in E as [_ E]. apply Nat.ltb_lt in E.
      pose proof (removeDimension_rows jacobian delta_x dimension) as Hrows.
      destruct (removeDimension jacobian delta_x dimension) as [jacobian' delta_x'].
      cbn [fst] in Hrows.
      specialize (IH jacobian' delta_x' ltac:(lia)). cbv zeta in IH. lia.
    + apply (IH jacobian delta_x H).
Qed.

(** X7.  However many dimensions are allowed to drift, the loop that
    removes them leaves at least one row of the Jacobian, and never adds
    one. *)
Theorem removeDriftDimensions_keeps_a_row (drift_dimensions : list bool)
    (jacobian : Matrix) (delta_x : Vector) :
  (1 <= length jacobian)%nat ->
  (1 <= length (fst (removeDriftDimensions drift_dimensions jacobian delta_x))
   <= length jacobian)%nat.
Proof.
  intros H. unfold removeDriftDimensions.
  exact (drift_loop_rows drift_dimensions (reverse (seq 0 (length jacobian)))
           jacobian delta_x H).
Qed.

End Commands.

(** ** The outgoing trajectory *)

Section Outgoing.
Context {C : Collaborators}.

(** X8.  [calculateJointVelocities] overwrites the velocities of the
    joints that have an increment with [delta_theta / period] and keeps
    the velocities beyond the increments; the names and positions are not
    touched. *)
Theorem calculateJointVelocities_overwrites (period : double) (joint_state : JointState)
    (delta_theta : Vector) :
  velocity (calculateJointVelocities period joint_state delta_theta)
  = take (length (velocity joint_state)) (div_scalar delta_theta period)
    ++ drop (length delta_theta) (velocity joint_state) /\
  position (calculateJointVelocities period joint_state delta_theta) = position joint_state /\
  name (calculateJointVelocities period joint_state delta_theta) = name joint_state.
Proof.
  split; [| split; reflexivity].
  unfold calculateJointVelocities. cbn [velocity].
  apply list_eq. intros k.
  rewrite (assign_loop_lookup (fun i => delta_theta !!! i / period)).
  unfold div_scalar. cbn [Nat.add].
  destruct (decide (0 <= k < length delta_theta)%nat) as [[_ Hk] | Hk].
  - destruct (velocity joint_state !! k) as [v |] eqn:Ev.
    + apply lookup_lt_Some in Ev as Hv.
      rewrite lookup_app_l by (rewrite length_take, length_map; lia).
      rewrite lookup_take_lt by lia. rewrite list_lookup_fmap.
      destruct (delta_theta !! k) as [d |] eqn:Ed.
      * rewrite (list_lookup_total_correct _ _ _ Ed). reflexivity.
      * apply lookup_ge_None in Ed. lia.
    + apply lookup_ge_None in Ev. cbn. symmetry. apply lookup_ge_None.
      rewrite length_app, length_take, length_map, length_drop. lia.
  - assert (Hge : (length delta_theta <= k)%nat) by lia.
    rewrite lookup_app_r by (rewrite length_take, length_map; lia).
    rewrite length_take, length_map, lookup_drop.
    destruct (decide (length delta_theta <= length (velocity joint_state))%nat).
    + f_equal. lia.
    + rewrite (lookup_ge_None_2 (velocity joint_state) k) by lia.
      symmetry. apply lookup_ge_None_2. lia.
Qed.

(** X9.  [suddenHalt] rewrites the first point of the trajectory and
    nothing else: an empty trajectory gets one point, the points after
    the first and the header stay as they are. *)
Theorem suddenHalt_rewrites_first_point_only (s : ServoCalcs) (traj : JointTrajectory) :
  length (points (suddenHalt s traj)) = Nat.max 1 (length (points traj)) /\
  (forall i, points (suddenHalt s traj) !! S i = points traj !! S i) /\
  traj_stamp (suddenHalt s traj) = traj_stamp traj /\
  traj_joint_names (suddenHalt s traj) = traj_joint_names traj.
Proof.
  unfold suddenHalt, with_points. cbn [points traj_stamp traj_joint_names].
  destruct (points traj) as [| pt0 pts]; repeat split; reflexivity.
Qed.

(** X10.  [insertRedundantPointsIntoTrajectory] on a trajectory of one
    point gives [count] points: the first is the given point, the second
    is a default-constructed point (the loop starts at index [2]), and
    point [i], from the third on, is a copy of the first with the time
    [i * publish_period]. *)
Theorem insertRedundantPoints_layout (s : ServoCalcs) (traj : JointTrajectory)
    (count : nat) (pt : JointTrajectoryPoint) :
  points traj = [pt] ->
  (2 <= count)%nat ->
  let pts := points (insertRedundantPointsIntoTrajectory s traj count) in
  length pts = count /\
  pts !! 0%nat = Some pt /\
  pts !! 1%nat = Some JointTrajectoryPoint_default /\
  forall i, (2 <= i < count)%nat ->
    pts !! i = Some {| positions := positions pt;
                       point_velocities := point_velocities pt;
                       accelerations := accelerations pt;
                       time_from_start :=
                         Fin (inject_Z (Z.of_nat i)) * publish_period (parameters_ s) |}.
Proof.
  intros Hpts Hcount pts. subst pts.
  unfold insertRedundantPointsIntoTrajectory, with_points. cbn [points]. rewrite Hpts.
  set (resized := resize count JointTrajectoryPoint_default [pt]).
  assert (Hlen : length resized = count) by apply length_resize.
  assert (H0 : resized !! 0%nat = Some pt).
  { subst resized. destruct count as [| n]; [lia | reflexivity]. }
  assert (H1 : resized !! 1%nat = Some JointTrajectoryPoint_default).
  { subst resized. destruct count as [| [| n]]; [lia | lia | reflexivity]. }
  rewrite (list_lookup_total_correct _ _ _ H0).
  set (g := fun i : nat =>
              {| positions := positions pt; point_velocities := point_velocities pt;
                 accelerations := accelerations pt;
                 time_from_start :=
                   Fin (inject_Z (Z.of_nat i)) * publish_period (parameters_ s) |}).
  change (foldl _ resized (seq 2 (count - 2)))
    with (foldl (fun l i => <[i := g i]> l) resized (seq 2 (count - 2))).
  split; [now rewrite assign_loop_length |].
  rewrite !assign_loop_lookup.
  split; [destruct (decide _); [lia | exact H0] |].
  split; [destruct (decide _); [lia | exact H1] |].
  intros i Hi. rewrite assign_loop_lookup.
  destruct (decide _) as [_ | Hn]; [| lia].
  destruct (resized !! i) eqn:E; [reflexivity |].
  apply lookup_ge_None in E. lia.
Qed.

Lemma halting_loop_false (s : ServoCalcs) (joints : JointModelGroup) :
  Forall (fun joint => joint_halts s joint = false) joints ->
  foldl (fun halting joint => if joint_halts s joint then true else halting) false joints
  = false.
Proof.
  induction 1 as [| joint joints Hj _ IH]; [reflexivity |].
  cbn [foldl]. now rewrite Hj.
Qed.

(** X11.  A robot at rest is never halted by the position check:
    when the velocity the kinematic state holds for every joint of the
    group is zero, [enforceSRDFPositionLimits] answers [true], wherever
    the joints are. *)
Theorem enforceSRDFPositionLimits_at_rest (s : ServoCalcs) :
  Forall (fun joint => is_zero (getJointVelocities0 joint (kinematic_state_ s)))
    (joint_model_group_ s) ->
  enforceSRDFPositionLimits s = true.
Proof.
  intros Hrest. unfold enforceSRDFPositionLimits.
  rewrite halting_loop_false; [reflexivity |].
  eapply Forall_impl; [exact Hrest |].
  intros joint Hz. cbv beta in Hz. unfold joint_halts.
  destruct (negb _); [| reflexivity].
  destruct (getVariableBoundsMsg joint) as [| limits0 ?]; [reflexivity |].
  destruct (getJointVelocities0 joint (kinematic_state_ s)) as [q | | |];
    try contradiction.
  cbn in Hz.
  assert (Hlt : (Fin q <? zero) = false).
  { apply ltb_Fin_false. rewrite Hz. apply Qle_refl. }
  assert (Hgt : (Fin q >? zero) = false).
  { unfold gtb. apply ltb_Fin_false. rewrite Hz. apply Qle_refl. }
  now rewrite Hlt, Hgt.
Qed.

End Outgoing.

(** ** The velocity scaling *)

Section Scaling.
Context {C : Collaborators}.

(** X12.  With the collision scale at zero, [applyVelocityScaling] stores
    the status [HALT_FOR_COLLISION] and returns an increment of zeros of
    the same length, whatever the increment and the singularity scale
    were. *)
Theorem collision_scale_zero_halts (singularity_scale : double) (s : ServoCalcs) :
  (collision_velocity_scale_ s ==? zero) = true ->
  status_ (applyVelocityScaling singularity_scale s) = HALT_FOR_COLLISION /\
  delta_theta_ (applyVelocityScaling singularity_scale s) = Zero (length (delta_theta_ s)).
Proof.
  intros Hz. unfold applyVelocityScaling. rewrite Hz.
  cbn [status_ set_status_ set_delta_theta_ delta_theta_].
  destruct (decide _) as [_ | Hbad]; [| contradiction].
  cbn [status_ set_status_ set_delta_theta_ delta_theta_].
  split; [reflexivity |]. unfold setZero, scale, Zero. now rewrite length_fmap.
Qed.

(** X13.  Strictly between the two thresholds, for a command toward the
    singularity, [velocityScalingFactorForSingularity] returns
    [1 - (k - lower) / (hard_stop - lower)] and stores the status
    [DECELERATE_FOR_SINGULARITY]. *)
Theorem singularity_scale_decelerates
    (commanded_velocity : Vector) (svd : SVD) (pseudo_inverse : Matrix) (s : ServoCalcs) :
  let u_last := col (matrixU svd) (length commanded_velocity - 1) in
  let k := condition_number svd in
  let probe := lookAhead u_last pseudo_inverse s in
  let r := velocityScalingFactorForSingularity commanded_velocity svd pseudo_inverse s in
  (dot (resolveSign k (fst probe) u_last) commanded_velocity >? zero) = true ->
  (k >? lower_singularity_threshold (parameters_ s)) = true ->
  (k <? hard_stop_singularity_threshold (parameters_ s)) = true ->
  fst r = one - (k - lower_singularity_threshold (parameters_ s)) /
                (hard_stop_singularity_threshold (parameters_ s)
                 - lower_singularity_threshold (parameters_ s)) /\
  status_ (snd r) = DECELERATE_FOR_SINGULARITY.
Proof.
  intros u_last k probe r Hdot Hl Hh. subst r.
  rewrite velocityScaling_as_ramp. cbv zeta. fold u_last k probe.
  rewrite (singularityRamp_between _ k (snd probe) Hdot Hl Hh).
  split; reflexivity.
Qed.

(** X14.  Strictly above the hard-stop threshold, for a command toward
    the singularity, [velocityScalingFactorForSingularity] returns [0]
    and stores the status [HALT_FOR_SINGULARITY]. *)
Theorem singularity_scale_halts
    (commanded_velocity : Vector) (svd : SVD) (pseudo_inverse : Matrix) (s : ServoCalcs) :
  let u_last := col (matrixU svd) (length commanded_velocity - 1) in
  let k := condition_number svd in
  let probe := lookAhead u_last pseudo_inverse s in
  let r := velocityScalingFactorForSingularity commanded_velocity svd pseudo_inverse s in
  (dot (resolveSign k (fst probe) u_last) commanded_velocity >? zero) = true ->
  (k >? hard_stop_singularity_threshold (parameters_ s)) = true ->
  fst r = zero /\ status_ (snd r) = HALT_FOR_SINGULARITY.
Proof.
  intros u_last k probe r Hdot Hh. subst r.
  rewrite velocityScaling_as_ramp. cbv zeta. fold u_last k probe.
  rewrite (singularityRamp_above _ k (snd probe) Hdot Hh).
  split; reflexivity.
Qed.

(** X15.  For a command that does not point toward the singularity (the
    dot product with the chosen direction is not positive, or is not a
    number), [velocityScalingFactorForSingularity] returns [1] and
    leaves the status as it was, however close the singularity is. *)
Theorem singularity_scale_moving_away
    (commanded_velocity : Vector) (svd : SVD) (pseudo_inverse : Matrix) (s : ServoCalcs) :
  let u_last := col (matrixU svd) (length commanded_velocity - 1) in
  let k := condition_number svd in
  let probe := lookAhead u_last pseudo_inverse s in
  let r := velocityScalingFactorForSingularity commanded_velocity svd pseudo_inverse s in
  (dot (resolveSign k (fst probe) u_last) commanded_velocity >? zero) = false ->
  fst r = one /\ status_ (snd r) = status_ s.
Proof.
  intros u_last k probe r Hdot. subst r.
  rewrite velocityScaling_as_ramp. cbv zeta. fold u_last k probe.
  rewrite (singularityRamp_away _ k (snd probe) Hdot).
  split; reflexivity.
Qed.

Lemma enforce_loop_mild (period : double) (prev_joint_velocity acceleration : Vector)
    (delta_theta : Vector) (joints : JointModelGroup) (i : nat) (velocity : Vector) :
  (forall k joint, joints !! k = Some joint ->
     acceleration_bounded_ (getVariableBounds joint) = true ->
     (acceleration !!! (i + k)%nat <? min_acceleration_ (getVariableBounds joint)) = false /\
     (acceleration !!! (i + k)%nat >? max_acceleration_ (getVariableBounds joint)) = false) ->
  (forall k joint, joints !! k = Some joint ->
     velocity_bounded_ (getVariableBounds joint) = true ->
     (delta_theta !!! (i + k)%nat / period <? min_velocity_ (getVariableBounds joint)) = false /\
     (delta_theta !!! (i + k)%nat / period >? max_velocity_ (getVariableBounds joint)) = false) ->
  length velocity = length delta_theta ->
  (i + length joints <= length delta_theta)%nat ->
  fst (enforce_loop period prev_joint_velocity acceleration i joints (delta_theta, velocity))
  = delta_theta.
Proof.
  revert i velocity.
  induction joints as [| joint joints IH]; intros i velocity Hacc Hvel Hlen Hi;
    [reflexivity |].
  cbn [enforce_loop length] in *.
  assert (Hstep : exists velocity',
             enforce_joint period prev_joint_velocity acceleration i joint
               (delta_theta, velocity) = (delta_theta, velocity') /\
             length velocity' = length delta_theta).
  { unfold enforce_joint, clipAcceleration, clipVelocity. cbn [fst snd].
    specialize (Hacc 0%nat joint eq_refl). specialize (Hvel 0%nat joint eq_refl).
    rewrite Nat.add_0_r in Hacc, Hvel.
    destruct (acceleration_bounded_ (getVariableBounds joint)).
    - destruct (Hacc eq_refl) as [-> ->].
      destruct (velocity_bounded_ (getVariableBounds joint)).
      + rewrite list_lookup_total_insert_eq by lia.
        destruct (Hvel eq_refl) as [-> ->].
        eexists. split; [reflexivity |]. now rewrite length_insert.
      + eexists. split; [reflexivity | exact Hlen].
    - destruct (velocity_bounded_ (getVariableBounds joint)).
      + rewrite list_lookup_total_insert_eq by lia.
        destruct (Hvel eq_refl) as [-> ->].
        eexists. split; [reflexivity |]. now rewrite length_insert.
      + eexists. split; [reflexivity | exact Hlen]. }
  destruct Hstep as (velocity' & -> & Hlen').
  apply IH; [| | exact Hlen' | lia].
  - intros k j Hj. replace (S i + k)%nat with (i + S k)%nat by lia. now apply Hacc.
  - intros k j Hj. replace (S i + k)%nat with (i + S k)%nat by lia. now apply Hvel.
Qed.

(** X17.  [enforceSRDFAccelVelLimits] changes nothing in an increment
    that asks no joint for more than its limits: when the acceleration
    and the velocity the increment stands for are inside the bounds of
    every joint that has such bounds, the increment is returned as it
    was given. *)
Theorem limits_keep_a_mild_increment (s : ServoCalcs) (delta_theta : Vector) :
  let period := publish_period (parameters_ s) in
  let velocity := div_scalar delta_theta period in
  let acceleration := div_scalar (vsub velocity (prev_joint_velocity_ s)) period in
  (forall i joint, joint_model_group_ s !! i = Some joint ->
     acceleration_bounded_ (getVariableBounds joint) = true ->
     (acceleration !!! i <? min_acceleration_ (getVariableBounds joint)) = false /\
     (acceleration !!! i >? max_acceleration_ (getVariableBounds joint)) = false) ->
  (forall i joint, joint_model_group_ s !! i = Some joint ->
     velocity_bounded_ (getVariableBounds joint) = true ->
     (velocity !!! i <? min_velocity_ (getVariableBounds joint)) = false /\
     (velocity !!! i >? max_velocity_ (getVariableBounds joint)) = false) ->
  (length (joint_model_group_ s) <= length delta_theta)%nat ->
  enforceSRDFAccelVelLimits s delta_theta = delta_theta.
Proof.
  intros period velocity acceleration Hacc Hvel Hlen.
  unfold enforceSRDFAccelVelLimits. fold period velocity acceleration.
  apply enforce_loop_mild.
  - intros k joint Hj. now apply Hacc.
  - intros k joint Hj Hb. destruct (Hvel k joint Hj Hb) as [H1 H2].
    assert (E : velocity !!! k = delta_theta !!! k / period).
    { apply lookup_lt_Some in Hj.
      destruct (delta_theta !! k) as [d |] eqn:Ed.
      - rewrite (list_lookup_total_correct _ _ _ Ed).
        apply list_lookup_total_correct. subst velocity. unfold div_scalar.
        now rewrite list_lookup_fmap, Ed.
      - apply lookup_ge_None in Ed. lia. }
    cbn [Nat.add]. rewrite <- E. now split.
  - subst velocity. unfold div_scalar. apply length_map.
  - cbn [Nat.add]. exact Hlen.
Qed.

End Scaling.

(** ** The joint-state feed *)

Section JointFeed.
Context {C : Collaborators}.

(** X18.  A joint-state message that names fewer joints than the group
    has, found while ROS is running, changes nothing in the servo and
    sends nothing but the status, the same as at the start: the event
    returns at once when a stop is requested, and otherwise the program
    sleeps and polls again.  When ROS is no longer running the wait ends
    instead, and no stop time is sent in the cycle that follows. *)
Theorem short_joint_state_is_refused (input : TickInput) (s : ServoCalcs) :
  (length (name (latest_joint_state input)) < num_joints_ s)%nat ->
  (ros_ok input = true ->
   run input s
   = ({| status_msg := status_ s; worst_case_stop_time_msg := None; outgoing_cmd := None;
         polls_again := negb (stop_requested_ s) |}, s)) /\
  (ros_ok input = false ->
   polls_again (fst (run input s)) = false /\
   worst_case_stop_time_msg (fst (run input s)) = None /\
   original_joint_state_ (snd (run input s)) = original_joint_state_ s).
Proof.
  intros Hshort. apply Nat.ltb_lt in Hshort. split; intros Hros.
  - unfold run, updateJoints. rewrite Hshort, Hros. reflexivity.
  - unfold run, updateJoints. rewrite Hshort, Hros. cbn [negb andb]. cbv iota.
    destruct (prepareCycle_frame input s) as (_ & Po & _ & _ & _ & _).
    set (b := prepareCycle input s) in *. clearbody b.
    destruct (wait_for_servo_commands_ b || paused_ b).
    { cbn. repeat split. exact Po. }
    assert (Hd : original_joint_state_ (snd (dispatch (now input) b))
                 = original_joint_state_ b).
    { unfold dispatch.
      destruct (have_nonzero_twist_stamped_ b && negb (twist_command_is_stale_ b)).
      - destruct (cartesianServoCalcs_frame (now input)
                    {| traj_stamp := 0%Q; traj_joint_names := []; points := [] |}
                    (planning_frame_ b) (robot_link_command_frame_ b) b) as [H _].
        destruct (cartesianServoCalcs _ _ _ _ _) as [[ok traj] s1].
        destruct ok; exact H.
      - destruct (have_nonzero_joint_command_ b && negb (joint_command_is_stale_ b)).
        + destruct (jointServoCalcs_frame (now input)
                      {| traj_stamp := 0%Q; traj_joint_names := []; points := [] |} b)
            as [H _].
          destruct (jointServoCalcs _ _ _) as [[ok traj] s1].
          destruct ok; exact H.
        + reflexivity. }
    destruct (dispatch (now input) b) as [[traj |] s3]; cbn [fst snd] in *.
    + assert (Hf : original_joint_state_ (snd (finishCycle (now input) traj s3))
                   = original_joint_state_ s3).
      { unfold finishCycle.
        destruct (negb (have_nonzero_command_ s3)); cbn [negb andb];
          repeat match goal with
                 | |- context [if ?c then _ else _] =>
                     lazymatch c with
                     | context [if _ then _ else _] => fail
                     | _ => destruct c
                     end
                 | |- context [outgoingMessage ?a ?b ?c] =>
                     destruct (outgoingMessage a b c)
                 end; reflexivity. }
      destruct (finishCycle (now input) traj s3) as [out s4]. cbn [fst snd] in *.
      repeat split. congruence.
    + repeat split. congruence.
Qed.

Lemma store_loop_keeps (s : ServoCalcs) (latest : JointState)
    (l : list (nat * string)) (pos : Vector) (c : nat) :
  (forall m n, (m, n) ∈ l -> joint_state_name_map_ s !! n <> Some c) ->
  foldl
    (fun pos '(m, joint_name) =>
       match joint_state_name_map_ s !! joint_name with
       | None => pos
       | Some c => <[c := position latest !!! m]> pos
       end) pos l !! c = pos !! c.
Proof.
  revert pos. induction l as [| [m n] l IH]; intros pos Hno; [reflexivity |].
  cbn [foldl]. rewrite IH.
  - destruct (joint_state_name_map_ s !! n) as [c0 |] eqn:E; [| reflexivity].
    apply list_lookup_insert_ne. intros ->. apply (Hno m n); [left | exact E].
  - intros m' n' Hin. apply (Hno m' n'). now right.
Qed.

Lemma store_loop_length (s : ServoCalcs) (latest : JointState)
    (l : list (nat * string)) (pos : Vector) :
  length
    (foldl
       (fun pos '(m, joint_name) =>
          match joint_state_name_map_ s !! joint_name with
          | None => pos
          | Some c => <[c := position latest !!! m]> pos
          end) pos l) = length pos.
Proof.
  revert pos. induction l as [| [m n] l IH]; intros pos; [reflexivity |].
  cbn [foldl]. rewrite IH.
  destruct (joint_state_name_map_ s !! n); [apply length_insert | reflexivity].
Qed.

(** X19.  An accepted joint-state message changes positions only: the
    names and the velocities of [internal_joint_state_] and the number
    of its positions are kept, [original_joint_state_] becomes a copy of
    [internal_joint_state_], and the stop time is published. *)
Theorem updateJoints_stores_positions_only (latest : JointState) (s : ServoCalcs) :
  (num_joints_ s <= length (name latest))%nat ->
  let r := updateJoints latest s in
  fst (fst r) = true /\
  snd (fst r) = Some (worstCaseStopTime (joint_model_group_ s) latest) /\
  original_joint_state_ (snd r) = internal_joint_state_ (snd r) /\
  name (internal_joint_state_ (snd r)) = name (internal_joint_state_ s) /\
  velocity (internal_joint_state_ (snd r)) = velocity (internal_joint_state_ s) /\
  length (position (internal_joint_state_ (snd r)))
  = length (position (internal_joint_state_ s)).
Proof.
  intros Hacc r. subst r. unfold updateJoints.
  apply Nat.ltb_ge in Hacc. rewrite Hacc. cbn.
  repeat split. apply store_loop_length.
Qed.

(** X20.  The position an accepted message gives for a joint is the
    position the servo holds for it afterwards: entry [m] of the message
    is stored at the index [c] its name maps to, when no later name of
    the message maps to [c] as well. *)
Theorem updateJoints_reads_position (latest : JointState) (s : ServoCalcs)
    (m c : nat) (n : string) :
  (num_joints_ s <= length (name latest))%nat ->
  name latest !! m = Some n ->
  joint_state_name_map_ s !! n = Some c ->
  (c < length (position (internal_joint_state_ s)))%nat ->
  (forall m' n', (m < m')%nat -> name latest !! m' = Some n' ->
                 joint_state_name_map_ s !! n' <> Some c) ->
  position (internal_joint_state_ (snd (updateJoints latest s))) !! c
  = Some (position latest !!! m).
Proof.
  intros Hacc Hm Hc Hlen Hlater. unfold updateJoints.
  apply Nat.ltb_ge in Hacc. rewrite Hacc. cbn.
  rewrite <- (take_drop_middle _ _ _ Hm) at 1.
  rewrite imap_app, foldl_app. cbn [imap foldl].
  rewrite store_loop_keeps.
  - assert (Hmlen : length (take m (name latest)) = m).
    { rewrite length_take. apply lookup_lt_Some in Hm. lia. }
    rewrite Hmlen, Nat.add_0_r, Hc.
    apply list_lookup_insert_eq. now rewrite store_loop_length.
  - intros m' n' Hin.
    apply elem_of_lookup_imap in Hin as (k & n'' & Heq & Hk).
    injection Heq as -> ->. apply (Hlater (m + S k)%nat); [lia |].
    rewrite lookup_drop in Hk. replace (m + S k)%nat with (S m + k)%nat by lia. exact Hk.
Qed.

Lemma stop_time_loop_agrees (group : JointModelGroup) (latest : JointState)
    (indices : list nat) (accel_limit worst : double) :
  Forall
    (fun idx =>
       exists i joint,
         list_find (fun joint_model => getName joint_model = name latest !!! idx) group
         = Some (i, joint) /\
         acceleration_bounded_ (getVariableBounds joint) = true) indices ->
  snd
    (foldl
       (fun '(accel_limit, worst_case_stop_time) jt_state_idx =>
          let joint_name := name latest !!! jt_state_idx in
          let accel_limit := lookupAccelLimit group joint_name accel_limit in
          let joint_velocity := velocity latest !!! jt_state_idx in
          (accel_limit, max worst_case_stop_time (fabs (joint_velocity / accel_limit))))
       (accel_limit, worst) indices)
  = foldl
      (fun worst_case_stop_time jt_state_idx =>
         let joint_name := name latest !!! jt_state_idx in
         match list_find (fun joint_model => getName joint_model = joint_name) group with
         | Some (_, joint_model) =>
             let b := getVariableBounds joint_model in
             if acceleration_bounded_ b then
               let accel_limit :=
                 min (fabs (min_acceleration_ b)) (fabs (max_acceleration_ b)) in
               max worst_case_stop_time (fabs (velocity latest !!! jt_state_idx / accel_limit))
             else worst_case_stop_time
         | None => worst_case_stop_time
         end)
      worst indices.
Proof.
  intros Hall. revert accel_limit worst.
  induction Hall as [| idx indices (i & joint & Hfind & Hb) _ IH]; intros accel_limit worst;
    [reflexivity |].
  assert (Hlook : lookupAccelLimit group (name latest !!! idx) accel_limit
                  = min (fabs (min_acceleration_ (getVariableBounds joint)))
                        (fabs (max_acceleration_ (getVariableBounds joint)))).
  { unfold lookupAccelLimit. now rewrite Hfind, Hb. }
  cbn [foldl]. cbv zeta. rewrite Hlook, Hfind, Hb. apply IH.
Qed.

(** X21.  When every joint of the message that has a velocity is a joint
    of the group with acceleration bounds, the published stop time is the
    maximum over the joints of [|velocity / accel_limit|], each joint
    with its own conservative limit. *)
Theorem stop_time_is_the_maximum_when_all_bounded (group : JointModelGroup)
    (latest : JointState) :
  Forall
    (fun idx =>
       exists i joint,
         list_find (fun joint_model => getName joint_model = name latest !!! idx) group
         = Some (i, joint) /\
         acceleration_bounded_ (getVariableBounds joint) = true)
    (seq 0 (length (velocity latest))) ->
  worstCaseStopTime group latest = worstCaseStopTime_spec group latest.
Proof.
  intros Hall. unfold worstCaseStopTime, worstCaseStopTime_spec.
  exact (stop_time_loop_agrees group latest _ zero zero Hall).
Qed.

End JointFeed.

(** ** The status, over a cycle and between cycles *)

Section Status.
Context {C : Collaborators}.

Lemma statusKeptOrRaised_refl (s s' : ServoCalcs) :
  status_ s' = status_ s -> statusKeptOrRaised s s'.
Proof. intros H. now left. Qed.

Lemma statusKeptOrRaised_trans (s1 s2 s3 : ServoCalcs) :
  statusKeptOrRaised s1 s2 -> statusKeptOrRaised s2 s3 -> statusKeptOrRaised s1 s3.
Proof.
  unfold statusKeptOrRaised. intros [H12 | H12] [H23 | H23]; first
    [ left; congruence | right; congruence ].
Qed.

Lemma applyVelocityScaling_raises (sc : double) (s : ServoCalcs) :
  statusKeptOrRaised s (applyVelocityScaling sc s).
Proof.
  unfold applyVelocityScaling, statusKeptOrRaised.
  destruct (collision_velocity_scale_ s ==? zero); cbv zeta;
    destruct (decide _); cbn; first [now left | now right].
Qed.

Lemma commitDeltas_raises (t : Time) (traj : JointTrajectory) (s : ServoCalcs) :
  statusKeptOrRaised s (snd (commitDeltas t traj s)).
Proof.
  unfold commitDeltas.
  destruct (convertDeltas_delta_status t traj
              (set_prev_joint_velocity_
                 (div_scalar (delta_theta_ s) (publish_period (parameters_ s))) s))
    as [_ [H | [H _]]].
  - left. exact H.
  - right. rewrite H. discriminate.
Qed.

Lemma jointServoCalcs_raises (t : Time) (traj : JointTrajectory) (s : ServoCalcs) :
  statusKeptOrRaised s (snd (jointServoCalcs t traj s)).
Proof.
  unfold jointServoCalcs. destruct (existsb isnan _); [now left |].
  eapply statusKeptOrRaised_trans; [| apply commitDeltas_raises].
  eapply statusKeptOrRaised_trans; [| apply applyVelocityScaling_raises].
  now left.
Qed.

Lemma cartesianServoCalcs_raises (t : Time) (traj : JointTrajectory) (pf cf : string)
    (s : ServoCalcs) :
  statusKeptOrRaised s (snd (cartesianServoCalcs t traj pf cf s)).
Proof.
  unfold cartesianServoCalcs. destruct (existsb isnan _); [now left |].
  destruct (is_unitless s && _); [now left |].
  pose proof (cartesianSingularity_status pf cf s) as H. cbv zeta in H.
  destruct (cartesianSingularity pf cf s) as [sc s1]. cbn [snd] in H.
  eapply statusKeptOrRaised_trans; [| apply commitDeltas_raises].
  eapply statusKeptOrRaised_trans; [| apply applyVelocityScaling_raises].
  destruct H as [H | [H | H]]; [now left | right | right]; rewrite H; discriminate.
Qed.

Lemma dispatch_raises (t : Time) (s : ServoCalcs) :
  statusKeptOrRaised s (snd (dispatch t s)).
Proof.
  unfold dispatch.
  destruct (have_nonzero_twist_stamped_ s && negb (twist_command_is_stale_ s)).
  - pose proof (cartesianServoCalcs_raises t
                  {| traj_stamp := 0%Q; traj_joint_names := []; points := [] |}
                  (planning_frame_ s) (robot_link_command_frame_ s) s) as H.
    destruct (cartesianServoCalcs _ _ _ _ _) as [[ok traj] s1].
    destruct ok; exact H.
  - destruct (have_nonzero_joint_command_ s && negb (joint_command_is_stale_ s)).
    + pose proof (jointServoCalcs_raises t
                    {| traj_stamp := 0%Q; traj_joint_names := []; points := [] |} s) as H.
      destruct (jointServoCalcs _ _ _) as [[ok traj] s1].
      destruct ok; exact H.
    + now left.
Qed.

Lemma finishCycle_status (t : Time) (traj : JointTrajectory) (s : ServoCalcs) :
  status_ (snd (finishCycle t traj s)) = status_ s.
Proof.
  unfold finishCycle.
  destruct (negb (have_nonzero_command_ s)); cbn [negb andb];
    repeat match goal with
           | |- context [if ?c then _ else _] =>
               lazymatch c with
               | context [if _ then _ else _] => fail
               | _ => destruct c
               end
           | |- context [outgoingMessage ?a ?b ?c] => destruct (outgoingMessage a b c)
           end; reflexivity.
Qed.

Lemma run_raises (input : TickInput) (s : ServoCalcs) :
  statusKeptOrRaised s (snd (run input s)).
Proof.
  unfold run.
  assert (H1 : status_ (snd (updateJoints (latest_joint_state input) s)) = status_ s).
  { unfold updateJoints. destruct (_ <? _)%nat; reflexivity. }
  destruct (updateJoints (latest_joint_state input) s) as [[ok worst] s1].
  cbn [snd] in H1. destruct (negb ok && ros_ok input); [now left |].
  destruct (prepareCycle_frame input s1) as (_ & _ & _ & _ & H2 & _).
  set (b := prepareCycle input s1) in *. clearbody b.
  destruct (wait_for_servo_commands_ b || paused_ b).
  { left. cbn. congruence. }
  pose proof (dispatch_raises (now input) b) as H3.
  destruct (dispatch (now input) b) as [[traj |] s3]; cbn [snd] in *.
  - pose proof (finishCycle_status (now input) traj s3) as H4.
    destruct (finishCycle (now input) traj s3) as [out s4]. cbn [snd] in *.
    apply (statusKeptOrRaised_trans s b); [left; congruence |].
    apply (statusKeptOrRaised_trans b s3); [exact H3 | left; exact H4].
  - apply (statusKeptOrRaised_trans s b); [left; congruence | exact H3].
Qed.

(** X22.  A status other than [NO_WARNING] is cleared by the service
    [resetServoStatus] only: after every other event (a timer event, a
    message on a subscribed topic, a call of another service) the status
    is still a warning. *)
Theorem status_is_cleared_by_reset_only (e : Event) (s : ServoCalcs) :
  e <> ResetServoStatus ->
  status_ s <> NO_WARNING ->
  status_ (handle e s) <> NO_WARNING.
Proof.
  intros He Hs. destruct e; try exact Hs; [| contradiction].
  cbn [handle]. destruct (run_raises input s) as [H | H]; [congruence | exact H].
Qed.

(** X23.  A servo that is paused, or still waiting for its first
    command, sends no command in a timer event and keeps the last sent
    command and the status as they are. *)
Theorem paused_or_waiting_publishes_nothing (input : TickInput) (s : ServoCalcs) :
  wait_for_servo_commands_ s || paused_ s = true ->
  outgoing_cmd (fst (run input s)) = None /\
  last_sent_command_ (snd (run input s)) = last_sent_command_ s /\
  status_ (snd (run input s)) = status_ s /\
  paused_ (snd (run input s)) = paused_ s.
Proof.
  intros Hwp. unfold run.
  assert (H1 : wait_for_servo_commands_ (snd (updateJoints (latest_joint_state input) s))
               = wait_for_servo_commands_ s /\
               paused_ (snd (updateJoints (latest_joint_state input) s)) = paused_ s /\
               last_sent_command_ (snd (updateJoints (latest_joint_state input) s))
               = last_sent_command_ s /\
               status_ (snd (updateJoints (latest_joint_state input) s)) = status_ s).
  { unfold updateJoints. destruct (_ <? _)%nat; repeat split; reflexivity. }
  destruct (updateJoints (latest_joint_state input) s) as [[ok worst] s1].
  cbn [snd] in H1. destruct H1 as (W1 & P1 & L1 & S1).
  destruct (negb ok && ros_ok input); [cbn; repeat split; assumption |].
  destruct (prepareCycle_frame input s1) as (_ & _ & P2 & W2 & S2 & _).
  assert (L2 : last_sent_command_ (prepareCycle input s1) = last_sent_command_ s1).
  { unfold prepareCycle, snapshotLatest. cbv zeta.
    destruct (latest_twist_stamped_ (latest_ _)), (latest_joint_cmd_ (latest_ _));
      reflexivity. }
  set (b := prepareCycle input s1) in *. clearbody b.
  rewrite W2, P2, W1, P1, Hwp. cbn. repeat split; congruence.
Qed.

End Status.

(** ** What a cycle publishes *)

Section Publication.
Context {C : Collaborators}.

(** X24.  Once more halt messages than [num_outgoing_halt_msgs_to_publish]
    have been counted, and that number is not zero, a cycle without a
    non-zero command publishes nothing and keeps the last sent command. *)
Theorem halt_messages_are_limited (t : Time) (traj : JointTrajectory) (s : ServoCalcs) :
  have_nonzero_command_ s = false ->
  num_outgoing_halt_msgs_to_publish (parameters_ s) <> 0%Z ->
  (num_outgoing_halt_msgs_to_publish (parameters_ s) < zero_velocity_count_ s)%Z ->
  fst (finishCycle t traj s) = None /\
  last_sent_command_ (snd (finishCycle t traj s)) = last_sent_command_ s.
Proof.
  intros Hnz Hnum Hcount. unfold finishCycle.
  apply Z.eqb_neq in Hnum. apply Z.ltb_lt in Hcount.
  repeat first [rewrite Hnz | rewrite Hnum | rewrite Hcount | progress simpl].
  destruct (zero_velocity_count_ s <? INT_MAX)%Z; simpl;
    destruct (updated_filters_ s); simpl; split; reflexivity.
Qed.

(** X25.  While the halt messages are not used up, a cycle without a
    non-zero command that sends trajectories publishes a halt: a
    trajectory stamped with the time of the cycle whose first point
    carries, in the channels that are published, one zero velocity per
    joint and the measured positions; this trajectory becomes the last
    sent command.  This is for a measured joint state that has one
    position per joint and a trajectory whose first point, when there is
    one, has one entry per joint: the halt writes into the entries that
    are there. *)
Theorem zero_commands_publish_a_halt (t : Time) (traj : JointTrajectory) (s : ServoCalcs) :
  have_nonzero_command_ s = false ->
  command_out_type (parameters_ s) = "trajectory_msgs/JointTrajectory" ->
  (num_outgoing_halt_msgs_to_publish (parameters_ s) = 0 \/
   zero_velocity_count_ s <= num_outgoing_halt_msgs_to_publish (parameters_ s))%Z ->
  length (position (original_joint_state_ s)) = num_joints_ s ->
  firstPointSized s traj ->
  exists halt,
    fst (finishCycle t traj s) = Some (TrajectoryMsg halt) /\
    last_sent_command_ (snd (finishCycle t traj s)) = halt /\
    traj_stamp halt = t /\
    exists pt, points halt !! 0%nat = Some pt /\ halted s pt.
Proof.
  intros Hnz Hty Hcount Hsize Hfirst. unfold finishCycle.
  assert (Hok : negb (num_outgoing_halt_msgs_to_publish (parameters_ s) =? 0)%Z &&
                (num_outgoing_halt_msgs_to_publish (parameters_ s) <? zero_velocity_count_ s)%Z
                = false).
  { destruct Hcount as [H0 | Hle].
    - rewrite H0. reflexivity.
    - apply Z.ltb_ge in Hle. rewrite Hle. apply andb_false_r. }
  destruct (suddenHalt_halted s traj Hsize Hfirst) as (pt & Ept & Hpt).
  exists {| traj_stamp := t; traj_joint_names := traj_joint_names (suddenHalt s traj);
            points := points (suddenHalt s traj) |}.
  unfold outgoingMessage.
  repeat first [rewrite Hnz | rewrite Hok | rewrite Hty | progress simpl].
  destruct (zero_velocity_count_ s <? INT_MAX)%Z; simpl;
    repeat first [rewrite Hty | progress simpl];
    destruct (updated_filters_ s); simpl;
    (split; [reflexivity |]); (split; [reflexivity |]); (split; [reflexivity |]);
    exists pt; (split; [exact Ept | exact Hpt]).
Qed.

(** X26.  The count of the cycles without a non-zero command stays
    between zero and the largest [int]: such a cycle adds one unless the
    count has reached the largest [int], and a cycle with a non-zero
    command sets it back to zero. *)
Theorem zero_velocity_count_stays_in_range (t : Time) (traj : JointTrajectory)
    (s : ServoCalcs) :
  (0 <= zero_velocity_count_ s <= INT_MAX)%Z ->
  zero_velocity_count_ (snd (finishCycle t traj s))
  = (if have_nonzero_command_ s then 0
     else Z.min (zero_velocity_count_ s + 1) INT_MAX)%Z /\
  (0 <= zero_velocity_count_ (snd (finishCycle t traj s)) <= INT_MAX)%Z.
Proof.
  intros Hrange.
  assert (Hval : zero_velocity_count_ (snd (finishCycle t traj s))
                 = (if have_nonzero_command_ s then 0
                    else Z.min (zero_velocity_count_ s + 1) INT_MAX)%Z).
  { unfold finishCycle.
    destruct (have_nonzero_command_ s) eqn:Hnz.
    - repeat first [rewrite Hnz | progress simpl].
      destruct (outgoingMessage _ t traj) as [out traj'].
      simpl. destruct (updated_filters_ s); reflexivity.
    - repeat first [rewrite Hnz | progress simpl].
      destruct (negb _ && _); repeat first [rewrite Hnz | progress simpl];
        destruct (zero_velocity_count_ s <? INT_MAX)%Z eqn:Elt; simpl;
        try (destruct (outgoingMessage _ t (suddenHalt s traj)) as [out traj']; simpl);
        destruct (updated_filters_ s); simpl;
        first [ apply Z.ltb_lt in Elt; lia | apply Z.ltb_ge in Elt; lia ]. }
  split; [exact Hval |]. rewrite Hval. unfold INT_MAX in *.
  destruct (have_nonzero_command_ s); lia.
Qed.

End Publication.

(** ** Commands, callbacks and construction *)

Section Events.
Context {C : Collaborators}.

(** X27.  A command that the selected servo calculation rejects (a twist
    with a component that is not a number, a unitless twist with a
    component of magnitude above one, a joint jog with a velocity that is
    not a number) makes the cycle send no command; the last sent command
    and the status stay as they are. *)
Theorem rejected_command_publishes_nothing (input : TickInput) (s : ServoCalcs) :
  let b := cycleStart input s in
  (cartesianSelected b = true /\
   (existsb isnan (twist_components (twist (twist_stamped_cmd_ b))) = true \/
    is_unitless b &&
      existsb (fun c => fabs c >? one) (twist_components (twist (twist_stamped_cmd_ b)))
    = true)) \/
  (jointSelected b = true /\ existsb isnan (velocities (joint_servo_cmd_ b)) = true) ->
  outgoing_cmd (fst (run input s)) = None /\
  last_sent_command_ (snd (run input s)) = last_sent_command_ s /\
  status_ (snd (run input s)) = status_ s.
Proof.
  intros b Hrej. subst b. unfold cycleStart in Hrej. unfold run.
  assert (H1 : last_sent_command_ (snd (updateJoints (latest_joint_state input) s))
               = last_sent_command_ s /\
               status_ (snd (updateJoints (latest_joint_state input) s)) = status_ s).
  { unfold updateJoints. destruct (_ <? _)%nat; split; reflexivity. }
  destruct (updateJoints (latest_joint_state input) s) as [[ok worst] s1].
  cbn [snd] in *. destruct H1 as (L1 & S1).
  destruct (negb ok && ros_ok input); [cbn; repeat split; assumption |].
  destruct (prepareCycle_frame input s1) as (_ & _ & _ & _ & S2 & _).
  assert (L2 : last_sent_command_ (prepareCycle input s1) = last_sent_command_ s1).
  { unfold prepareCycle, snapshotLatest. cbv zeta.
    destruct (latest_twist_stamped_ (latest_ _)), (latest_joint_cmd_ (latest_ _));
      reflexivity. }
  set (b := prepareCycle input s1) in *. clearbody b.
  destruct (wait_for_servo_commands_ b || paused_ b).
  { cbn. repeat split; congruence. }
  assert (Hd : dispatch (now input) b = (None, resetLowPassFilters (original_joint_state_ b) b)).
  { unfold dispatch. unfold jointSelected, cartesianSelected in Hrej.
    destruct Hrej as [[Hc [Hn | Hr]] | [Hj Hn]].
    - rewrite Hc. unfold cartesianServoCalcs. now rewrite Hn.
    - rewrite Hc. unfold cartesianServoCalcs. rewrite Hr.
      now destruct (existsb isnan _).
    - apply andb_true_iff in Hj as [Hc Hj]. apply negb_true_iff in Hc.
      rewrite Hc, Hj. unfold jointServoCalcs. now rewrite Hn. }
  rewrite Hd. cbn. repeat split; congruence.
Qed.

(** X28.  A twist message whose stamp is zero does not refresh the clock
    of the twist stream: whether the next cycle finds the twist command
    stale is the same with and without the message. *)
Theorem zero_stamp_does_not_refresh (msg : TwistStamped) (input : TickInput)
    (s : ServoCalcs) :
  Qeq_bool (stamp (twist_header msg)) 0 = true ->
  twist_command_is_stale_ (cycleStart input (twistStampedCB msg s))
  = twist_command_is_stale_ (cycleStart input s).
Proof.
  intros Hz. unfold cycleStart, prepareCycle, snapshotLatest, updateJoints, twistStampedCB.
  cbv zeta. cbn [num_joints_ set_latest_].
  destruct (_ <? _)%nat; cbn; rewrite Hz; cbn;
    destruct (latest_twist_stamped_ (latest_ s)), (latest_joint_cmd_ (latest_ s));
    reflexivity.
Qed.

Lemma name_map_loop_keeps (l : list (nat * string)) (m : gmap string nat) (n : string) :
  (forall i, (i, n) ∉ l) ->
  foldl (fun m '(i, n) => <[n := i]> m) m l !! n = m !! n.
Proof.
  revert m. induction l as [| [i0 n0] l IH]; intros m Hno; [reflexivity |].
  cbn [foldl]. rewrite IH.
  - apply lookup_insert_ne. intros ->. apply (Hno i0). left.
  - intros i Hin. apply (Hno i). now right.
Qed.

Lemma name_map_loop_lookup (names : list string) (k : nat) (m : gmap string nat)
    (i : nat) (n : string) :
  NoDup names ->
  names !! i = Some n ->
  foldl (fun m '(i, n) => <[n := i]> m) m (imap (fun i n => ((k + i)%nat, n)) names) !! n
  = Some (k + i)%nat.
Proof.
  revert k m i. induction names as [| n0 names IH]; intros k m i Hnd Hi; [discriminate |].
  apply NoDup_cons in Hnd as [Hnotin Hnd].
  cbn [imap foldl].
  destruct i as [| i]; cbn in Hi.
  - injection Hi as ->. rewrite name_map_loop_keeps.
    + rewrite Nat.add_0_r. apply lookup_insert_eq.
    + intros j Hin. apply elem_of_lookup_imap in Hin as (j' & n' & Heq & Hj').
      injection Heq as _ ->. apply Hnotin. eapply list_elem_of_lookup_2. exact Hj'.
  - rewrite (imap_ext _ (fun i n => ((S k + i)%nat, n))).
    + rewrite (IH (S k) _ i Hnd Hi). f_equal. lia.
    + intros j x _. cbn. f_equal. lia.
Qed.

(** X29.  The constructor maps the name of every joint of the group to
    the index of the joint, when no two joints of the group have the same
    name; the servo it builds counts the joints of the group. *)
Theorem ServoCalcs_new_name_map (defaults : ServoCalcs) (parameters : ServoParameters)
    (kinematic_model_defaults : RobotState) (group : JointModelGroup)
    (latest_joints : JointState) (t : Time) (i : nat) (joint : JointModel) :
  NoDup (map getName group) ->
  group !! i = Some joint ->
  let s := ServoCalcs_new defaults parameters kinematic_model_defaults group
             latest_joints t in
  joint_state_name_map_ s !! getName joint = Some i /\
  num_joints_ s = length group /\
  length (position_filters_ s) = length group /\
  name (internal_joint_state_ s) !! i = Some (getName joint).
Proof.
  intros Hnd Hi s. subst s. unfold ServoCalcs_new. cbn.
  assert (Hn : map getName group !! i = Some (getName joint)).
  { change (map getName group) with (getName <$> group).
    now rewrite list_lookup_fmap, Hi. }
  split; [| split; [apply length_map | split; [| exact Hn]]].
  - exact (name_map_loop_lookup (map getName group) 0 ∅ i (getName joint) Hnd Hn).
  - now rewrite length_replicate, length_map.
Qed.

(** X30.  A command leaves the transformation to the planning frame
    with the planning frame as its frame and with its stamp; a command
    that is already given in the planning frame is not changed. *)
Theorem command_ends_in_planning_frame (s : ServoCalcs)
    (planning_frame command_frame : string) (cmd : TwistStamped) :
  frame_id (twist_header (transformToPlanningFrame s planning_frame command_frame cmd))
  = planning_frame /\
  stamp (twist_header (transformToPlanningFrame s planning_frame command_frame cmd))
  = stamp (twist_header cmd) /\
  (frame_id (twist_header cmd) = planning_frame ->
   transformToPlanningFrame s planning_frame command_frame cmd = cmd).
Proof.
  unfold transformToPlanningFrame.
  destruct (String.eqb (frame_id (twist_header cmd)) planning_frame) eqn:E; cbn.
  - apply String.eqb_eq in E. repeat split; auto.
  - apply String.eqb_neq in E. repeat split; auto. intros H. contradiction.
Qed.

End Events.

(** ** The halt for a position limit, from the builder to the publication *)

Section PositionHalt.
Context {C : Collaborators}.

Lemma lowPassFilter_loop_length (i : nat) (filters : list LowPassFilter) (position : Vector) :
  length (snd (lowPassFilter_loop i filters position)) = length position.
Proof.
  revert i position. induction filters as [| f filters IH]; intros i position;
    [reflexivity |].
  cbn [lowPassFilter_loop]. destruct (filter f (position !!! i)) as [y f'].
  specialize (IH (S i) (<[i := y]> position)).
  destruct (lowPassFilter_loop (S i) filters (<[i := y]> position)) as [rest position'].
  cbn [snd] in *. rewrite IH. apply length_insert.
Qed.

Lemma insertRedundantPoints_keeps_first (s : ServoCalcs) (traj : JointTrajectory)
    (count : nat) (pt : JointTrajectoryPoint) :
  (1 <= count)%nat ->
  points traj !! 0%nat = Some pt ->
  points (insertRedundantPointsIntoTrajectory s traj count) !! 0%nat = Some pt.
Proof.
  intros Hcount Hpt. unfold insertRedundantPointsIntoTrajectory, with_points.
  cbn [points]. rewrite redundant_points_keep.
  - destruct (points traj) as [| p0 pts]; [discriminate |].
    destruct count; [lia | exact Hpt].
  - intros i Hi. apply elem_of_seq in Hi. lia.
Qed.

(** The builder, called with a fresh trajectory on a servo whose position
    check fails: it answers [true], stores [JOINT_BOUND], and the first
    point of its trajectory is halted. *)
Lemma convertDeltas_halt (t : Time) (traj : JointTrajectory) (s : ServoCalcs) :
  enforceSRDFPositionLimits s = false ->
  jointsSized s ->
  points traj = [] ->
  (use_gazebo (parameters_ s) = true -> (1 <= gazebo_redundant_message_count_ s)%nat) ->
  let r := convertDeltasToOutgoingCmd t traj s in
  fst (fst r) = true /\
  status_ (snd r) = JOINT_BOUND /\
  (exists pt, points (snd (fst r)) !! 0%nat = Some pt /\ halted s pt) /\
  have_nonzero_command_ (snd r) = have_nonzero_command_ s /\
  parameters_ (snd r) = parameters_ s.
Proof.
  intros Hlim [Hpos Hvel] Hfresh Hgz. unfold convertDeltasToOutgoingCmd.
  cbn [internal_joint_state_ set_internal_joint_state_ delta_theta_ parameters_].
  destruct (addJointIncrements_true (position (original_joint_state_ s)) (delta_theta_ s))
    as [Hok Hlen1].
  destruct (addJointIncrements (position (original_joint_state_ s)) (delta_theta_ s))
    as [ok position'] eqn:Eadd.
  cbn [fst snd] in Hok, Hlen1. subst ok. cbn [negb]. cbv iota.
  unfold lowPassFilterPositions.
  cbn [internal_joint_state_ set_internal_joint_state_ position_filters_ position velocity
       name].
  pose proof (lowPassFilter_loop_length 0 (position_filters_ s) position') as Hlen2.
  destruct (lowPassFilter_loop 0 (position_filters_ s) position')
    as [filters position''] eqn:Eflt.
  cbn [snd] in Hlen2.
  match goal with
  | |- context [enforceSRDFPositionLimits ?s3] =>
      replace (enforceSRDFPositionLimits s3) with (enforceSRDFPositionLimits s)
        by (symmetry; apply enforceSRDFPositionLimits_ext; reflexivity)
  end.
  rewrite Hlim. cbn [negb]. cbv iota beta.
  match goal with
  | |- context [suddenHalt ?s3 ?composed] =>
      assert (Hh : exists pt, points (suddenHalt s3 composed) !! 0%nat = Some pt /\
                              halted s3 pt)
  end.
  { apply suddenHalt_halted; [exact Hpos |].
    unfold firstPointSized, composeJointTrajMessage. cbn [points]. rewrite Hfresh.
    cbn [app point_velocities positions parameters_ num_joints_
         set_internal_joint_state_ set_updated_filters_ set_position_filters_].
    split; intros Hpub; rewrite Hpub.
    - unfold calculateJointVelocities. cbn [velocity].
      rewrite assign_loop_length. exact Hvel.
    - change (length position'' = num_joints_ s). congruence. }
  match goal with
  | |- context [suddenHalt ?s3 ?composed] => generalize dependent (suddenHalt s3 composed)
  end.
  intros halt (pt & Hpt & Hhalted).
  cbn [parameters_ set_status_ set_internal_joint_state_ set_updated_filters_
       set_position_filters_ gazebo_redundant_message_count_] in *.
  destruct (use_gazebo (parameters_ s)) eqn:Eg; cbn [fst snd status_ set_status_];
    (split; [reflexivity | split; [reflexivity | split; [| split; reflexivity]]]);
    exists pt; (split; [| exact Hhalted]).
  - apply insertRedundantPoints_keeps_first; [now apply Hgz | exact Hpt].
  - exact Hpt.
Qed.

(** A selected calculation that accepts its command hands the cycle to
    the builder. *)
Lemma dispatch_builder (t : Time) (b s0 : ServoCalcs) :
  builderState b = Some s0 ->
  dispatch t b
  = (let '(ok, joint_trajectory, s) :=
       convertDeltasToOutgoingCmd t
         {| traj_stamp := 0%Q; traj_joint_names := []; points := [] |} s0 in
     if negb ok then (None, resetLowPassFilters (original_joint_state_ s) s)
     else (Some joint_trajectory, s)).
Proof.
  unfold builderState, dispatch, jointSelected, cartesianSelected.
  destruct (have_nonzero_twist_stamped_ b && negb (twist_command_is_stale_ b)).
  - unfold cartesianServoCalcs.
    destruct (existsb isnan _); [discriminate |].
    destruct (is_unitless b && _); [discriminate |].
    destruct (cartesianSingularity _ _ b) as [sc s1]. intros [= <-]. reflexivity.
  - cbn [negb andb].
    destruct (have_nonzero_joint_command_ b && negb (joint_command_is_stale_ b));
      [| discriminate].
    unfold jointServoCalcs. destruct (existsb isnan _); [discriminate |].
    intros [= <-]. reflexivity.
Qed.

Lemma singularityRamp_flags (dot_ k : double) (s : ServoCalcs) :
  let s' := snd (singularityRamp dot_ k s) in
  have_nonzero_command_ s' = have_nonzero_command_ s /\
  num_joints_ s' = num_joints_ s /\
  gazebo_redundant_message_count_ s' = gazebo_redundant_message_count_ s.
Proof.
  destruct (singularityRamp_cases dot_ k s) as [H | [H | (_ & _ & H)]];
    rewrite H; repeat split.
Qed.

Lemma applyVelocityScaling_flags (sc : double) (s : ServoCalcs) :
  let s' := applyVelocityScaling sc s in
  have_nonzero_command_ s' = have_nonzero_command_ s /\
  num_joints_ s' = num_joints_ s /\
  gazebo_redundant_message_count_ s' = gazebo_redundant_message_count_ s.
Proof.
  unfold applyVelocityScaling.
  destruct (collision_velocity_scale_ s ==? zero); cbv zeta;
    destruct (decide _); repeat split.
Qed.

(** The calculation up to the builder keeps the flag of a non-zero
    command. *)
Lemma builderState_nonzero (b s0 : ServoCalcs) :
  builderState b = Some s0 ->
  have_nonzero_command_ s0 = have_nonzero_command_ b /\
  (cartesianSelected b = true \/ jointSelected b = true).
Proof.
  unfold builderState.
  destruct (cartesianSelected b) eqn:Ec.
  - destruct (existsb isnan _); [discriminate |].
    destruct (is_unitless b && _); [discriminate |].
    unfold cartesianSingularity.
    destruct (reducedProblem _ _) as [jacobian delta_x].
    rewrite velocityScaling_as_ramp. cbv zeta.
    match goal with
    | |- context [singularityRamp ?d ?k ?s1] =>
        destruct (singularityRamp_flags d k s1) as (F1 & _ & _);
        destruct (singularityRamp d k s1) as [sc s2]
    end.
    cbn [snd] in F1. intros [= <-].
    destruct (applyVelocityScaling_flags sc s2) as (F2 & _ & _).
    split; [| now left]. cbn. rewrite F2, F1. reflexivity.
  - destruct (jointSelected b) eqn:Ej; [| discriminate].
    destruct (existsb isnan _); [discriminate |]. intros [= <-].
    match goal with
    | |- context [applyVelocityScaling one ?s2] =>
        destruct (applyVelocityScaling_flags one s2) as (F2 & _ & _)
    end.
    split; [| now right]. cbn. rewrite F2. reflexivity.
Qed.

Lemma finishCycle_sends_given (t : Time) (traj : JointTrajectory) (s : ServoCalcs) :
  have_nonzero_command_ s = true ->
  command_out_type (parameters_ s) = "trajectory_msgs/JointTrajectory" ->
  let sent := {| traj_stamp := t; traj_joint_names := traj_joint_names traj;
                 points := points traj |} in
  fst (finishCycle t traj s) = Some (TrajectoryMsg sent) /\
  last_sent_command_ (snd (finishCycle t traj s)) = sent.
Proof.
  intros Hnz Hty. unfold finishCycle, outgoingMessage.
  repeat first [rewrite Hnz | rewrite Hty | progress simpl].
  destruct (updated_filters_ s); split; reflexivity.
Qed.

Lemma prepareCycle_nonzero (input : TickInput) (s : ServoCalcs) :
  have_nonzero_command_ (prepareCycle input s)
  = have_nonzero_twist_stamped_ (prepareCycle input s)
    || have_nonzero_joint_command_ (prepareCycle input s).
Proof.
  unfold prepareCycle, snapshotLatest. cbv zeta.
  destruct (latest_twist_stamped_ (latest_ _)), (latest_joint_cmd_ (latest_ _));
    reflexivity.
Qed.

(** C6, as amended.  In a cycle whose selected servo calculation reaches
    the outgoing builder, when the position-bound check of the builder
    fails (a joint is within the margin of a position limit and its
    measured velocity moves further into it): [convertDeltasToOutgoingCmd]
    returns [true], "usable"; the cycle ends with the status
    [JOINT_BOUND]; and it publishes the trajectory of the builder, whose
    first point is a sudden halt, with one zero velocity per joint and
    the measured positions in the channels that are published.  The
    trajectory published is the last sent command from then on.  [s0] is
    the servo the builder is called on; the measured joint state has one
    position and one velocity per joint, the servo sends trajectories,
    and the count of redundant points is not zero if they are in use. *)
Theorem position_limit_halt_is_usable (input : TickInput) (s s0 : ServoCalcs) :
  let b := cycleStart input s in
  let fresh := {| traj_stamp := 0%Q; traj_joint_names := []; points := [] |} in
  accepted input s ->
  wait_for_servo_commands_ b || paused_ b = false ->
  builderState b = Some s0 ->
  enforceSRDFPositionLimits s0 = false ->
  jointsSized s0 ->
  command_out_type (parameters_ s0) = "trajectory_msgs/JointTrajectory" ->
  (use_gazebo (parameters_ s0) = true -> (1 <= gazebo_redundant_message_count_ s0)%nat) ->
  fst (fst (convertDeltasToOutgoingCmd (now input) fresh s0)) = true /\
  status_ (snd (run input s)) = JOINT_BOUND /\
  exists halt pt,
    outgoing_cmd (fst (run input s)) = Some (TrajectoryMsg halt) /\
    last_sent_command_ (snd (run input s)) = halt /\
    points halt !! 0%nat = Some pt /\
    halted s0 pt.
Proof.
  intros b fresh Hacc Hwp Hbuild Hlim Hsized Hty Hgz.
  destruct (convertDeltas_halt (now input) fresh s0 Hlim Hsized eq_refl Hgz)
    as (Hok & Hst & (pt & Hpt & Hhalted) & Hnz & Hpar).
  split; [exact Hok |].
  destruct (builderState_nonzero b s0 Hbuild) as [Hnz0 Hsel].
  assert (Hb : have_nonzero_command_ b = true).
  { subst b. unfold cycleStart in *. rewrite prepareCycle_nonzero.
    unfold jointSelected, cartesianSelected in Hsel.
    destruct Hsel as [H | H].
    - apply andb_true_iff in H as [H _]. now rewrite H.
    - apply andb_true_iff in H as [_ H]. apply andb_true_iff in H as [H _].
      rewrite H. apply orb_true_r. }
  pose proof (dispatch_builder (now input) b s0 Hbuild) as Hd.
  fold fresh in Hd.
  destruct (convertDeltasToOutgoingCmd (now input) fresh s0) as [[ok traj] s'].
  cbn [fst snd] in *. subst ok. cbn [negb] in Hd.
  destruct (finishCycle_sends_given (now input) traj s') as [Hout Hlast];
    [congruence | congruence |].
  pose proof (finishCycle_status (now input) traj s') as Hfst.
  unfold run.
  destruct (updateJoints_accepted (latest_joint_state input) s Hacc) as (Hacc' & _).
  subst b. unfold cycleStart in *.
  destruct (updateJoints (latest_joint_state input) s) as [[ok worst] s1].
  cbn [fst snd] in *. subst ok. cbn [negb andb]. cbv iota.
  rewrite Hwp, Hd.
  destruct (finishCycle (now input) traj s') as [out s4]. cbn [fst snd] in *.
  split; [congruence |].
  exists {| traj_stamp := now input; traj_joint_names := traj_joint_names traj;
            points := points traj |}, pt.
  cbn [outgoing_cmd points].
  split; [exact Hout |]. split; [exact Hlast |]. split; [exact Hpt | exact Hhalted].
Qed.

End PositionHalt.

(** * The theorems at work on the two-joint robot *)

Section Witnesses.
Import Bench.

(** [j2] at [1/30]: the condition number is [30], the hard-stop
    threshold; the command moves [j2] toward zero, toward the
    singularity. *)
Lemma singularity_scale_at_hard_stop_witness :
  let s := planar_at 0 (1 # 30) in
  let svd := planar_svd 0 (1 # 30) in
  let cv := [zero; Fin (- (1 # 100))] in
  (dot (resolveSign (condition_number svd)
          (fst (lookAhead (col (matrixU svd) 1) (pseudoInverse svd) s))
          (col (matrixU svd) 1)) cv >? zero) = true /\
  (condition_number svd ==? hard_stop_singularity_threshold (parameters_ s)) = true /\
  fst (velocityScalingFactorForSingularity cv svd (pseudoInverse svd) s) = one /\
  status_ (snd (velocityScalingFactorForSingularity cv svd (pseudoInverse svd) s))
  = NO_WARNING.
Proof.
  intros s svd cv.
  assert (H1 : (dot (resolveSign (condition_number svd)
          (fst (lookAhead (col (matrixU svd) 1) (pseudoInverse svd) s))
          (col (matrixU svd) 1)) cv >? zero) = true) by (vm_compute; reflexivity).
  assert (H2 : (condition_number svd ==? hard_stop_singularity_threshold (parameters_ s)) = true)
    by (vm_compute; reflexivity).
  split; [exact H1 | split; [exact H2 |]].
  exact (singularity_scale_at_hard_stop cv svd (pseudoInverse svd) s H1 H2).
Defined.

(** C7, at work.  With the decomposition whose last column of [U] is
    [(0, -1)] and [j2] at [1/2], the look-ahead moves [j2] to [0.48],
    toward the singularity at [0]: the condition number at the probed
    configuration, [25/12], is strictly greater than the initial one,
    [2], and the candidate is left as it is, not negated.  With the
    other decomposition and [j2] at [1/20] the look-ahead moves away
    from the singularity, the condition number falls from [20] to [4],
    and the candidate is negated.  In both cases the vector that enters
    the dot-product test is [(0, -1)], the direction in which [j2] goes
    to the singularity. *)
Lemma worse_probe_keeps_the_sign :
  (let svd := planar_svd_flipped (1 # 2) in
   let s := planar_at 0 (1 # 2) in
   let u_last := col (matrixU svd) 1 in
   let k := condition_number svd in
   let k' := fst (lookAhead u_last (pseudoInverse svd) s) in
   (k' >? k) = true /\
   resolveSign k k' u_last = u_last /\
   resolveSign k k' u_last <> scale (Fin (-1)) u_last /\
   map lowest (resolveSign k k' u_last) = [Fin 0; Fin (-1)]) /\
  (let svd := planar_svd 0 (1 # 20) in
   let s := planar_at 0 (1 # 20) in
   let u_last := col (matrixU svd) 1 in
   let k := condition_number svd in
   let k' := fst (lookAhead u_last (pseudoInverse svd) s) in
   (k' <=? k) = true /\
   resolveSign k k' u_last <> u_last /\
   map lowest (resolveSign k k' u_last) = [Fin 0; Fin (-1)]).
Proof.
  split; cbv zeta.
  - split; [vm_compute; reflexivity |]. split; [vm_compute; reflexivity |].
    split; [| vm_compute; reflexivity].
    intros H. vm_compute in H. discriminate H.
  - split; [vm_compute; reflexivity |]. split; [| vm_compute; reflexivity].
    intros H. vm_compute in H. discriminate H.
Qed.

Lemma sign_test_follows_the_probe_witness :
  let svd := planar_svd 0 (1 # 20) in
  let s := planar_at 0 (1 # 20) in
  let cv := [zero; Fin (- (1 # 100))] in
  let u_last := col (matrixU svd) (length cv - 1) in
  let k := condition_number svd in
  let probe := lookAhead u_last (pseudoInverse svd) s in
  (fst probe <=? k) = true /\
  resolveSign k (fst probe) u_last = scale (Fin (-1)) u_last /\
  velocityScalingFactorForSingularity cv svd (pseudoInverse svd) s
  = singularityRamp (dot (scale (Fin (-1)) u_last) cv) k (snd probe).
Proof.
  intros svd s cv u_last k probe.
  assert (H : (fst probe <=? k) = true) by (vm_compute; reflexivity).
  split; [exact H |].
  exact (proj2 (sign_test_follows_the_probe cv svd (pseudoInverse svd) s) H).
Defined.

(** The twist of time [1] is stale at time [2] and its non-zero flag is
    set: the dispatch hands out the last sent trajectory, whose
    velocities are [0.1] for both joints. *)
Lemma idle_trajectory_is_last_sent_witness :
  have_nonzero_twist_stamped_ stale_start && negb (twist_command_is_stale_ stale_start) = false /\
  have_nonzero_joint_command_ stale_start && negb (joint_command_is_stale_ stale_start) = false /\
  dispatch 2%Q stale_start = (Some (last_sent_command_ stale_start), stale_start) /\
  have_nonzero_twist_stamped_ stale_start = true /\
  map (fun pt => map lowest (point_velocities pt)) (points (last_sent_command_ stale_start))
  = [[Fin (1 # 10); Fin (1 # 10)]].
Proof.
  assert (H1 : have_nonzero_twist_stamped_ stale_start
               && negb (twist_command_is_stale_ stale_start) = false)
    by (vm_compute; reflexivity).
  assert (H2 : have_nonzero_joint_command_ stale_start
               && negb (joint_command_is_stale_ stale_start) = false)
    by (vm_compute; reflexivity).
  split; [exact H1 | split; [exact H2 | split]].
  - exact (idle_trajectory_is_last_sent 2%Q stale_start H1 H2).
  - split; vm_compute; reflexivity.
Defined.

(** The whole cycle at time [2]: the message it publishes carries the
    velocities [0.1] of the last servoing cycle. *)
Lemma stale_command_republishes_velocities :
  published_velocities (fst (run (tick 2 (joints_at 0 1 0 0)) after_servoing))
  = [[Fin (1 # 10); Fin (1 # 10)]].
Proof. vm_compute. reflexivity. Qed.

(** C8, at work.  [j1] has the acceleration limit [10] and moves at [1];
    [j3] has no acceleration bounds and moves at [4].  The published stop
    time is [4/10]: the limit of [j1] is used for [j3].  With [j3]
    skipped, as the specification words it, the stop time is [1/10]. *)
Theorem stop_time_uses_previous_limit :
  worstCaseStopTime [j1; j3] moving_j1_j3 ≃ Fin (4 # 10) /\
  worstCaseStopTime_spec [j1; j3] moving_j1_j3 ≃ Fin (1 # 10).
Proof. split; vm_compute; reflexivity. Qed.

(** With the joints at [0] and [1], the look-ahead moves [j2] to [1.01]
    and the scaling returns with the kinematic state left there. *)
Lemma probe_moves_the_kinematic_state :
  let s := planar_at 0 1 in
  let svd := planar_svd 0 1 in
  let s' := snd (velocityScalingFactorForSingularity [zero; Fin (1 # 100)] svd
                   (pseudoInverse svd) s) in
  copyJointGroupPositions (joint_model_group_ s) (kinematic_state_ s) = [Fin 0; Fin 1] /\
  (copyJointGroupPositions (joint_model_group_ s') (kinematic_state_ s') !!! 1%nat
   ==? Fin (101 # 100)) = true /\
  (copyJointGroupPositions (joint_model_group_ s') (kinematic_state_ s') !!! 1%nat
   ==? copyJointGroupPositions (joint_model_group_ s) (kinematic_state_ s) !!! 1%nat) = false.
Proof. intros s svd s'. repeat split; vm_compute; reflexivity. Qed.

Lemma probe_displaces_joint_positions_witness :
  let s := planar_at 0 1 in
  let svd := planar_svd 0 1 in
  let cv := [zero; Fin (1 # 100)] in
  NoDup (map getName (joint_model_group_ s)) /\
  copyJointGroupPositions (joint_model_group_ s) (kinematic_state_ s) !! 1%nat = Some (Fin 1) /\
  mat_vec_mul (pseudoInverse svd) (div_scalar (col (matrixU svd) (length cv - 1)) (Fin 100))
    !! 1%nat = Some (Fin (0 * (0 / 100) + 1 / 1 * (1 / 100))) /\
  copyJointGroupPositions (joint_model_group_ s)
    (kinematic_state_ (snd (velocityScalingFactorForSingularity cv svd (pseudoInverse svd) s)))
    !! 1%nat = Some (Fin 1 + Fin (0 * (0 / 100) + 1 / 1 * (1 / 100))).
Proof.
  intros s svd cv.
  assert (H1 : NoDup (map getName (joint_model_group_ s))).
  { apply (bool_decide_unpack _). vm_compute. exact I. }
  assert (H2 : copyJointGroupPositions (joint_model_group_ s) (kinematic_state_ s) !! 1%nat
               = Some (Fin 1)) by (vm_compute; reflexivity).
  assert (H3 : mat_vec_mul (pseudoInverse svd)
                 (div_scalar (col (matrixU svd) (length cv - 1)) (Fin 100)) !! 1%nat
               = Some (Fin (0 * (0 / 100) + 1 / 1 * (1 / 100)))) by (vm_compute; reflexivity).
  split; [exact H1 | split; [exact H2 | split; [exact H3 |]]].
  exact (probe_displaces_joint_positions cv svd (pseudoInverse svd) s 1 _ _ H1 H2 H3).
Defined.

(** C5, over several cycles.  The joint-state messages name [j1] and a
    joint outside the group, as [updateJoints] accepts them: nothing
    writes the position of [j2] in the kinematic state but the
    look-ahead, and it moves from [1/2] by [0.01 / j2] in every cycle. *)
Lemma probe_drift_accumulates :
  let d1 := snd (run (tick (101 # 100) without_j2) servoing_at_half) in
  let d2 := snd (run (tick (102 # 100) without_j2) d1) in
  let d3 := snd (run (tick (103 # 100) without_j2) d2) in
  accepted (tick (101 # 100) without_j2) servoing_at_half /\
  held_j2 servoing_at_half = Fin (1 # 2) /\
  held_j2 d1 = Fin (13 # 25) /\
  held_j2 d2 = Fin (701 # 1300) /\
  held_j2 d3 = Fin (508301 # 911300).
Proof.
  intros d1 d2 d3. split; [vm_compute; lia |].
  repeat split; vm_compute; reflexivity.
Qed.

(** C5, within the cycle.  [j2] is measured at [0.28], inside the margin
    of its lower limit [0.2], and moving down: on the measured state the
    position check fails, and the cycle of a jog halts with
    [JOINT_BOUND].  In the cycle of a twist the check comes after the
    look-ahead and reads [j2] from the kinematic state, at [221/700],
    outside the margin: the check passes and the cycle publishes a
    motion. *)
Lemma displaced_state_passes_position_check :
  let input := in_lower_margin (101 # 100) in
  enforceSRDFPositionLimits (cycle_start input short_servo_twisted) = false /\
  enforceSRDFPositionLimits (cycle_start input short_servo_jogged) = false /\
  status_ (snd (run input short_servo_jogged)) = JOINT_BOUND /\
  published_velocities (fst (run input short_servo_jogged)) = [[Fin 0; Fin 0]] /\
  held_j2 (cycle_start input short_servo_twisted) = Fin (7 # 25) /\
  held_j2 (snd (run input short_servo_twisted)) = Fin (221 # 700) /\
  status_ (snd (run input short_servo_twisted)) = NO_WARNING /\
  published_velocities (fst (run input short_servo_twisted))
  = [[Fin (1 # 10); Fin (1 # 10)]].
Proof. intros input. repeat split; vm_compute; reflexivity. Qed.

(** [j1] is inside the margin of its lower limit and moving down: the
    position check fails, the joint calculation returns [true] all the
    same, and the cycle publishes the halt, with the status
    [JOINT_BOUND]. *)
Lemma position_limit_halt_is_published :
  enforceSRDFPositionLimits near_limit_start = false /\
  fst (fst (jointServoCalcs (101 # 100)%Q empty_trajectory near_limit_start)) = true /\
  status_ (snd (run near_lower_limit jogging)) = JOINT_BOUND /\
  published_velocities (fst (run near_lower_limit jogging)) = [[Fin 0; Fin 0]] /\
  published_positions (fst (run near_lower_limit jogging)) = [[Fin (-59 # 20); Fin 1]].
Proof. repeat split; vm_compute; reflexivity. Qed.

Lemma position_limit_halt_is_usable_witness :
  let input := near_lower_limit in
  let s := jogging in
  let b := cycleStart input s in
  let s0 := default b (builderState b) in
  accepted input s /\
  wait_for_servo_commands_ b || paused_ b = false /\
  builderState b = Some s0 /\
  enforceSRDFPositionLimits s0 = false /\
  jointsSized s0 /\
  command_out_type (parameters_ s0) = "trajectory_msgs/JointTrajectory" /\
  fst (fst (convertDeltasToOutgoingCmd (now input) empty_trajectory s0)) = true /\
  status_ (snd (run input s)) = JOINT_BOUND /\
  exists halt pt,
    outgoing_cmd (fst (run input s)) = Some (TrajectoryMsg halt) /\
    last_sent_command_ (snd (run input s)) = halt /\
    points halt !! 0%nat = Some pt /\
    halted s0 pt.
Proof.
  intros input s b s0.
  assert (H1 : accepted input s) by (vm_compute; lia).
  assert (H2 : wait_for_servo_commands_ b || paused_ b = false) by (vm_compute; reflexivity).
  assert (H3 : builderState b = Some s0) by (vm_compute; reflexivity).
  assert (H4 : enforceSRDFPositionLimits s0 = false) by (vm_compute; reflexivity).
  assert (H5 : jointsSized s0) by (split; vm_compute; reflexivity).
  assert (H6 : command_out_type (parameters_ s0) = "trajectory_msgs/JointTrajectory")
    by (vm_compute; reflexivity).
  assert (H7 : use_gazebo (parameters_ s0) = true ->
               (1 <= gazebo_redundant_message_count_ s0)%nat)
    by (intros H; vm_compute in H; discriminate H).
  split; [exact H1 | split; [exact H2 | split; [exact H3 | split; [exact H4 |
    split; [exact H5 | split; [exact H6 |]]]]]].
  exact (position_limit_halt_is_usable input s s0 H1 H2 H3 H4 H5 H6 H7).
Defined.

(** The filter of the two-joint robot holds the seed of a reset, for the
    coefficient [2] of its configuration. *)
Lemma bench_filter_holds_seed (f : Filter) :
  coeff f = Fin 2 -> reset_holds_seed f.
Proof.
  intros Hc seed Hfin. destruct seed as [q | | |]; try contradiction.
  unfold filter, reset. simpl. unfold Filter_filter, Filter_reset. simpl. rewrite Hc.
  unfold same, div, sub, add, mul, neg, one.
  change (1 + 2 ?= 0)%Q with Gt. cbv iota. field.
Qed.

(** A twist with a not-a-number arrives after the first command: the
    cycle at time [1.01] selects the Cartesian calculation, which rejects
    the twist; both filters are reset to the measured positions [0] and
    [1] and return them when these are their next inputs. *)
Lemma filters_reseeded_without_live_point_witness :
  let input := tick (101 # 100) (joints_at 0 1 0 0) in
  let s' := snd (run input with_nan_twist) in
  accepted input with_nan_twist /\
  NoLivePoint (now input) (cycleStart input with_nan_twist) /\
  position_filters_ s'
  = imap (fun i f => reset f (position (original_joint_state_ s') !!! i))
      (position_filters_ with_nan_twist) /\
  forall i f p,
    position_filters_ s' !! i = Some f ->
    position (original_joint_state_ s') !! i = Some p -> finite p ->
    fst (filter f p) ≃ p.
Proof.
  intros input s'.
  assert (H1 : accepted input with_nan_twist) by (vm_compute; lia).
  assert (H2 : NoLivePoint (now input) (cycleStart input with_nan_twist)).
  { apply twist_with_nan; vm_compute; reflexivity. }
  destruct (filters_reseeded_without_live_point input with_nan_twist H1 H2) as [Hbank Hout].
  split; [exact H1 | split; [exact H2 | split; [exact Hbank |]]].
  intros i f p Hf Hp Hfin.
  destruct (position_filters_ with_nan_twist !! i) as [f0 |] eqn:Hf0.
  - apply (Hout i f0 f p Hf0); auto.
    apply bench_filter_holds_seed.
    destruct i as [| [| i]]; vm_compute in Hf0; [| | discriminate];
      injection Hf0 as <-; reflexivity.
  - exfalso. fold s' in Hbank. rewrite Hbank in Hf.
    rewrite list_lookup_imap, Hf0 in Hf. discriminate.
Defined.

(** Every control dimension is off, the twist is fresh and passes the
    tests, the collision scale is [1] and the status [NO_WARNING]; [j1]
    is inside the margin of its lower limit and moving down.  The
    increment is zero, and the cycle ends with the status
    [JOINT_BOUND]. *)
Lemma uncontrolled_twist_can_end_in_joint_bound :
  let s := uncontrolled_start in
  let r := cartesianServoCalcs (101 # 100)%Q empty_trajectory
             (planning_frame_ s) (robot_link_command_frame_ s) s in
  cartesianSelected s = true /\
  control_dimensions_ s = replicate 6 false /\
  existsb isnan (twist_components (twist (twist_stamped_cmd_ s))) = false /\
  is_unitless s = false /\
  (collision_velocity_scale_ s ==? zero) = false /\
  status_ s = NO_WARNING /\
  fst (fst r) = true /\
  map lowest (delta_theta_ (snd r)) = [Fin 0; Fin 0] /\
  status_ (snd r) = JOINT_BOUND.
Proof. intros s r. repeat split; vm_compute; reflexivity. Qed.

Lemma uncontrolled_twist_gives_zero_increment_witness :
  let s := uncontrolled_start in
  let pf := planning_frame_ s in
  let cf := robot_link_command_frame_ s in
  let r := cartesianServoCalcs (101 # 100)%Q empty_trajectory pf cf s in
  control_dimensions_ s = replicate 6 false /\
  existsb isnan (twist_components (twist (twist_stamped_cmd_ s))) = false /\
  is_unitless s &&
    existsb (fun c => fabs c >? one) (twist_components (twist (twist_stamped_cmd_ s))) = false /\
  is_unitless s || is_speed_units s = true /\
  finite (linear_scale (parameters_ s)) /\
  finite (rotational_scale (parameters_ s)) /\
  finite (publish_period (parameters_ s)) /\
  (forall cmd, finite_matrix (commandRotation s pf cf cmd)) /\
  finite_matrix (cartesianPseudoInverse s pf cf) /\
  finite (collision_velocity_scale_ s) /\
  (collision_velocity_scale_ s ==? zero) = false /\
  status_ s = NO_WARNING /\
  Forall is_zero (delta_theta_ (snd r)) /\
  (status_ (snd r) = NO_WARNING \/
   (status_ (snd r) = JOINT_BOUND /\ enforceSRDFPositionLimits (snd r) = false)).
Proof.
  intros s pf cf r.
  assert (H1 : control_dimensions_ s = replicate 6 false) by (vm_compute; reflexivity).
  assert (H2 : existsb isnan (twist_components (twist (twist_stamped_cmd_ s))) = false)
    by (vm_compute; reflexivity).
  assert (H3 : is_unitless s &&
                 existsb (fun c => fabs c >? one)
                   (twist_components (twist (twist_stamped_cmd_ s))) = false)
    by (vm_compute; reflexivity).
  assert (H4 : is_unitless s || is_speed_units s = true) by (vm_compute; reflexivity).
  assert (H5 : finite (linear_scale (parameters_ s))) by (vm_compute; exact I).
  assert (H6 : finite (rotational_scale (parameters_ s))) by (vm_compute; exact I).
  assert (H7 : finite (publish_period (parameters_ s))) by (vm_compute; exact I).
  assert (H8 : forall cmd, finite_matrix (commandRotation s pf cf cmd)).
  { intros cmd. unfold commandRotation.
    destruct (String.eqb (frame_id (twist_header cmd)) EmptyString
              || String.eqb (frame_id (twist_header cmd)) cf);
      vm_compute; repeat constructor. }
  assert (H9 : finite_matrix (cartesianPseudoInverse s pf cf))
    by (vm_compute; repeat constructor).
  assert (H10 : finite (collision_velocity_scale_ s)) by (vm_compute; exact I).
  assert (H11 : (collision_velocity_scale_ s ==? zero) = false) by (vm_compute; reflexivity).
  assert (H12 : status_ s = NO_WARNING) by (vm_compute; reflexivity).
  repeat (split; [assumption |]).
  exact (uncontrolled_twist_gives_zero_increment (101 # 100)%Q empty_trajectory pf cf s
           H1 H2 H3 H4 H5 H6 H7 H8 H9 H10 H11 H12).
Defined.

(** The status is [HALT_FOR_COLLISION] and the collision scale is back
    to [1].  The joint cycle at time [1.02] zeroes the increment and, [j1]
    being inside the margin of its limit and moving into it, ends with
    the status [JOINT_BOUND].  The joint cycle at time [1.03] then
    publishes the velocity [-1/10] for [j1]: no reset of the status and
    no Cartesian cycle took place in between. *)
Lemma collision_halt_ends_with_joint_bound :
  let s0 := halted_by_collision in
  let r1 := run tick_near_limit s0 in
  let r2 := run tick_back (snd r1) in
  status_ s0 = HALT_FOR_COLLISION /\
  lowest (collision_velocity_scale_ s0) = Fin 1 /\
  jointSelected (cycle_start tick_near_limit s0) = true /\
  published_velocities (fst r1) = [[Fin 0; Fin 0]] /\
  status_ (snd r1) = JOINT_BOUND /\
  jointSelected (cycle_start tick_back (snd r1)) = true /\
  map lowest (delta_theta_ (snd r2)) = [Fin (-1 # 1000); Fin 0] /\
  published_velocities (fst r2) = [[Fin (-1 # 10); Fin 0]].
Proof. intros s0 r1 r2. repeat split; vm_compute; reflexivity. Qed.

Lemma collision_halt_is_latched_witness :
  let s := cycle_start tick_near_limit halted_by_collision in
  let r := jointServoCalcs (102 # 100)%Q empty_trajectory s in
  status_ s = HALT_FOR_COLLISION /\
  existsb isnan (velocities (joint_servo_cmd_ s)) = false /\
  lowest (collision_velocity_scale_ s) = Fin 1 /\
  Forall (fun d => d = zero) (delta_theta_ (snd r)) /\
  (status_ (snd r) = HALT_FOR_COLLISION \/
   (status_ (snd r) = JOINT_BOUND /\ enforceSRDFPositionLimits (snd r) = false)).
Proof.
  intros s r.
  assert (H1 : status_ s = HALT_FOR_COLLISION) by (vm_compute; reflexivity).
  assert (H2 : existsb isnan (velocities (joint_servo_cmd_ s)) = false)
    by (vm_compute; reflexivity).
  split; [exact H1 | split; [exact H2 | split; [vm_compute; reflexivity |]]].
  exact (proj1 (collision_halt_is_latched (102 # 100)%Q empty_trajectory s H1) H2).
Defined.


(** The cycle of the witness above publishes the velocities [0.1] and
    [0.1], within the bounds [-2] and [2] of both joints. *)
Lemma bounded_cycle_publishes :
  published_velocities (fst (run (tick (101 # 100) (joints_at 0 1 0 0)) after_first_command))
  = [[Fin (1 # 10); Fin (1 # 10)]].
Proof. vm_compute. reflexivity. Qed.


(** C2, at a singular configuration.  With [j2] measured at [0] the
    Jacobian has a zero singular value; the pseudo-inverse divides by
    it, the increment of a finite twist is not finite, and the cycle
    publishes velocities that are not numbers, with the status
    [HALT_FOR_SINGULARITY]. *)
Lemma singular_configuration_publishes_nan :
  let input := tick (101 # 100) (joints_at 0 0 0 0) in
  let s := servoing_at_singularity in
  Configured s /\
  unit_interval (collision_velocity_scale_ s) /\
  VelocitiesKept s /\
  published_velocities (fst (run input s)) = [[NaN; NaN]] /\
  status_ (snd (run input s)) = HALT_FOR_SINGULARITY /\
  ~ published_within (parameters_ s) (joint_model_group_ s) (outgoing_cmd (fst (run input s))).
Proof.
  intros input s.
  split; [apply Configuredb_spec; vm_compute; reflexivity |].
  split; [split; vm_compute; reflexivity |].
  split; [apply VelocitiesKeptb_spec; vm_compute; reflexivity |].
  split; [vm_compute; reflexivity |].
  split; [vm_compute; reflexivity |].
  intros H. apply published_within_decided in H. vm_compute in H. discriminate H.
Qed.

(** In the arithmetic of [double] the same increment, clipped for a joint
    with the bounds [-2] and [2] and no acceleration bounds, gives the
    bound itself. *)
Lemma exact_clip_lands_on_bound :
  let period := Fin (1 # 100) in
  let delta_theta := [Fin (39 # 10) * period] in
  map lowest
    (div_scalar (fst (clipVelocity period 0 (getVariableBounds j3)
                        (delta_theta, div_scalar delta_theta period))) period)
  = [Fin 2].
Proof. vm_compute. reflexivity. Qed.

End Witnesses.

Section Binary64Clip.
Import Stdlib.Floats.PrimFloat.

(** C2, in binary64.  A jog at [3.9] with the period [0.01] and the
    bounds [-2] and [2]: the increment [3.9 * 0.01] is clipped by the
    ratio [2 * 0.01 / increment], and the published velocity, the
    clipped increment over the period, is [0x1.0000000000001p+1], the
    next number above the bound [2]. *)
Lemma binary64_clip_exceeds_bound :
  Binary64.jog_at_3_9 = next_up 2%float /\
  ltb 2%float Binary64.jog_at_3_9 = true /\
  leb Binary64.jog_at_3_9 2%float = false.
Proof. repeat split; vm_compute; reflexivity. Qed.

End Binary64Clip.

(** * More of the code at work on the two-joint robot *)

Section MoreWitnesses.
Import Bench.

Lemma zero_twist_has_no_nan_witness :
  isNonZero_twist zero_twist = false /\
  existsb isnan (twist_components (twist zero_twist)) = false.
Proof.
  assert (H : isNonZero_twist zero_twist = false) by (vm_compute; reflexivity).
  split; [exact H | exact (zero_twist_has_no_nan zero_twist H)].
Defined.

Lemma addJointIncrements_adds_witness :
  (length [Fin 1] <= length [Fin 10; Fin 20])%nat /\
  snd (addJointIncrements [Fin 10; Fin 20] [Fin 1])
  = zip_with add [Fin 10; Fin 20] [Fin 1] ++ drop (length [Fin 1]) [Fin 10; Fin 20].
Proof.
  assert (H : (length [Fin 1] <= length [Fin 10; Fin 20])%nat) by (simpl; lia).
  split; [exact H | exact (addJointIncrements_adds [Fin 10; Fin 20] [Fin 1] H)].
Defined.

Lemma removeDimension_deletes_row_witness :
  let jacobian := identity 3 2 in
  let delta_x := [Fin 1; Fin 2; Fin 3] in
  (1 < length jacobian)%nat /\
  length delta_x = length jacobian /\
  removeDimension jacobian delta_x 1 = (delete 1%nat jacobian, delete 1%nat delta_x).
Proof.
  intros jacobian delta_x.
  assert (H1 : (1 < length jacobian)%nat) by (vm_compute; lia).
  assert (H2 : length delta_x = length jacobian) by (vm_compute; reflexivity).
  split; [exact H1 | split; [exact H2 |]].
  exact (removeDimension_deletes_row jacobian delta_x 1 H1 H2).
Defined.

Lemma removeDriftDimensions_keeps_a_row_witness :
  let jacobian := identity 6 2 in
  let delta_x := replicate 6 one in
  let all_drift := replicate 6 true in
  (1 <= length jacobian)%nat /\
  (1 <= length (fst (removeDriftDimensions all_drift jacobian delta_x))
   <= length jacobian)%nat.
Proof.
  intros jacobian delta_x all_drift.
  assert (H : (1 <= length jacobian)%nat) by (vm_compute; lia).
  split; [exact H |].
  exact (removeDriftDimensions_keeps_a_row all_drift jacobian delta_x H).
Defined.

(** With every dimension drifting, the loop stops at one row: the first
    row of the Jacobian is what is left. *)
Lemma all_dimensions_drifting_leave_one_row :
  length (fst (removeDriftDimensions (replicate 6 true) (identity 6 2) (replicate 6 one)))
  = 1%nat.
Proof. vm_compute. reflexivity. Qed.

Lemma insertRedundantPoints_layout_witness :
  let pt := {| positions := [Fin 0; Fin 1]; point_velocities := [Fin 0; Fin 0];
               accelerations := []; time_from_start := Fin (1 # 100) |} in
  let traj := {| traj_stamp := 1%Q; traj_joint_names := ["j1"; "j2"]; points := [pt] |} in
  let pts := points (insertRedundantPointsIntoTrajectory servo0 traj 4) in
  points traj = [pt] /\
  (2 <= 4)%nat /\
  length pts = 4%nat /\
  pts !! 0%nat = Some pt /\
  pts !! 1%nat = Some JointTrajectoryPoint_default /\
  forall i, (2 <= i < 4)%nat ->
    pts !! i = Some {| positions := positions pt;
                       point_velocities := point_velocities pt;
                       accelerations := accelerations pt;
                       time_from_start :=
                         Fin (inject_Z (Z.of_nat i)) * publish_period (parameters_ servo0) |}.
Proof.
  intros pt traj pts.
  assert (H1 : points traj = [pt]) by reflexivity.
  assert (H2 : (2 <= 4)%nat) by lia.
  split; [exact H1 | split; [exact H2 |]].
  exact (insertRedundantPoints_layout servo0 traj 4 pt H1 H2).
Defined.

Lemma enforceSRDFPositionLimits_at_rest_witness :
  let s := planar_at 0 1 in
  Forall (fun joint => is_zero (getJointVelocities0 joint (kinematic_state_ s)))
    (joint_model_group_ s) /\
  enforceSRDFPositionLimits s = true.
Proof.
  intros s.
  assert (H : Forall (fun joint => is_zero (getJointVelocities0 joint (kinematic_state_ s)))
                (joint_model_group_ s)).
  { change (joint_model_group_ s) with [j1; j2].
    repeat constructor; vm_compute; reflexivity. }
  split; [exact H | exact (enforceSRDFPositionLimits_at_rest s H)].
Defined.

Lemma collision_scale_zero_halts_witness :
  let s := set_delta_theta_ [Fin 1; Fin 2] (collisionVelocityScaleCB zero jogging) in
  (collision_velocity_scale_ s ==? zero) = true /\
  status_ (applyVelocityScaling one s) = HALT_FOR_COLLISION /\
  delta_theta_ (applyVelocityScaling one s) = Zero (length (delta_theta_ s)).
Proof.
  intros s.
  assert (H : (collision_velocity_scale_ s ==? zero) = true) by (vm_compute; reflexivity).
  split; [exact H | exact (collision_scale_zero_halts one s H)].
Defined.

(** [j2] at [1/20]: the condition number is [20], between the thresholds
    [17] and [30]; the command moves [j2] toward zero. *)
Lemma singularity_scale_decelerates_witness :
  let s := planar_at 0 (1 # 20) in
  let svd := planar_svd 0 (1 # 20) in
  let cv := [zero; Fin (- (1 # 100))] in
  let r := velocityScalingFactorForSingularity cv svd (pseudoInverse svd) s in
  (dot (resolveSign (condition_number svd)
          (fst (lookAhead (col (matrixU svd) 1) (pseudoInverse svd) s))
          (col (matrixU svd) 1)) cv >? zero) = true /\
  (condition_number svd >? lower_singularity_threshold (parameters_ s)) = true /\
  (condition_number svd <? hard_stop_singularity_threshold (parameters_ s)) = true /\
  fst r = one - (condition_number svd - lower_singularity_threshold (parameters_ s)) /
                (hard_stop_singularity_threshold (parameters_ s)
                 - lower_singularity_threshold (parameters_ s)) /\
  status_ (snd r) = DECELERATE_FOR_SINGULARITY.
Proof.
  intros s svd cv r.
  assert (H1 : (dot (resolveSign (condition_number svd)
          (fst (lookAhead (col (matrixU svd) 1) (pseudoInverse svd) s))
          (col (matrixU svd) 1)) cv >? zero) = true) by (vm_compute; reflexivity).
  assert (H2 : (condition_number svd >? lower_singularity_threshold (parameters_ s)) = true)
    by (vm_compute; reflexivity).
  assert (H3 : (condition_number svd <? hard_stop_singularity_threshold (parameters_ s)) = true)
    by (vm_compute; reflexivity).
  split; [exact H1 | split; [exact H2 | split; [exact H3 |]]].
  exact (singularity_scale_decelerates cv svd (pseudoInverse svd) s H1 H2 H3).
Defined.

(** At the condition number [20] the scale is [1 - 3/13 = 10/13]. *)
Lemma singularity_scale_at_twenty :
  lowest (fst (velocityScalingFactorForSingularity [zero; Fin (- (1 # 100))]
                 (planar_svd 0 (1 # 20)) (pseudoInverse (planar_svd 0 (1 # 20)))
                 (planar_at 0 (1 # 20))))
  = Fin (10 # 13).
Proof. vm_compute. reflexivity. Qed.

(** [j2] at [1/40]: the condition number is [40], above the hard stop. *)
Lemma singularity_scale_halts_witness :
  let s := planar_at 0 (1 # 40) in
  let svd := planar_svd 0 (1 # 40) in
  let cv := [zero; Fin (- (1 # 100))] in
  let r := velocityScalingFactorForSingularity cv svd (pseudoInverse svd) s in
  (dot (resolveSign (condition_number svd)
          (fst (lookAhead (col (matrixU svd) 1) (pseudoInverse svd) s))
          (col (matrixU svd) 1)) cv >? zero) = true /\
  (condition_number svd >? hard_stop_singularity_threshold (parameters_ s)) = true /\
  fst r = zero /\ status_ (snd r) = HALT_FOR_SINGULARITY.
Proof.
  intros s svd cv r.
  assert (H1 : (dot (resolveSign (condition_number svd)
          (fst (lookAhead (col (matrixU svd) 1) (pseudoInverse svd) s))
          (col (matrixU svd) 1)) cv >? zero) = true) by (vm_compute; reflexivity).
  assert (H2 : (condition_number svd >? hard_stop_singularity_threshold (parameters_ s)) = true)
    by (vm_compute; reflexivity).
  split; [exact H1 | split; [exact H2 |]].
  exact (singularity_scale_halts cv svd (pseudoInverse svd) s H1 H2).
Defined.

(** [j2] at [1/40], above the hard stop, and the command moves [j2] away
    from zero: full speed. *)
Lemma singularity_scale_moving_away_witness :
  let s := planar_at 0 (1 # 40) in
  let svd := planar_svd 0 (1 # 40) in
  let cv := [zero; Fin (1 # 100)] in
  let r := velocityScalingFactorForSingularity cv svd (pseudoInverse svd) s in
  (dot (resolveSign (condition_number svd)
          (fst (lookAhead (col (matrixU svd) 1) (pseudoInverse svd) s))
          (col (matrixU svd) 1)) cv >? zero) = false /\
  fst r = one /\ status_ (snd r) = status_ s.
Proof.
  intros s svd cv r.
  assert (H1 : (dot (resolveSign (condition_number svd)
          (fst (lookAhead (col (matrixU svd) 1) (pseudoInverse svd) s))
          (col (matrixU svd) 1)) cv >? zero) = false) by (vm_compute; reflexivity).
  split; [exact H1 |].
  exact (singularity_scale_moving_away cv svd (pseudoInverse svd) s H1).
Defined.

Lemma ServoCalcs_new_kept_witness :
  let state0 := {| variable_positions := ∅; variable_velocities := ∅ |} in
  Forall straddles_zero [j1; j2] /\
  velocities_within [j1; j2] (velocity (original_joint_state_ defaults)) /\
  VelocitiesKept (ServoCalcs_new defaults parameters state0 [j1; j2] (joints_at 0 1 0 0) 0%Q).
Proof.
  intros state0.
  assert (H1 : Forall straddles_zero [j1; j2]).
  { repeat constructor; apply (within_velocity_boundsb_spec _ zero); vm_compute; reflexivity. }
  assert (H2 : velocities_within [j1; j2] (velocity (original_joint_state_ defaults))).
  { apply velocities_withinb_spec. vm_compute. reflexivity. }
  split; [exact H1 | split; [exact H2 |]].
  exact (ServoCalcs_new_kept defaults parameters state0 [j1; j2] (joints_at 0 1 0 0) 0%Q H1 H2).
Defined.

(** An increment of [0.001] for [j1] stands for the velocity [0.1] and,
    from rest, the acceleration [10]: both within the limits [2] and
    [10]. *)
Lemma limits_keep_a_mild_increment_witness :
  let s := servo0 in
  let delta_theta := [Fin (1 # 1000); zero] in
  let period := publish_period (parameters_ s) in
  let velocity := div_scalar delta_theta period in
  let acceleration := div_scalar (vsub velocity (prev_joint_velocity_ s)) period in
  (forall i joint, joint_model_group_ s !! i = Some joint ->
     acceleration_bounded_ (getVariableBounds joint) = true ->
     (acceleration !!! i <? min_acceleration_ (getVariableBounds joint)) = false /\
     (acceleration !!! i >? max_acceleration_ (getVariableBounds joint)) = false) /\
  (forall i joint, joint_model_group_ s !! i = Some joint ->
     velocity_bounded_ (getVariableBounds joint) = true ->
     (velocity !!! i <? min_velocity_ (getVariableBounds joint)) = false /\
     (velocity !!! i >? max_velocity_ (getVariableBounds joint)) = false) /\
  (length (joint_model_group_ s) <= length delta_theta)%nat /\
  enforceSRDFAccelVelLimits s delta_theta = delta_theta.
Proof.
  intros s delta_theta period velocity acceleration.
  assert (H1 : forall i joint, joint_model_group_ s !! i = Some joint ->
     acceleration_bounded_ (getVariableBounds joint) = true ->
     (acceleration !!! i <? min_acceleration_ (getVariableBounds joint)) = false /\
     (acceleration !!! i >? max_acceleration_ (getVariableBounds joint)) = false).
  { intros i joint Hj _. change (joint_model_group_ s) with [j1; j2] in Hj.
    destruct i as [| [| i]]; cbn in Hj; [| | discriminate];
      injection Hj as <-; split; vm_compute; reflexivity. }
  assert (H2 : forall i joint, joint_model_group_ s !! i = Some joint ->
     velocity_bounded_ (getVariableBounds joint) = true ->
     (velocity !!! i <? min_velocity_ (getVariableBounds joint)) = false /\
     (velocity !!! i >? max_velocity_ (getVariableBounds joint)) = false).
  { intros i joint Hj _. change (joint_model_group_ s) with [j1; j2] in Hj.
    destruct i as [| [| i]]; cbn in Hj; [| | discriminate];
      injection Hj as <-; split; vm_compute; reflexivity. }
  assert (H3 : (length (joint_model_group_ s) <= length delta_theta)%nat)
    by (vm_compute; lia).
  split; [exact H1 | split; [exact H2 | split; [exact H3 |]]].
  exact (limits_keep_a_mild_increment s delta_theta H1 H2 H3).
Defined.

(** a joint-state message that names [j1] only *)
Lemma short_joint_state_is_refused_witness :
  let input := tick 1 {| name := ["j1"]; position := [zero]; velocity := [zero] |} in
  (length (name (latest_joint_state input)) < num_joints_ servo0)%nat /\
  ros_ok input = true /\
  run input servo0
  = ({| status_msg := status_ servo0; worst_case_stop_time_msg := None;
        outgoing_cmd := None; polls_again := negb (stop_requested_ servo0) |}, servo0).
Proof.
  intros input.
  assert (H : (length (name (latest_joint_state input)) < num_joints_ servo0)%nat)
    by (vm_compute; lia).
  split; [exact H |]. split; [reflexivity |].
  exact (proj1 (short_joint_state_is_refused input servo0 H) eq_refl).
Defined.

Lemma updateJoints_stores_positions_only_witness :
  let latest := joints_at (1 # 2) 1 0 0 in
  let r := updateJoints latest servo0 in
  (num_joints_ servo0 <= length (name latest))%nat /\
  fst (fst r) = true /\
  snd (fst r) = Some (worstCaseStopTime (joint_model_group_ servo0) latest) /\
  original_joint_state_ (snd r) = internal_joint_state_ (snd r) /\
  name (internal_joint_state_ (snd r)) = name (internal_joint_state_ servo0) /\
  velocity (internal_joint_state_ (snd r)) = velocity (internal_joint_state_ servo0) /\
  length (position (internal_joint_state_ (snd r)))
  = length (position (internal_joint_state_ servo0)).
Proof.
  intros latest r.
  assert (H : (num_joints_ servo0 <= length (name latest))%nat) by (vm_compute; lia).
  split; [exact H | exact (updateJoints_stores_positions_only latest servo0 H)].
Defined.

(** the message gives [j2] first and [j1] second; the servo stores the
    position of [j1] at index [0] *)
Lemma updateJoints_reads_position_witness :
  let latest := {| name := ["j2"; "j1"]; position := [Fin 7; Fin 5];
                   velocity := [zero; zero] |} in
  (num_joints_ servo0 <= length (name latest))%nat /\
  name latest !! 1%nat = Some "j1" /\
  joint_state_name_map_ servo0 !! "j1" = Some 0%nat /\
  (0 < length (position (internal_joint_state_ servo0)))%nat /\
  (forall m' n', (1 < m')%nat -> name latest !! m' = Some n' ->
                 joint_state_name_map_ servo0 !! n' <> Some 0%nat) /\
  position (internal_joint_state_ (snd (updateJoints latest servo0))) !! 0%nat
  = Some (Fin 5).
Proof.
  intros latest.
  assert (H1 : (num_joints_ servo0 <= length (name latest))%nat) by (vm_compute; lia).
  assert (H2 : name latest !! 1%nat = Some "j1") by reflexivity.
  assert (H3 : joint_state_name_map_ servo0 !! "j1" = Some 0%nat)
    by (vm_compute; reflexivity).
  assert (H4 : (0 < length (position (internal_joint_state_ servo0)))%nat)
    by (vm_compute; lia).
  assert (H5 : forall m' n', (1 < m')%nat -> name latest !! m' = Some n' ->
                 joint_state_name_map_ servo0 !! n' <> Some 0%nat).
  { intros m' n' Hm Hn. destruct m' as [| [| m']]; [lia | lia | discriminate Hn]. }
  split; [exact H1 | split; [exact H2 | split; [exact H3 | split; [exact H4 |
    split; [exact H5 |]]]]].
  exact (updateJoints_reads_position latest servo0 1 0 "j1" H1 H2 H3 H4 H5).
Defined.

Lemma stop_time_is_the_maximum_when_all_bounded_witness :
  let latest := joints_at 0 1 1 (-4) in
  Forall
    (fun idx =>
       exists i joint,
         list_find (fun joint_model => getName joint_model = name latest !!! idx) [j1; j2]
         = Some (i, joint) /\
         acceleration_bounded_ (getVariableBounds joint) = true)
    (seq 0 (length (velocity latest))) /\
  worstCaseStopTime [j1; j2] latest = worstCaseStopTime_spec [j1; j2] latest.
Proof.
  intros latest.
  assert (H : Forall
    (fun idx =>
       exists i joint,
         list_find (fun joint_model => getName joint_model = name latest !!! idx) [j1; j2]
         = Some (i, joint) /\
         acceleration_bounded_ (getVariableBounds joint) = true)
    (seq 0 (length (velocity latest)))).
  { repeat constructor.
    - exists 0%nat, j1. split; vm_compute; reflexivity.
    - exists 1%nat, j2. split; vm_compute; reflexivity. }
  split; [exact H | exact (stop_time_is_the_maximum_when_all_bounded [j1; j2] latest H)].
Defined.

(** [j1] at [1] and [j2] at [-4], both with the limit [10]: the stop time
    is [4/10]. *)
Lemma stop_time_of_two_bounded_joints :
  worstCaseStopTime [j1; j2] (joints_at 0 1 1 (-4)) ≃ Fin (4 # 10).
Proof. vm_compute. reflexivity. Qed.

(** the status [HALT_FOR_COLLISION] is still there after a timer event *)
Lemma status_is_cleared_by_reset_only_witness :
  TimerEvent tick_back <> ResetServoStatus /\
  status_ halted_by_collision <> NO_WARNING /\
  status_ (handle (TimerEvent tick_back) halted_by_collision) <> NO_WARNING.
Proof.
  assert (H1 : TimerEvent tick_back <> ResetServoStatus) by discriminate.
  assert (H2 : status_ halted_by_collision <> NO_WARNING).
  { assert (E : status_ halted_by_collision = HALT_FOR_COLLISION)
      by (vm_compute; reflexivity).
    rewrite E. discriminate. }
  split; [exact H1 | split; [exact H2 |]].
  exact (status_is_cleared_by_reset_only (TimerEvent tick_back) halted_by_collision H1 H2).
Defined.

(** the servo as constructed is waiting for its first command *)
Lemma paused_or_waiting_publishes_nothing_witness :
  let input := tick 1 (joints_at 0 1 0 0) in
  wait_for_servo_commands_ servo0 || paused_ servo0 = true /\
  outgoing_cmd (fst (run input servo0)) = None /\
  last_sent_command_ (snd (run input servo0)) = last_sent_command_ servo0 /\
  status_ (snd (run input servo0)) = status_ servo0 /\
  paused_ (snd (run input servo0)) = paused_ servo0.
Proof.
  intros input.
  assert (H : wait_for_servo_commands_ servo0 || paused_ servo0 = true)
    by (vm_compute; reflexivity).
  split; [exact H | exact (paused_or_waiting_publishes_nothing input servo0 H)].
Defined.

(** five halt messages counted, four allowed *)
Lemma halt_messages_are_limited_witness :
  let s := set_zero_velocity_count_ 5 servo0 in
  let traj := last_sent_command_ s in
  have_nonzero_command_ s = false /\
  num_outgoing_halt_msgs_to_publish (parameters_ s) <> 0%Z /\
  (num_outgoing_halt_msgs_to_publish (parameters_ s) < zero_velocity_count_ s)%Z /\
  fst (finishCycle 1%Q traj s) = None /\
  last_sent_command_ (snd (finishCycle 1%Q traj s)) = last_sent_command_ s.
Proof.
  intros s traj.
  assert (H1 : have_nonzero_command_ s = false) by (vm_compute; reflexivity).
  assert (H2 : num_outgoing_halt_msgs_to_publish (parameters_ s) <> 0%Z)
    by (vm_compute; discriminate).
  assert (H3 : (num_outgoing_halt_msgs_to_publish (parameters_ s) < zero_velocity_count_ s)%Z)
    by (vm_compute; reflexivity).
  split; [exact H1 | split; [exact H2 | split; [exact H3 |]]].
  exact (halt_messages_are_limited 1%Q traj s H1 H2 H3).
Defined.

(** the servo after a first event, with the joints measured and no
    command yet *)
Lemma zero_commands_publish_a_halt_witness :
  let s := snd (run (tick 1 (joints_at 0 1 0 0)) servo0) in
  let traj := last_sent_command_ s in
  have_nonzero_command_ s = false /\
  command_out_type (parameters_ s) = "trajectory_msgs/JointTrajectory" /\
  (num_outgoing_halt_msgs_to_publish (parameters_ s) = 0 \/
   zero_velocity_count_ s <= num_outgoing_halt_msgs_to_publish (parameters_ s))%Z /\
  length (position (original_joint_state_ s)) = num_joints_ s /\
  firstPointSized s traj /\
  exists halt,
    fst (finishCycle 1%Q traj s) = Some (TrajectoryMsg halt) /\
    last_sent_command_ (snd (finishCycle 1%Q traj s)) = halt /\
    traj_stamp halt = 1%Q /\
    exists pt, points halt !! 0%nat = Some pt /\ halted s pt.
Proof.
  intros s traj.
  assert (H1 : have_nonzero_command_ s = false) by (vm_compute; reflexivity).
  assert (H2 : command_out_type (parameters_ s) = "trajectory_msgs/JointTrajectory")
    by (vm_compute; reflexivity).
  assert (H3 : (num_outgoing_halt_msgs_to_publish (parameters_ s) = 0 \/
                zero_velocity_count_ s <= num_outgoing_halt_msgs_to_publish (parameters_ s))%Z)
    by (right; vm_compute; discriminate).
  assert (H4 : length (position (original_joint_state_ s)) = num_joints_ s)
    by (vm_compute; reflexivity).
  assert (H5 : firstPointSized s traj) by (vm_compute; split; intros _; reflexivity).
  split; [exact H1 | split; [exact H2 | split; [exact H3 | split; [exact H4 |
    split; [exact H5 |]]]]].
  exact (zero_commands_publish_a_halt 1%Q traj s H1 H2 H3 H4 H5).
Defined.

Lemma zero_velocity_count_stays_in_range_witness :
  let s := servo0 in
  let traj := last_sent_command_ s in
  (0 <= zero_velocity_count_ s <= INT_MAX)%Z /\
  zero_velocity_count_ (snd (finishCycle 1%Q traj s))
  = (if have_nonzero_command_ s then 0
     else Z.min (zero_velocity_count_ s + 1) INT_MAX)%Z /\
  (0 <= zero_velocity_count_ (snd (finishCycle 1%Q traj s)) <= INT_MAX)%Z.
Proof.
  intros s traj.
  assert (H : (0 <= zero_velocity_count_ s <= INT_MAX)%Z) by (vm_compute; split; discriminate).
  split; [exact H | exact (zero_velocity_count_stays_in_range 1%Q traj s H)].
Defined.

(** the twist with a not-a-number, fresh at time [1.01] *)
Lemma rejected_command_publishes_nothing_witness :
  let input := tick (101 # 100) (joints_at 0 1 0 0) in
  let s := with_nan_twist in
  let b := cycleStart input s in
  ((cartesianSelected b = true /\
    (existsb isnan (twist_components (twist (twist_stamped_cmd_ b))) = true \/
     is_unitless b &&
       existsb (fun c => fabs c >? one) (twist_components (twist (twist_stamped_cmd_ b)))
     = true)) \/
   (jointSelected b = true /\ existsb isnan (velocities (joint_servo_cmd_ b)) = true)) /\
  outgoing_cmd (fst (run input s)) = None /\
  last_sent_command_ (snd (run input s)) = last_sent_command_ s /\
  status_ (snd (run input s)) = status_ s.
Proof.
  intros input s b.
  assert (H : (cartesianSelected b = true /\
    (existsb isnan (twist_components (twist (twist_stamped_cmd_ b))) = true \/
     is_unitless b &&
       existsb (fun c => fabs c >? one) (twist_components (twist (twist_stamped_cmd_ b)))
     = true)) \/
   (jointSelected b = true /\ existsb isnan (velocities (joint_servo_cmd_ b)) = true)).
  { left. split; [vm_compute; reflexivity | left; vm_compute; reflexivity]. }
  split; [exact H | exact (rejected_command_publishes_nothing input s H)].
Defined.

(** a zero twist, stamped zero, arrives after the first command *)
Lemma zero_stamp_does_not_refresh_witness :
  let input := tick (101 # 100) (joints_at 0 1 0 0) in
  Qeq_bool (stamp (twist_header zero_twist)) 0 = true /\
  twist_command_is_stale_ (cycleStart input (twistStampedCB zero_twist after_first_command))
  = twist_command_is_stale_ (cycleStart input after_first_command).
Proof.
  intros input.
  assert (H : Qeq_bool (stamp (twist_header zero_twist)) 0 = true) by reflexivity.
  split; [exact H | exact (zero_stamp_does_not_refresh zero_twist input after_first_command H)].
Defined.

Lemma ServoCalcs_new_name_map_witness :
  let state0 := {| variable_positions := ∅; variable_velocities := ∅ |} in
  let s := ServoCalcs_new defaults parameters state0 [j1; j2] (joints_at 0 1 0 0) 0%Q in
  NoDup (map getName [j1; j2]) /\
  [j1; j2] !! 1%nat = Some j2 /\
  joint_state_name_map_ s !! getName j2 = Some 1%nat /\
  num_joints_ s = length [j1; j2] /\
  length (position_filters_ s) = length [j1; j2] /\
  name (internal_joint_state_ s) !! 1%nat = Some (getName j2).
Proof.
  intros state0 s.
  assert (H1 : NoDup (map getName [j1; j2])).
  { apply (bool_decide_unpack _). vm_compute. exact I. }
  assert (H2 : [j1; j2] !! 1%nat = Some j2) by reflexivity.
  split; [exact H1 | split; [exact H2 |]].
  exact (ServoCalcs_new_name_map defaults parameters state0 [j1; j2] (joints_at 0 1 0 0)
           0%Q 1 j2 H1 H2).
Defined.

End MoreWitnesses.
